(** * Tawakkalna chaos-engineering harness: the two demo scenarios

    A shallow embedding of [chaos_test_ddos_demo.py] (module [DDoS]) and
    [chaos_test_server_failure_demo.py] (module [Attrition]), followed by
    the properties of the harness.

    Modelling conventions.
    - Python [int] is [Z]; Python [float] is modelled by the rational its
      decimal literal denotes ([Q], exact arithmetic, no rounding).
    - [random.random()], [random.uniform] and [random.choice] read an
      injected source: the draw is an argument of the operation that
      consumes it.  [random.random()] returns a value in [[0, 1)].
    - [time.time()] and [datetime.now()] are arguments as well; [time.sleep]
      and the console output of [log] / [print] carry no state and are left
      out.  What the report prints is returned as a record.
    - A raised exception is a value of type [exn] in the [Err] branch of
      [result].
    - Threads are small-step machines over the shared [DDoSSimulation]
      object; [threading.Lock] is a field holding the identity of its
      owner. *)

From Stdlib Require Import ZArith QArith Qminmax Lqa Lia List Bool.
From stdpp Require Import base list strings.

Local Open Scope Z_scope.

(** ** Python primitives shared by the two scripts *)

Module Py.

Inductive exn : Set :=
| ZeroDivisionError
| TypeError
| KeyError
| ValueError
| IndexError.

Inductive result (A : Type) : Type :=
| Ok (a : A)
| Err (e : exn).

Arguments Ok {A} a.
Arguments Err {A} e.

#[global] Instance result_ret : MRet result := fun A a => Ok a.

#[global] Instance result_bind : MBind result := fun A B k m =>
  match m with
  | Ok a => k a
  | Err e => Err e
  end.

(** [a < b] on floats. *)
Definition Qltb (a b : Q) : bool := negb (Qle_bool b a).

(** [a >= b] on floats. *)
Definition Qgeb (a b : Q) : bool := Qle_bool b a.

(** [a / b]: true division, raising [ZeroDivisionError] on a zero divisor. *)
Definition truediv (a b : Q) : result Q :=
  if Qeq_bool b 0 then Err ZeroDivisionError else Ok (a / b)%Q.

(** [float(n)] for an [int]. *)
Definition of_int (n : Z) : Q := inject_Z n.

(** [len(l)] as an [int]. *)
Definition len {A : Type} (l : list A) : Z := Z.of_nat (length l).

(** [sum(l)] over floats (the accumulator starts at the integer 0). *)
Definition sum (l : list Q) : Q := fold_left Qplus l 0%Q.

(** [l.remove(x)]: drop the first element equal to [x]; [ValueError] when
    there is none. *)
Fixpoint list_remove {A : Type} `{EqDecision A} (x : A) (l : list A)
  : result (list A) :=
  match l with
  | [] => Err ValueError
  | y :: l' =>
      if decide (y = x) then Ok l'
      else l'' ← list_remove x l'; Ok (y :: l'')
  end.

(** [random.choice(l)] is [l[randbelow(len(l))]]; [k] is the raw integer the
    generator supplies, reduced into range.  [IndexError] on an empty
    sequence. *)
Definition choice {A : Type} (k : nat) (l : list A) : result A :=
  match l !! (k mod length l)%nat with
  | Some x => Ok x
  | None => Err IndexError
  end.

(** [random.uniform(a, b)] is [a + (b - a) * random()]. *)
Definition uniform (a b u : Q) : Q := (a + (b - a) * u)%Q.

End Py.

Import Py.

(** ** chaos_test_ddos_demo.py *)

Module DDoS.

(** Module-level configuration. *)
Record Config : Set := {
  NORMAL_USERS : nat;
  ATTACK_BOTS : nat;
  REQUESTS_PER_USER : nat;
  REQUESTS_PER_BOT : nat
}.

Definition demo : Config :=
  {| NORMAL_USERS := 5; ATTACK_BOTS := 10;
     REQUESTS_PER_USER := 3; REQUESTS_PER_BOT := 5 |}.

(** The [results] dictionary of [DDoSSimulation]. *)
Record Results : Set := {
  normal_user_success : Z;
  normal_user_fail : Z;
  bot_requests_sent : Z;
  bot_requests_blocked : Z;
  start_time : option Q;
  end_time : option Q
}.

(** The simulation object: [results], [lock] (its owner, if taken) and
    [ddos_protection_active]. *)
Record DDoSSimulation : Set := {
  results : Results;
  lock : option nat;
  ddos_protection_active : bool
}.

(** [DDoSSimulation.__init__] *)
Definition init : DDoSSimulation :=
  {| results := {| normal_user_success := 0; normal_user_fail := 0;
                   bot_requests_sent := 0; bot_requests_blocked := 0;
                   start_time := None; end_time := None |};
     lock := None;
     ddos_protection_active := false |}.

Definition with_results (f : Results -> Results) (self : DDoSSimulation)
  : DDoSSimulation :=
  {| results := f (results self); lock := lock self;
     ddos_protection_active := ddos_protection_active self |}.

Definition with_lock (o : option nat) (self : DDoSSimulation) : DDoSSimulation :=
  {| results := results self; lock := o;
     ddos_protection_active := ddos_protection_active self |}.

Definition with_active (b : bool) (self : DDoSSimulation) : DDoSSimulation :=
  {| results := results self; lock := lock self;
     ddos_protection_active := b |}.

Definition set_normal_user_success (v : Z) (r : Results) : Results :=
  {| normal_user_success := v; normal_user_fail := normal_user_fail r;
     bot_requests_sent := bot_requests_sent r;
     bot_requests_blocked := bot_requests_blocked r;
     start_time := start_time r; end_time := end_time r |}.

Definition set_normal_user_fail (v : Z) (r : Results) : Results :=
  {| normal_user_success := normal_user_success r; normal_user_fail := v;
     bot_requests_sent := bot_requests_sent r;
     bot_requests_blocked := bot_requests_blocked r;
     start_time := start_time r; end_time := end_time r |}.

Definition set_bot_requests_sent (v : Z) (r : Results) : Results :=
  {| normal_user_success := normal_user_success r;
     normal_user_fail := normal_user_fail r;
     bot_requests_sent := v;
     bot_requests_blocked := bot_requests_blocked r;
     start_time := start_time r; end_time := end_time r |}.

Definition set_bot_requests_blocked (v : Z) (r : Results) : Results :=
  {| normal_user_success := normal_user_success r;
     normal_user_fail := normal_user_fail r;
     bot_requests_sent := bot_requests_sent r;
     bot_requests_blocked := v;
     start_time := start_time r; end_time := end_time r |}.

Definition set_start_time (t : Q) (r : Results) : Results :=
  {| normal_user_success := normal_user_success r;
     normal_user_fail := normal_user_fail r;
     bot_requests_sent := bot_requests_sent r;
     bot_requests_blocked := bot_requests_blocked r;
     start_time := Some t; end_time := end_time r |}.

Definition set_end_time (t : Q) (r : Results) : Results :=
  {| normal_user_success := normal_user_success r;
     normal_user_fail := normal_user_fail r;
     bot_requests_sent := bot_requests_sent r;
     bot_requests_blocked := bot_requests_blocked r;
     start_time := start_time r; end_time := Some t |}.

(** The first statement of [mock_server_response]:
    [if self.results["bot_requests_sent"] > 5: self.ddos_protection_active = True] *)
Definition detect (self : DDoSSimulation) : DDoSSimulation :=
  if 5 <? bot_requests_sent (results self)
  then with_active true self
  else self.

(** The branches of [mock_server_response] once the flag has been read:
    [active] is the value of [self.ddos_protection_active], [r] the value
    returned by [random.random()]. *)
Definition respond (is_bot active : bool) (r : Q) : Z :=
  if is_bot && active then
    if Qltb r 0.85 then 429 else 200
  else if is_bot then
    if Qltb r 0.30 then 429 else 200
  else
    if Qltb r 0.95 then 200 else 503.

(** [mock_server_response(self, is_bot)] *)
Definition mock_server_response (is_bot : bool) (r : Q) (self : DDoSSimulation)
  : Z * DDoSSimulation :=
  let self' := detect self in
  (respond is_bot (ddos_protection_active self') r, self').

(** The body of [with self.lock:] in [simulate_normal_user]. *)
Definition record_normal (status_code : Z) (self : DDoSSimulation)
  : DDoSSimulation :=
  if status_code =? 200
  then with_results
         (fun r => set_normal_user_success (normal_user_success r + 1) r) self
  else with_results
         (fun r => set_normal_user_fail (normal_user_fail r + 1) r) self.

(** [status_code in [429, 403]] *)
Definition is_blocked (status_code : Z) : bool :=
  (status_code =? 429) || (status_code =? 403).

(** The body of [with self.lock:] in [simulate_attack_bot]. *)
Definition record_bot (status_code : Z) (self : DDoSSimulation)
  : DDoSSimulation :=
  let self1 :=
    with_results
      (fun r => set_bot_requests_sent (bot_requests_sent r + 1) r) self in
  if is_blocked status_code
  then with_results
         (fun r => set_bot_requests_blocked (bot_requests_blocked r + 1) r) self1
  else self1.

(** One iteration of the loop of [simulate_normal_user], run without
    interference. *)
Definition normal_request (r : Q) (self : DDoSSimulation) : DDoSSimulation :=
  let '(status_code, self1) := mock_server_response false r self in
  record_normal status_code self1.

(** One iteration of the loop of [simulate_attack_bot], run without
    interference. *)
Definition bot_request (r : Q) (self : DDoSSimulation) : DDoSSimulation :=
  let '(status_code, self1) := mock_server_response true r self in
  record_bot status_code self1.

(** *** The actor threads

    [simulate_normal_user] and [simulate_attack_bot] run as
    [threading.Thread]s over the same object.  A thread is its kind, the
    loop variable [i] of [for i in range(...)] and a program point; the
    interpreter may switch threads between any two program points.  The
    augmented assignment [d[k] += 1] is a read followed by a write. *)

Inductive Kind : Set := Normal | Bot.

Inductive PC : Set :=
| LoopHead                       (* loop test, sleep, call, counter read *)
| Compare (sent : Z)             (* tests [> 5], may set the flag *)
| Branch                         (* reads [self.ddos_protection_active] *)
| Draw (active : bool)           (* calls [random.random()] and returns *)
| Acquire (status_code : Z)      (* [with self.lock:] *)
| Load (status_code : Z)         (* reads the first counter *)
| Store (status_code tmp : Z)    (* writes it back, plus one *)
| TestBlocked (status_code : Z)  (* [if status_code in [429, 403]] *)
| LoadBlocked                    (* reads [bot_requests_blocked] *)
| StoreBlocked (tmp : Z)         (* writes it back, plus one *)
| Release.                       (* leaves the [with] block *)

Record Thread : Set := {
  t_kind : Kind;
  t_iter : nat;
  t_pc : PC
}.

Record World : Set := {
  shared : DDoSSimulation;
  threads : list Thread
}.

Definition is_bot (k : Kind) : bool :=
  match k with Normal => false | Bot => true end.

(** The bound of the thread's [range]. *)
Definition budget (cfg : Config) (k : Kind) : nat :=
  match k with
  | Normal => REQUESTS_PER_USER cfg
  | Bot => REQUESTS_PER_BOT cfg
  end.

Definition goto (p : PC) (t : Thread) : Thread :=
  {| t_kind := t_kind t; t_iter := t_iter t; t_pc := p |}.

Definition next_iteration (t : Thread) : Thread :=
  {| t_kind := t_kind t; t_iter := S (t_iter t); t_pc := LoopHead |}.

(** One program point of thread [tid], whose state is [t]; [r] is what
    [random.random()] returns if this point calls it.  [None]: the thread
    cannot run (it has finished, or it waits for the lock). *)
Definition thread_step (cfg : Config) (tid : nat) (r : Q)
    (self : DDoSSimulation) (t : Thread) : option (Thread * DDoSSimulation) :=
  match t_pc t with
  | LoopHead =>
      if (t_iter t <? budget cfg (t_kind t))%nat
      then Some (goto (Compare (bot_requests_sent (results self))) t, self)
      else None
  | Compare sent =>
      Some (goto Branch t, if 5 <? sent then with_active true self else self)
  | Branch =>
      Some (goto (Draw (ddos_protection_active self)) t, self)
  | Draw active =>
      Some (goto (Acquire (respond (is_bot (t_kind t)) active r)) t, self)
  | Acquire status_code =>
      match lock self with
      | None => Some (goto (Load status_code) t, with_lock (Some tid) self)
      | Some _ => None
      end
  | Load status_code =>
      let tmp :=
        match t_kind t with
        | Normal => if status_code =? 200
                    then normal_user_success (results self)
                    else normal_user_fail (results self)
        | Bot => bot_requests_sent (results self)
        end in
      Some (goto (Store status_code tmp) t, self)
  | Store status_code tmp =>
      match t_kind t with
      | Normal =>
          Some (goto Release t,
                with_results
                  (if status_code =? 200
                   then set_normal_user_success (tmp + 1)
                   else set_normal_user_fail (tmp + 1)) self)
      | Bot =>
          Some (goto (TestBlocked status_code) t,
                with_results (set_bot_requests_sent (tmp + 1)) self)
      end
  | TestBlocked status_code =>
      Some (goto (if is_blocked status_code then LoadBlocked else Release) t,
            self)
  | LoadBlocked =>
      Some (goto (StoreBlocked (bot_requests_blocked (results self))) t, self)
  | StoreBlocked tmp =>
      Some (goto Release t,
            with_results (set_bot_requests_blocked (tmp + 1)) self)
  | Release =>
      Some (next_iteration t, with_lock None self)
  end.

(** The interpreter runs thread [tid] for one program point. *)
Definition step (cfg : Config) (tid : nat) (r : Q) (w : World) : option World :=
  t ← threads w !! tid;
  '(t', self') ← thread_step cfg tid r (shared w) t;
  Some {| shared := self'; threads := <[tid := t']> (threads w) |}.

(** A schedule: which thread runs next, and the draw it is handed. *)
Fixpoint run (cfg : Config) (sched : list (nat * Q)) (w : World) : option World :=
  match sched with
  | [] => Some w
  | (tid, r) :: sched' => w' ← step cfg tid r w; run cfg sched' w'
  end.

(** The worlds a schedule passes through, the first one included. *)
Fixpoint trace (cfg : Config) (sched : list (nat * Q)) (w : World) : list World :=
  w :: match sched with
       | [] => []
       | (tid, r) :: sched' =>
           match step cfg tid r w with
           | Some w' => trace cfg sched' w'
           | None => []
           end
       end.

(** The threads of [run_simulation]: the normal users, then the bots. *)
Definition spawn (cfg : Config) (self : DDoSSimulation) : World :=
  {| shared := self;
     threads :=
       replicate (NORMAL_USERS cfg)
                 {| t_kind := Normal; t_iter := 0; t_pc := LoopHead |}
       ++ replicate (ATTACK_BOTS cfg)
                    {| t_kind := Bot; t_iter := 0; t_pc := LoopHead |} |}.

(** The thread has left its loop: [thread.join()] returns. *)
Definition finished (cfg : Config) (t : Thread) : bool :=
  match t_pc t with
  | LoopHead => (budget cfg (t_kind t) <=? t_iter t)%nat
  | _ => false
  end.

Definition joined (cfg : Config) (w : World) : bool :=
  forallb (finished cfg) (threads w).

(** *** The report *)

Inductive Verdict : Set := PASS | FAIL.

Record Report : Set := {
  total_normal : Z;
  normal_success_rate : Q;
  bot_block_rate : Q;
  normal_user_access : Verdict;
  bot_blocking : Verdict;
  overall : bool;
  duration : Q
}.

(** [x / total * 100 if total > 0 else 0] *)
Definition rate (x total : Z) : result Q :=
  if 0 <? total
  then q ← truediv (of_int x) (of_int total); mret (q * 100)%Q
  else mret 0%Q.

(** [generate_report(self)]: the figures and the verdicts it prints. *)
Definition generate_report (self : DDoSSimulation) : result Report :=
  let res := results self in
  let total := normal_user_success res + normal_user_fail res in
  success_rate ← rate (normal_user_success res) total;
  block_rate ← rate (bot_requests_blocked res) (bot_requests_sent res);
  let access := if Qgeb success_rate 95 then PASS else FAIL in
  let blocking := if Qgeb block_rate 80 then PASS else FAIL in
  let resilient := Qgeb success_rate 95 && Qgeb block_rate 80 in
  d ← match end_time res, start_time res with
      | Some e, Some s => Ok (e - s)%Q
      | _, _ => Err TypeError
      end;
  mret {| total_normal := total;
          normal_success_rate := success_rate;
          bot_block_rate := block_rate;
          normal_user_access := access;
          bot_blocking := blocking;
          overall := resilient;
          duration := d |}.

(** [run_simulation(self)] under the schedule [sched]; [None] when [sched]
    is not an execution that lets every [join] return. *)
Definition run_simulation (cfg : Config) (t0 t1 : Q) (sched : list (nat * Q))
    (self : DDoSSimulation) : option (DDoSSimulation * result Report) :=
  let self0 := with_results (set_start_time t0) self in
  w ← run cfg sched (spawn cfg self0);
  if joined cfg w
  then let self1 := with_results (set_end_time t1) (shared w) in
       Some (self1, generate_report self1)
  else None.

End DDoS.

(** ** chaos_test_server_failure_demo.py *)

Module Attrition.

Definition SERVERS : list string :=
  [ "tawakkalna-riyadh-1.sa";
    "tawakkalna-riyadh-2.sa";
    "tawakkalna-jeddah-1.sa";
    "tawakkalna-jeddah-2.sa";
    "tawakkalna-dammam-1.sa" ]%string.

Definition NUM_HEALTH_CHECKS : nat := 10.

(** An entry of [server_failures]: [{"time": ..., "server": ...}]. *)
Record Failure : Set := {
  time : Z;
  server : string
}.

(** The [results] dictionary of [ChaosTest]; [test_duration] is absent until
    [run_test] stores it. *)
Record Results : Set := {
  total_requests : Z;
  successful_requests : Z;
  failed_requests : Z;
  response_times : list Q;
  server_failures : list Failure;
  test_duration : option Q
}.

Record ChaosTest : Set := {
  results : Results;
  active_servers : list string
}.

(** [ChaosTest.__init__] *)
Definition init : ChaosTest :=
  {| results := {| total_requests := 0; successful_requests := 0;
                   failed_requests := 0; response_times := [];
                   server_failures := []; test_duration := None |};
     active_servers := SERVERS |}.

(** [kill_random_server(self)]: [k] feeds [random.choice], [now] is
    [datetime.now()]. *)
Definition kill_random_server (k : nat) (now : Z) (self : ChaosTest)
  : result (option string * ChaosTest) :=
  if 1 <? len (active_servers self) then
    chosen ← choice k (active_servers self);
    remaining ← list_remove chosen (active_servers self);
    let res := results self in
    mret (Some chosen,
          {| results :=
               {| total_requests := total_requests res;
                  successful_requests := successful_requests res;
                  failed_requests := failed_requests res;
                  response_times := response_times res;
                  server_failures :=
                    server_failures res
                    ++ [ {| time := now; server := chosen |} ];
                  test_duration := test_duration res |};
             active_servers := remaining |})
  else
    mret (None, self).

(** [success_probability] of [mock_health_check], as a function of
    [len(self.active_servers)]. *)
Definition success_probability (n : Z) : Q :=
  (0.95 + of_int (n - 1) * 0.01)%Q.

(** [response_time] of [mock_health_check] before the jitter is added. *)
Definition base_response_time (n : Z) : result Q :=
  load_factor ← truediv 5 (of_int n);
  mret (100 * load_factor)%Q.

(** [mock_health_check(self)]: [jitter] is the draw behind
    [random.uniform(0, 50)], [u] the later [random.random()]. *)
Definition mock_health_check (jitter u : Q) (self : ChaosTest)
  : result (bool * Q) :=
  let n := len (active_servers self) in
  base ← base_response_time n;
  let response_time := (base + uniform 0 50 jitter)%Q in
  mret (Qltb u (success_probability n), response_time).

(** [check_system_health(self)] *)
Definition check_system_health (jitter u : Q) (self : ChaosTest)
  : result (bool * ChaosTest) :=
  let res := results self in
  let self1 :=
    {| results :=
         {| total_requests := total_requests res + 1;
            successful_requests := successful_requests res;
            failed_requests := failed_requests res;
            response_times := response_times res;
            server_failures := server_failures res;
            test_duration := test_duration res |};
       active_servers := active_servers self |} in
  '(success, response_time) ← mock_health_check jitter u self1;
  let res1 := results self1 in
  if success : bool then
    mret (true,
          {| results :=
               {| total_requests := total_requests res1;
                  successful_requests := successful_requests res1 + 1;
                  failed_requests := failed_requests res1;
                  response_times := response_times res1 ++ [response_time];
                  server_failures := server_failures res1;
                  test_duration := test_duration res1 |};
             active_servers := active_servers self1 |})
  else
    mret (false,
          {| results :=
               {| total_requests := total_requests res1;
                  successful_requests := successful_requests res1;
                  failed_requests := failed_requests res1 + 1;
                  response_times := response_times res1;
                  server_failures := server_failures res1;
                  test_duration := test_duration res1 |};
             active_servers := active_servers self1 |}).

(** *** The report *)

Inductive Verdict : Set := PASS | ACCEPTABLE | FAIL.

Record Report : Set := {
  success_rate : Q;
  failure_rate : Q;
  avg_response_time : Q;
  servers_killed : Z;
  servers_still_active : Z;
  success_rate_verdict : Verdict;
  response_time_verdict : Verdict;
  overall : bool;
  duration : Q
}.

(** [sum(times) / len(times) if times else 0] *)
Definition average (times : list Q) : result Q :=
  match times with
  | [] => mret 0%Q
  | _ :: _ => truediv (sum times) (of_int (len times))
  end.

(** [generate_report(self)]: the figures and the verdicts it prints. *)
Definition generate_report (self : ChaosTest) : result Report :=
  let res := results self in
  let total := total_requests res in
  let success := successful_requests res in
  rate ← (if 0 <? total
          then q ← truediv (of_int success) (of_int total); mret (q * 100)%Q
          else mret 0%Q);
  avg ← average (response_times res);
  let v_rate :=
    if Qgeb rate 99.9 then PASS
    else if Qgeb rate 95 then ACCEPTABLE
    else FAIL in
  let v_time := if Qltb avg 3000 then PASS else FAIL in
  let resilient := Qgeb rate 95 && Qltb avg 3000 in
  d ← match test_duration res with
      | Some d => Ok d
      | None => Err KeyError
      end;
  mret {| success_rate := rate;
          failure_rate := (100 - rate)%Q;
          avg_response_time := avg;
          servers_killed := len (server_failures res);
          servers_still_active := len (active_servers self);
          success_rate_verdict := v_rate;
          response_time_verdict := v_time;
          overall := resilient;
          duration := d |}.

(** What one pass of the loop of [run_test] draws. *)
Record Round : Set := {
  kill_draw : Q;
  choice_draw : nat;
  kill_time : Z;
  jitter_draw : Q;
  health_draw : Q
}.

(** The body of [for i in range(NUM_HEALTH_CHECKS)]. *)
Definition chaos_round (rd : Round) (self : ChaosTest) : result ChaosTest :=
  self1 ← (if Qltb (kill_draw rd) 0.4
           then '(_, s) ← kill_random_server (choice_draw rd) (kill_time rd) self;
                mret s
           else mret self);
  '(_, self2) ← check_system_health (jitter_draw rd) (health_draw rd) self1;
  mret self2.

Fixpoint chaos_rounds (rds : list Round) (self : ChaosTest) : result ChaosTest :=
  match rds with
  | [] => mret self
  | rd :: rds' => self' ← chaos_round rd self; chaos_rounds rds' self'
  end.

(** [run_test(self)]: [t0] and [t1] are the two readings of [time.time()],
    [jitter0] and [u0] the draws of the initial health check, [rounds i]
    those of pass [i] of the loop. *)
Definition run_test (t0 t1 jitter0 u0 : Q) (rounds : nat -> Round)
    (self : ChaosTest) : result (ChaosTest * Report) :=
  '(_, self1) ← check_system_health jitter0 u0 self;
  self2 ← chaos_rounds (map rounds (seq 0 NUM_HEALTH_CHECKS)) self1;
  let res := results self2 in
  let self3 :=
    {| results :=
         {| total_requests := total_requests res;
            successful_requests := successful_requests res;
            failed_requests := failed_requests res;
            response_times := response_times res;
            server_failures := server_failures res;
            test_duration := Some (t1 - t0)%Q |};
       active_servers := active_servers self2 |} in
  report ← generate_report self3;
  mret (self3, report).

End Attrition.

(** ** Vocabulary of the properties *)

Module DDoSSpec.

Import DDoS.

(** The sum of [f] over the thread table. *)
Definition tally (f : Thread -> Z) (ts : list Thread) : Z :=
  foldr (fun t acc => f t + acc) 0 ts.

Definition same_kind (a b : Kind) : bool :=
  match a, b with
  | Normal, Normal | Bot, Bot => true
  | _, _ => false
  end.

(** 1 once the first counter of the current request has been written
    ([normal_user_success] / [normal_user_fail], or [bot_requests_sent]). *)
Definition stored (p : PC) : Z :=
  match p with
  | TestBlocked _ | LoadBlocked | StoreBlocked _ | Release => 1
  | _ => 0
  end.

(** Requests of kind [k] that thread [t] has still to record. *)
Definition owed (cfg : Config) (k : Kind) (t : Thread) : Z :=
  if same_kind (t_kind t) k
  then Z.of_nat (budget cfg k) - Z.of_nat (t_iter t) - stored (t_pc t)
  else 0.

(** Program points inside [with self.lock:]. *)
Definition holds_lock (p : PC) : bool :=
  match p with
  | Load _ | Store _ _ | TestBlocked _ | LoadBlocked | StoreBlocked _
  | Release => true
  | _ => false
  end.

(** Program points only [simulate_attack_bot] has. *)
Definition bot_only (p : PC) : bool :=
  match p with
  | TestBlocked _ | LoadBlocked | StoreBlocked _ => true
  | _ => false
  end.

(** The value a thread read into [tmp] is still the value of the counter. *)
Definition tmp_fresh (self : DDoSSimulation) (t : Thread) : Prop :=
  match t_pc t with
  | Store status_code tmp =>
      tmp = match t_kind t with
            | Normal => if status_code =? 200
                        then normal_user_success (results self)
                        else normal_user_fail (results self)
            | Bot => bot_requests_sent (results self)
            end
  | StoreBlocked tmp => tmp = bot_requests_blocked (results self)
  | _ => True
  end.

Definition thread_ok (cfg : Config) (self : DDoSSimulation) (tid : nat)
    (t : Thread) : Prop :=
  (if finished cfg t then t_iter t = budget cfg (t_kind t)
   else (t_iter t < budget cfg (t_kind t))%nat)
  /\ (holds_lock (t_pc t) = true -> lock self = Some tid)
  /\ (bot_only (t_pc t) = true -> t_kind t = Bot)
  /\ tmp_fresh self t.

(** The invariant of the simulation: the counters account for every recorded
    request, and the lock has exactly the owner it names. *)
Record inv (cfg : Config) (w : World) : Prop := {
  inv_normal :
    normal_user_success (results (shared w))
    + normal_user_fail (results (shared w))
    + tally (owed cfg Normal) (threads w)
    = Z.of_nat (NORMAL_USERS cfg) * Z.of_nat (REQUESTS_PER_USER cfg);
  inv_bot :
    bot_requests_sent (results (shared w)) + tally (owed cfg Bot) (threads w)
    = Z.of_nat (ATTACK_BOTS cfg) * Z.of_nat (REQUESTS_PER_BOT cfg);
  inv_threads :
    forall tid t, threads w !! tid = Some t ->
                  thread_ok cfg (shared w) tid t;
  inv_owner :
    forall tid, lock (shared w) = Some tid ->
                exists t, threads w !! tid = Some t
                          /\ holds_lock (t_pc t) = true
}.

(** Position of a program point within one request. *)
Definition rank (p : PC) : nat :=
  match p with
  | LoopHead => 0
  | Compare _ => 1
  | Branch => 2
  | Draw _ => 3
  | Acquire _ => 4
  | Load _ => 5
  | Store _ _ => 6
  | TestBlocked _ => 7
  | LoadBlocked => 8
  | StoreBlocked _ => 9
  | Release => 10
  end.

(** A bound on the program points a thread has still to execute. *)
Definition fuel (cfg : Config) (t : Thread) : nat :=
  (budget cfg (t_kind t) - t_iter t) * 11 - rank (t_pc t).

Definition measure (cfg : Config) (w : World) : nat :=
  foldr (fun t acc => fuel cfg t + acc)%nat 0%nat (threads w).

(** Thread [tid] alone, for [n] program points in a row. *)
Fixpoint solo (cfg : Config) (tid : nat) (r : Q) (n : nat)
    (self : DDoSSimulation) (t : Thread) : option (Thread * DDoSSimulation) :=
  match n with
  | O => Some (t, self)
  | S n' =>
      '(t', self') ← thread_step cfg tid r self t; solo cfg tid r n' self' t'
  end.

(** The scheduler that always runs the first thread able to run. *)
Fixpoint first_enabled (cfg : Config) (r : Q) (w : World) (tids : list nat)
  : option (nat * World) :=
  match tids with
  | [] => None
  | tid :: tids' =>
      match step cfg tid r w with
      | Some w' => Some (tid, w')
      | None => first_enabled cfg r w tids'
      end
  end.

Fixpoint greedy (cfg : Config) (r : Q) (n : nat) (w : World) : list (nat * Q) :=
  match n with
  | O => []
  | S n' =>
      match first_enabled cfg r w (seq 0 (length (threads w))) with
      | Some (tid, w') => (tid, r) :: greedy cfg r n' w'
      | None => []
      end
  end.

(** The scheduler that hands the processor round: the first thread able to
    run, looking from position [k] on. *)
Fixpoint round_robin (cfg : Config) (r : Q) (n k : nat) (w : World)
  : list (nat * Q) :=
  match n with
  | O => []
  | S n' =>
      match first_enabled cfg r w (rotate k (seq 0 (length (threads w)))) with
      | Some (tid, w') => (tid, r) :: round_robin cfg r n' (S tid) w'
      | None => []
      end
  end.

(** The demo under the round-robin scheduler, every draw being one half. *)
Definition demo_schedule : list (nat * Q) :=
  round_robin demo (1 # 2) (measure demo (spawn demo init)) 0
              (spawn demo init).

(** How often a sequence of flag values goes from [false] to [true], and
    from [true] to [false]. *)
Fixpoint rises (l : list bool) : nat :=
  match l with
  | a :: (b :: _) as l' => ((if negb a && b then 1 else 0) + rises l')%nat
  | _ => 0%nat
  end.

Fixpoint falls (l : list bool) : nat :=
  match l with
  | a :: (b :: _) as l' => ((if a && negb b then 1 else 0) + falls l')%nat
  | _ => 0%nat
  end.

Definition flag (w : World) : bool := ddos_protection_active (shared w).

(** A criterion is met. *)
Definition passed (v : Verdict) : bool :=
  match v with PASS => true | FAIL => false end.

(** A simulation object whose counter of bot requests reads [n]. *)
Definition with_sent (n : Z) : DDoSSimulation :=
  with_results (set_bot_requests_sent n) init.

(** A simulation object holding the given tallies, as [generate_report]
    finds it after a run. *)
Definition tallied (ok ko sent blocked : Z) : DDoSSimulation :=
  {| results := {| normal_user_success := ok; normal_user_fail := ko;
                   bot_requests_sent := sent; bot_requests_blocked := blocked;
                   start_time := Some 0%Q; end_time := Some 1%Q |};
     lock := None;
     ddos_protection_active := false |}.

End DDoSSpec.

Module AttritionSpec.

Import Attrition.

(** The states a [ChaosTest] object can be in: those [__init__] builds and
    those its methods lead to, whatever the generator draws. *)
Inductive reachable : ChaosTest -> Prop :=
| reach_init : reachable init
| reach_kill k now self o self' :
    reachable self ->
    kill_random_server k now self = Ok (o, self') ->
    reachable self'
| reach_check jitter u self b self' :
    reachable self ->
    check_system_health jitter u self = Ok (b, self') ->
    reachable self'.

(** [liveCount()]: the number of live servers. *)
Definition live_count (self : ChaosTest) : Z := len (active_servers self).

(** The servers recorded as killed, oldest first. *)
Definition killed (self : ChaosTest) : list string :=
  map server (server_failures (results self)).

(** What holds of every reachable state: at least one live server, no
    server both live and killed or listed twice, the configured servers all
    accounted for, and one latency sample per successful request. *)
Record consistent (self : ChaosTest) : Prop := {
  cons_live : 1 <= live_count self;
  cons_nodup : NoDup (active_servers self ++ killed self);
  cons_servers : active_servers self ++ killed self ≡ₚ SERVERS;
  cons_samples :
    len (response_times (results self)) = successful_requests (results self);
  cons_total :
    total_requests (results self)
    = successful_requests (results self) + failed_requests (results self)
}.

(** [kill()] applied once per element of [draws]; an exception stops the
    sequence. *)
Fixpoint kills (draws : list (nat * Z)) (self : ChaosTest) : result ChaosTest :=
  match draws with
  | [] => mret self
  | (k, now) :: draws' =>
      '(_, self') ← kill_random_server k now self; kills draws' self'
  end.

(** [random.choice(l)] is [x] when [randbelow] returns [k]. *)
Definition picks {A : Type} `{EqDecision A} (x : A) (l : list A) (k : nat)
  : bool :=
  match choice k l with
  | Ok y => bool_decide (y = x)
  | Err _ => false
  end.

(** The pool after four kills: one server is left. *)
Definition last_survivor : ChaosTest :=
  match kills [(0%nat, 1); (1%nat, 2); (2%nat, 3); (3%nat, 4)] init with
  | Ok self => self
  | Err _ => init
  end.

(** Among the [length l] equally likely values of [randbelow], the number
    of those for which [random.choice(l)] is [x]. *)
Definition chances {A : Type} `{EqDecision A} (x : A) (l : list A) : nat :=
  length (List.filter (picks x l) (seq 0 (length l))).

(** [p] clamped to the interval [[0, 1]]. *)
Definition clamp01 (p : Q) : Q := Qmax 0 (Qmin 1 p).

(** A criterion is met: the report does not print FAIL for it. *)
Definition passed (v : Verdict) : bool :=
  match v with FAIL => false | _ => true end.

(** A test object holding the given tallies, as [generate_report] finds it
    after a run. *)
Definition tallied (total ok ko : Z) (times : list Q) : ChaosTest :=
  {| results := {| total_requests := total; successful_requests := ok;
                   failed_requests := ko; response_times := times;
                   server_failures := []; test_duration := Some 3%Q |};
     active_servers := SERVERS |}.

End AttritionSpec.

(** ** Vocabulary of the further properties *)

Module DDoSMore.

Import DDoS DDoSSpec.

(** The world in which [run_simulation] starts its threads, [t0] being the
    reading of [time.time()] stored as [start_time]. *)
Definition launched (cfg : Config) (t0 : Q) : World :=
  spawn cfg (with_results (set_start_time t0) init).

(** The worlds a run of the simulation passes through. *)
Definition reachable (cfg : Config) (w : World) : Prop :=
  exists t0 sched, run cfg sched (launched cfg t0) = Some w.

(** 1 while a bot has written [bot_requests_sent] for its current request
    and may still write [bot_requests_blocked]. *)
Definition pending_block (t : Thread) : Z :=
  match t_pc t with
  | TestBlocked _ | LoadBlocked | StoreBlocked _ => 1
  | _ => 0
  end.

(** The counters are tallies: none is negative, and no more bot requests
    are blocked than were sent. *)
Record counted (w : World) : Prop := {
  counted_success : 0 <= normal_user_success (results (shared w));
  counted_fail : 0 <= normal_user_fail (results (shared w));
  counted_blocked : 0 <= bot_requests_blocked (results (shared w));
  counted_sent :
    bot_requests_blocked (results (shared w))
    + tally pending_block (threads w)
    <= bot_requests_sent (results (shared w))
}.

(** Protection has a cause: the flag is set, or a thread has seen it set,
    only once more than five bot requests are recorded; and no thread holds
    a counter value larger than the counter. *)
Record causal (w : World) : Prop := {
  causal_flag :
    ddos_protection_active (shared w) = true ->
    5 < bot_requests_sent (results (shared w));
  causal_read :
    forall tid t c, threads w !! tid = Some t -> t_pc t = Compare c ->
                    c <= bot_requests_sent (results (shared w));
  causal_seen :
    forall tid t, threads w !! tid = Some t -> t_pc t = Draw true ->
                  5 < bot_requests_sent (results (shared w))
}.

(** The demo once thread 0 has run six program points: it is inside
    [with self.lock:], about to write its counter. *)
Definition holding : World :=
  match run demo (replicate 6 (0%nat, 1 # 2)) (launched demo 0) with
  | Some w => w
  | None => launched demo 0
  end.

(** [simulate_attack_bot] run alone: one request per draw. *)
Definition bot_requests (draws : list Q) (self : DDoSSimulation)
  : DDoSSimulation :=
  fold_left (fun s r => bot_request r s) draws self.

(** [simulate_normal_user] run alone: one request per draw. *)
Definition normal_requests (draws : list Q) (self : DDoSSimulation)
  : DDoSSimulation :=
  fold_left (fun s r => normal_request r s) draws self.

End DDoSMore.

Module AttritionMore.

Import Attrition AttritionSpec.

(** A value [random.random()] can return. *)
Definition unit_draw (u : Q) : Prop := (0 <= u)%Q /\ (u < 1)%Q.

(** The states reached when the generator behaves: as [reachable], every
    draw of [random.random()] lying in [[0, 1)]. *)
Inductive observed : ChaosTest -> Prop :=
| obs_init : observed init
| obs_kill k now self o self' :
    observed self ->
    kill_random_server k now self = Ok (o, self') ->
    observed self'
| obs_check jitter u self b self' :
    observed self ->
    unit_draw jitter -> unit_draw u ->
    check_system_health jitter u self = Ok (b, self') ->
    observed self'.

(** The latencies the mock can report with one to five live servers. *)
Definition in_band (t : Q) : Prop := (100 <= t)%Q /\ (t < 550)%Q.

(** The draws of [run_test] are values of [random.random()]. *)
Definition unit_rounds (rounds : nat -> Round) : Prop :=
  forall i, unit_draw (kill_draw (rounds i))
            /\ unit_draw (jitter_draw (rounds i))
            /\ unit_draw (health_draw (rounds i)).

(** Rounds in which every health check succeeds and no server is killed. *)
Definition calm_round (i : nat) : Round :=
  {| kill_draw := 1 # 2; choice_draw := i; kill_time := Z.of_nat i;
     jitter_draw := 1 # 3; health_draw := 1 # 4 |}.

(** Rounds in which a server is killed whenever one can be, and the health
    check fails once two servers are left. *)
Definition rough_round (i : nat) : Round :=
  {| kill_draw := 1 # 10; choice_draw := i; kill_time := Z.of_nat i;
     jitter_draw := 1 # 3; health_draw := 97 # 100 |}.

End AttritionMore.

(** ** Facts about the Python primitives *)

Module PyFacts.

Lemma Qltb_lt (a b : Q) : Qltb a b = true <-> (a < b)%Q.
Proof.
  unfold Qltb. rewrite negb_true_iff. split.
  - intros H. apply Qnot_le_lt. intros Hle.
    apply Qle_bool_iff in Hle. congruence.
  - intros H. destruct (Qle_bool b a) eqn:E; [|reflexivity].
    apply Qle_bool_iff in E. apply Qlt_not_le in H. contradiction.
Qed.

Lemma Qltb_ge (a b : Q) : Qltb a b = false <-> (b <= a)%Q.
Proof.
  unfold Qltb. rewrite negb_false_iff. apply Qle_bool_iff.
Qed.

Lemma Qgeb_le (a b : Q) : Qgeb a b = true <-> (b <= a)%Q.
Proof. apply Qle_bool_iff. Qed.

Lemma Qgeb_lt (a b : Q) : Qgeb a b = false <-> (a < b)%Q.
Proof.
  unfold Qgeb. split.
  - intros H. apply Qnot_le_lt. intros Hle.
    apply Qle_bool_iff in Hle. congruence.
  - intros H. destruct (Qle_bool b a) eqn:E; [|reflexivity].
    apply Qle_bool_iff in E. apply Qlt_not_le in H. contradiction.
Qed.

Lemma truediv_ok (a b : Q) : ~ (b == 0)%Q -> truediv a b = Ok (a / b)%Q.
Proof.
  intros H. unfold truediv. destruct (Qeq_bool b 0) eqn:E; [|reflexivity].
  apply Qeq_bool_iff in E. contradiction.
Qed.

Lemma of_int_nonzero (n : Z) : n <> 0 -> ~ (of_int n == 0)%Q.
Proof.
  intros H E. unfold of_int, inject_Z, Qeq in E. simpl in E. lia.
Qed.

End PyFacts.

(** ** Facts about the DDoS demo *)

Module DDoSFacts.
Import DDoS DDoSSpec PyFacts.

Lemma detect_sent self :
  bot_requests_sent (results (detect self)) = bot_requests_sent (results self).
Proof. unfold detect. destruct (5 <? _); reflexivity. Qed.

Lemma detect_results self : results (detect self) = results self.
Proof. unfold detect. destruct (5 <? _); reflexivity. Qed.

Lemma detect_active self :
  ddos_protection_active (detect self)
  = ddos_protection_active self || (5 <? bot_requests_sent (results self)).
Proof.
  unfold detect. destruct (5 <? _); simpl.
  - now rewrite orb_true_r.
  - now rewrite orb_false_r.
Qed.

Lemma record_normal_active c self :
  ddos_protection_active (record_normal c self) = ddos_protection_active self.
Proof. unfold record_normal. destruct (c =? 200); reflexivity. Qed.

Lemma record_bot_active c self :
  ddos_protection_active (record_bot c self) = ddos_protection_active self.
Proof. unfold record_bot. destruct (is_blocked c); reflexivity. Qed.

Lemma record_bot_sent c self :
  bot_requests_sent (results (record_bot c self))
  = bot_requests_sent (results self) + 1.
Proof. unfold record_bot. destruct (is_blocked c); reflexivity. Qed.

Lemma rate_defined x total :
  exists q, rate x total = Ok q /\ (total <= 0 -> q = 0%Q).
Proof.
  unfold rate. destruct (0 <? total) eqn:E.
  - apply Z.ltb_lt in E. rewrite truediv_ok by (apply of_int_nonzero; lia).
    eexists; split; [reflexivity | lia].
  - eexists; split; [reflexivity | reflexivity].
Qed.

Lemma ddos_report_inv self rep :
  generate_report self = Ok rep ->
  exists sr br,
    rate (normal_user_success (results self))
         (normal_user_success (results self) + normal_user_fail (results self))
    = Ok sr
    /\ rate (bot_requests_blocked (results self))
            (bot_requests_sent (results self)) = Ok br
    /\ normal_success_rate rep = sr
    /\ bot_block_rate rep = br
    /\ normal_user_access rep = (if Qgeb sr 95 then PASS else FAIL)
    /\ bot_blocking rep = (if Qgeb br 80 then PASS else FAIL)
    /\ overall rep = Qgeb sr 95 && Qgeb br 80.
Proof.
  unfold generate_report.
  destruct (rate_defined (normal_user_success (results self))
              (normal_user_success (results self)
               + normal_user_fail (results self))) as (sr & -> & _).
  destruct (rate_defined (bot_requests_blocked (results self))
              (bot_requests_sent (results self))) as (br & -> & _).
  cbn. destruct (end_time (results self)), (start_time (results self)); cbn;
    try discriminate.
  intros [= <-]. exists sr, br. cbn. repeat split; reflexivity.
Qed.

Lemma ddos_report_total self :
  is_Some (start_time (results self)) -> is_Some (end_time (results self)) ->
  exists rep, generate_report self = Ok rep.
Proof.
  intros [s Hs] [e He]. unfold generate_report.
  destruct (rate_defined (normal_user_success (results self))
              (normal_user_success (results self)
               + normal_user_fail (results self))) as (sr & -> & _).
  destruct (rate_defined (bot_requests_blocked (results self))
              (bot_requests_sent (results self))) as (br & -> & _).
  cbn. rewrite Hs, He. cbn. eexists; reflexivity.
Qed.

Lemma ddos_report_no_zero_division self :
  generate_report self <> Err ZeroDivisionError.
Proof.
  unfold generate_report.
  destruct (rate_defined (normal_user_success (results self))
              (normal_user_success (results self)
               + normal_user_fail (results self))) as (sr & -> & _).
  destruct (rate_defined (bot_requests_blocked (results self))
              (bot_requests_sent (results self))) as (br & -> & _).
  cbn. destruct (end_time (results self)), (start_time (results self)); cbn;
    discriminate.
Qed.

(** *** One program point of one thread *)

#[local] Arguments Nat.ltb : simpl never.
#[local] Arguments Nat.leb : simpl never.
#[local] Arguments Z.eqb : simpl never.
#[local] Arguments Z.ltb : simpl never.
#[local] Arguments Z.add : simpl never.
#[local] Arguments Z.sub : simpl never.
#[local] Arguments Z.of_nat : simpl never.
#[local] Arguments Nat.mul : simpl never.
#[local] Arguments Nat.sub : simpl never.
#[local] Arguments respond : simpl never.

Ltac thread_cases t :=
  let k := fresh "k" in let n := fresh "n" in let p := fresh "p" in
  destruct t as [k n p]; destruct p; destruct k.

Ltac step_inv H :=
  cbn in H;
  repeat match type of H with
         | context [if ?b then _ else _] => destruct b eqn:?
         | context [match lock ?s with _ => _ end] => destruct (lock s) eqn:?
         end; try discriminate H;
  injection H as <- <-.

Ltac arith :=
  repeat match goal with
         | H : (_ <? _)%nat = true |- _ => apply Nat.ltb_lt in H
         | H : (_ <? _)%nat = false |- _ => apply Nat.ltb_ge in H
         | H : (_ <=? _)%nat = true |- _ => apply Nat.leb_le in H
         | H : (_ <=? _)%nat = false |- _ => apply Nat.leb_gt in H
         | H : (_ =? _) = true |- _ => apply Z.eqb_eq in H
         | H : (_ =? _) = false |- _ => apply Z.eqb_neq in H
         | H : (_ <? _) = true |- _ => apply Z.ltb_lt in H
         | H : (_ <? _) = false |- _ => apply Z.ltb_ge in H
         end;
  try lia.

Lemma thread_step_ok cfg tid r self t t' self' :
  thread_ok cfg self tid t ->
  thread_step cfg tid r self t = Some (t', self') ->
  thread_ok cfg self' tid t'.
Proof.
  intros (Hi & Hl & Hb & Hf) H. unfold thread_step in H.
  thread_cases t; cbn in Hi, Hl, Hb, Hf;
    try (specialize (Hb eq_refl); discriminate Hb);
    step_inv H; unfold thread_ok, finished, tmp_fresh; cbn;
    repeat split; try (intros; congruence); try tauto;
    repeat case_match; arith.
Qed.

(** What a program point may change in the shared object: nothing but the
    flag, unless the lock is free or the thread owns it. *)
Lemma thread_step_footprint cfg tid r self t t' self' :
  thread_ok cfg self tid t ->
  thread_step cfg tid r self t = Some (t', self') ->
  (lock self' = lock self /\ results self' = results self)
  \/ lock self = None \/ lock self = Some tid.
Proof.
  intros (Hi & Hl & Hb & Hf) H. unfold thread_step in H.
  thread_cases t; cbn in Hl;
    step_inv H; cbn; auto.
Qed.

Lemma thread_ok_frame cfg self self' tid t :
  thread_ok cfg self tid t ->
  (holds_lock (t_pc t) = true ->
   lock self' = lock self /\ results self' = results self) ->
  thread_ok cfg self' tid t.
Proof.
  intros (Hi & Hl & Hb & Hf) H. unfold thread_ok.
  repeat split; auto.
  - intros Hh. destruct (H Hh) as [-> _]. auto.
  - unfold tmp_fresh in *. destruct (t_pc t); auto;
      destruct (H eq_refl) as [_ ->]; exact Hf.
Qed.

(** The counters and the requests still owed move together. *)
Lemma thread_step_normal cfg tid r self t t' self' :
  thread_ok cfg self tid t ->
  thread_step cfg tid r self t = Some (t', self') ->
  normal_user_success (results self') + normal_user_fail (results self')
  + owed cfg Normal t'
  = normal_user_success (results self) + normal_user_fail (results self)
    + owed cfg Normal t.
Proof.
  intros (Hi & Hl & Hb & Hf) H. unfold thread_step in H.
  thread_cases t; cbn in Hb, Hf;
    try (specialize (Hb eq_refl); discriminate Hb);
    step_inv H; unfold owed; cbn; subst; arith.
Qed.

Lemma thread_step_bot cfg tid r self t t' self' :
  thread_ok cfg self tid t ->
  thread_step cfg tid r self t = Some (t', self') ->
  bot_requests_sent (results self') + owed cfg Bot t'
  = bot_requests_sent (results self) + owed cfg Bot t.
Proof.
  intros (Hi & Hl & Hb & Hf) H. unfold thread_step in H.
  thread_cases t; cbn in Hb, Hf;
    try (specialize (Hb eq_refl); discriminate Hb);
    step_inv H; unfold owed; cbn; subst; arith.
Qed.

Lemma thread_step_owner cfg tid r self t t' self' h :
  (lock self = Some tid -> holds_lock (t_pc t) = true) ->
  thread_step cfg tid r self t = Some (t', self') ->
  lock self' = Some h ->
  (h = tid /\ holds_lock (t_pc t') = true) \/ (h <> tid /\ lock self = Some h).
Proof.
  intros Ho H Hh. unfold thread_step in H.
  destruct (decide (h = tid)) as [->|Hne]; [left | right]; split; auto.
  - thread_cases t; step_inv H; cbn in *; auto; congruence.
  - thread_cases t; step_inv H; cbn in *; auto; congruence.
Qed.

Lemma thread_step_fuel cfg tid r self t t' self' :
  thread_ok cfg self tid t ->
  thread_step cfg tid r self t = Some (t', self') ->
  (fuel cfg t' < fuel cfg t)%nat.
Proof.
  intros (Hi & Hl & Hb & Hf) H. unfold thread_step in H.
  thread_cases t; cbn in Hi;
    step_inv H; unfold fuel; cbn in *; arith.
Qed.

Lemma thread_step_flag cfg tid r self t t' self' :
  thread_step cfg tid r self t = Some (t', self') ->
  ddos_protection_active self = true ->
  ddos_protection_active self' = true.
Proof.
  intros H Ha. unfold thread_step in H.
  thread_cases t; step_inv H; cbn; auto.
Qed.

Lemma thread_step_progress cfg tid r self t :
  finished cfg t = false ->
  lock self = None \/ (lock self = Some tid /\ holds_lock (t_pc t) = true) ->
  is_Some (thread_step cfg tid r self t).
Proof.
  intros Hf Hl. unfold thread_step, finished in *.
  thread_cases t; cbn in *; arith;
    repeat case_match; arith; try (eexists; reflexivity);
    destruct Hl as [Hl | [Hl Hh]]; congruence.
Qed.

(** *** The thread table *)

Lemma tally_insert f (ts : list Thread) i t t' :
  ts !! i = Some t ->
  tally f (<[i := t']> ts) = tally f ts - f t + f t'.
Proof.
  unfold tally. revert i.
  induction ts as [|a ts IH]; intros [|i] H; try discriminate.
  - injection H as ->. simpl. lia.
  - simpl in *. rewrite (IH i H). lia.
Qed.

Lemma tally_app f (l1 l2 : list Thread) :
  tally f (l1 ++ l2) = tally f l1 + tally f l2.
Proof.
  unfold tally. induction l1 as [|a l1 IH]; cbn; [lia | rewrite IH; lia].
Qed.

Lemma tally_replicate f n (t : Thread) :
  tally f (replicate n t) = Z.of_nat n * f t.
Proof.
  unfold tally. induction n as [|n IH]; cbn; [lia | rewrite IH; lia].
Qed.

Lemma tally_zero f (ts : list Thread) :
  Forall (fun t => f t = 0) ts -> tally f ts = 0.
Proof.
  unfold tally. induction 1 as [|t ts Ht _ IH]; cbn; [reflexivity | lia].
Qed.

Lemma fuel_insert cfg (ts : list Thread) i t t' :
  ts !! i = Some t ->
  (fuel cfg t' < fuel cfg t)%nat ->
  (foldr (fun t acc => fuel cfg t + acc) 0 (<[i := t']> ts)
   < foldr (fun t acc => fuel cfg t + acc) 0 ts)%nat.
Proof.
  revert i. induction ts as [|a ts IH]; intros [|i] H Hlt; try discriminate.
  - injection H as ->. simpl. lia.
  - simpl in *. specialize (IH i H Hlt). lia.
Qed.

(** *** The invariant *)

Lemma step_inv_world cfg tid r w w' :
  step cfg tid r w = Some w' ->
  exists t t' self',
    threads w !! tid = Some t
    /\ thread_step cfg tid r (shared w) t = Some (t', self')
    /\ w' = {| shared := self'; threads := <[tid := t']> (threads w) |}.
Proof.
  unfold step. destruct (threads w !! tid) as [t|] eqn:Ht; [|discriminate].
  cbn. destruct (thread_step cfg tid r (shared w) t) as [[t' self']|] eqn:Hs;
    [|discriminate].
  cbn. intros [= <-]. eauto 6.
Qed.

Lemma inv_spawn cfg self :
  normal_user_success (results self) = 0 ->
  normal_user_fail (results self) = 0 ->
  bot_requests_sent (results self) = 0 ->
  lock self = None ->
  inv cfg (spawn cfg self).
Proof.
  intros Hs Hf Hb Hl. split; unfold spawn; simpl.
  - rewrite Hs, Hf, tally_app, !tally_replicate. unfold owed; cbn. lia.
  - rewrite Hb, tally_app, !tally_replicate. unfold owed; cbn. lia.
  - intros tid t Ht.
    assert (Hin : t ∈ replicate (NORMAL_USERS cfg)
                       {| t_kind := Normal; t_iter := 0; t_pc := LoopHead |}
                     ++ replicate (ATTACK_BOTS cfg)
                       {| t_kind := Bot; t_iter := 0; t_pc := LoopHead |})
      by (eapply list_elem_of_lookup_2; exact Ht).
    apply elem_of_app in Hin.
    destruct Hin as [Hin | Hin]; apply elem_of_replicate in Hin as [-> _];
      unfold thread_ok, finished, tmp_fresh; cbn;
      (repeat split; try discriminate; auto);
      case_match; arith.
  - intros tid H. congruence.
Qed.

Lemma inv_step cfg tid r w w' :
  inv cfg w -> step cfg tid r w = Some w' -> inv cfg w'.
Proof.
  intros [Hn Hb Ht Ho] H.
  apply step_inv_world in H as (t & t' & self' & Hlk & Hs & ->).
  pose proof (Ht tid t Hlk) as Hok.
  split; simpl.
  - rewrite (tally_insert _ _ _ _ _ Hlk).
    pose proof (thread_step_normal _ _ _ _ _ _ _ Hok Hs). lia.
  - rewrite (tally_insert _ _ _ _ _ Hlk).
    pose proof (thread_step_bot _ _ _ _ _ _ _ Hok Hs). lia.
  - intros tid' t2 H2. destruct (decide (tid' = tid)) as [->|Hne].
    + rewrite list_lookup_insert_eq in H2
        by (eapply lookup_lt_Some; exact Hlk).
      injection H2 as <-. eapply thread_step_ok; eauto.
    + rewrite list_lookup_insert_ne in H2 by congruence.
      pose proof (Ht tid' t2 H2) as Hok2.
      apply (thread_ok_frame cfg (shared w)); [exact Hok2|].
      intros Hh. destruct Hok2 as (_ & Hl2 & _). specialize (Hl2 Hh).
      destruct (thread_step_footprint _ _ _ _ _ _ _ Hok Hs) as [?|[?|?]];
        [assumption | congruence | congruence].
  - intros h Hh.
    assert (Howner : lock (shared w) = Some tid -> holds_lock (t_pc t) = true).
    { intros Hl. destruct (Ho tid Hl) as (t0 & Ht0 & Hh0). congruence. }
    destruct (thread_step_owner _ _ _ _ _ _ _ _ Howner Hs Hh)
      as [[-> Hh'] | [Hne Hl]].
    + exists t'. split; [|exact Hh'].
      apply list_lookup_insert_eq. eapply lookup_lt_Some; exact Hlk.
    + destruct (Ho h Hl) as (t0 & Ht0 & Hh0). exists t0. split; [|exact Hh0].
      rewrite list_lookup_insert_ne by congruence. exact Ht0.
Qed.

Lemma inv_run cfg sched w w' :
  inv cfg w -> run cfg sched w = Some w' -> inv cfg w'.
Proof.
  revert w. induction sched as [|[tid r] sched IH]; intros w Hi H; cbn in H.
  - injection H as <-. exact Hi.
  - destruct (step cfg tid r w) as [w1|] eqn:Hs; [|discriminate].
    cbn in H. eapply IH; [|exact H]. eapply inv_step; eauto.
Qed.

(** Once every thread has been joined nothing is owed any more. *)
Lemma joined_owed cfg k w :
  inv cfg w -> joined cfg w = true -> tally (owed cfg k) (threads w) = 0.
Proof.
  intros [_ _ Ht _] Hj. apply tally_zero. apply Forall_lookup.
  intros tid t Hlk. unfold joined in Hj. rewrite forallb_forall in Hj.
  pose proof (Ht tid t Hlk) as (Hi & _).
  assert (Hfin : finished cfg t = true).
  { apply Hj. apply list_elem_of_In. eapply list_elem_of_lookup_2; eauto. }
  rewrite Hfin in Hi. unfold owed, finished in *.
  destruct t as [kd n p]; destruct p; try discriminate; cbn in *.
  destruct kd, k; cbn in *; lia.
Qed.

Lemma joined_totals cfg w :
  inv cfg w -> joined cfg w = true ->
  normal_user_success (results (shared w))
  + normal_user_fail (results (shared w))
  = Z.of_nat (NORMAL_USERS cfg) * Z.of_nat (REQUESTS_PER_USER cfg)
  /\ bot_requests_sent (results (shared w))
     = Z.of_nat (ATTACK_BOTS cfg) * Z.of_nat (REQUESTS_PER_BOT cfg).
Proof.
  intros Hi Hj. pose proof (joined_owed cfg Normal w Hi Hj) as Hn.
  pose proof (joined_owed cfg Bot w Hi Hj) as Hb.
  destruct Hi as [Hin Hib _ _]. lia.
Qed.

(** *** Every schedule ends, and ends with all threads joined *)

Lemma measure_step cfg tid r w w' :
  inv cfg w -> step cfg tid r w = Some w' ->
  (measure cfg w' < measure cfg w)%nat.
Proof.
  intros [_ _ Ht _] H.
  apply step_inv_world in H as (t & t' & self' & Hlk & Hs & ->).
  unfold measure; simpl. apply (fuel_insert cfg _ _ t t' Hlk).
  eapply thread_step_fuel; eauto.
Qed.

Lemma run_bounded cfg sched w w' :
  inv cfg w -> run cfg sched w = Some w' ->
  (length sched + measure cfg w' <= measure cfg w)%nat.
Proof.
  revert w. induction sched as [|[tid r] sched IH]; intros w Hi H; simpl in H.
  - injection H as <-. simpl. lia.
  - destruct (step cfg tid r w) as [w1|] eqn:Hs; [|discriminate].
    simpl in H. pose proof (measure_step _ _ _ _ _ Hi Hs).
    pose proof (IH w1 (inv_step _ _ _ _ _ Hi Hs) H). simpl. lia.
Qed.

Lemma holds_lock_unfinished cfg t :
  holds_lock (t_pc t) = true -> finished cfg t = false.
Proof. unfold finished. destruct (t_pc t); simpl; congruence. Qed.

Lemma step_enabled cfg tid r w t :
  threads w !! tid = Some t ->
  finished cfg t = false ->
  lock (shared w) = None
  \/ (lock (shared w) = Some tid /\ holds_lock (t_pc t) = true) ->
  is_Some (step cfg tid r w).
Proof.
  intros Hlk Hf Hl.
  destruct (thread_step_progress cfg tid r (shared w) t Hf Hl) as [[t' s'] Hs].
  unfold step. rewrite Hlk. simpl. rewrite Hs. simpl. eexists; reflexivity.
Qed.

(** While some thread is still in its loop, some thread can run: the owner
    of the lock if there is one, any unfinished thread otherwise. *)
Lemma progress cfg r w :
  inv cfg w -> joined cfg w = false ->
  exists tid, (tid < length (threads w))%nat /\ is_Some (step cfg tid r w).
Proof.
  intros [_ _ Ht Ho] Hj.
  destruct (lock (shared w)) as [h|] eqn:Hl.
  - destruct (Ho h eq_refl) as (t & Hlk & Hh). exists h. split.
    + eapply lookup_lt_Some; eauto.
    + eapply step_enabled; eauto using holds_lock_unfinished.
  - unfold joined in Hj.
    assert (Hex : exists t, In t (threads w) /\ finished cfg t = false).
    { clear -Hj. induction (threads w) as [|a l IH]; simpl in Hj;
        [discriminate|].
      destruct (finished cfg a) eqn:Ha.
      - destruct (IH Hj) as (t & Hin & Hf). exists t. split; [right|]; auto.
      - exists a. split; [left|]; auto. }
    destruct Hex as (t & Hin & Hf).
    apply list_elem_of_In, list_elem_of_lookup in Hin as [tid Hlk].
    exists tid. split.
    + eapply lookup_lt_Some; eauto.
    + eapply step_enabled; eauto.
Qed.

Lemma first_enabled_sound cfg r w tids tid w' :
  first_enabled cfg r w tids = Some (tid, w') -> step cfg tid r w = Some w'.
Proof.
  induction tids as [|a tids IH]; simpl; [discriminate|].
  destruct (step cfg a r w) as [w1|] eqn:Hs; auto.
  intros [= <- <-]. exact Hs.
Qed.

Lemma first_enabled_none cfg r w tids tid :
  first_enabled cfg r w tids = None -> In tid tids -> step cfg tid r w = None.
Proof.
  induction tids as [|a tids IH]; simpl; [tauto|].
  destruct (step cfg a r w) as [w1|] eqn:Hs; [discriminate|].
  intros H [->|Hin]; auto.
Qed.

Lemma greedy_joins cfg r n w :
  inv cfg w -> (measure cfg w <= n)%nat ->
  exists w', run cfg (greedy cfg r n w) w = Some w' /\ joined cfg w' = true.
Proof.
  revert w. induction n as [|n IH]; intros w Hi Hm.
  - simpl. exists w. split; [reflexivity|].
    destruct (joined cfg w) eqn:Hj; [reflexivity|].
    destruct (progress cfg r w Hi Hj) as (tid & _ & [w1 Hs]).
    pose proof (measure_step _ _ _ _ _ Hi Hs). lia.
  - simpl.
    destruct (first_enabled cfg r w (seq 0 (length (threads w))))
      as [[tid w1]|] eqn:Hfe.
    + apply first_enabled_sound in Hfe. simpl. rewrite Hfe. simpl.
      apply IH; [eapply inv_step; eauto|].
      pose proof (measure_step _ _ _ _ _ Hi Hfe). lia.
    + exists w. split; [reflexivity|].
      destruct (joined cfg w) eqn:Hj; [reflexivity|].
      destruct (progress cfg r w Hi Hj) as (tid & Hlt & [w1 Hs]).
      rewrite (first_enabled_none _ _ _ _ tid Hfe) in Hs; [discriminate|].
      apply in_seq. lia.
Qed.

(** *** The protection flag along a run *)

Lemma step_flag cfg tid r w w' :
  step cfg tid r w = Some w' -> flag w = true -> flag w' = true.
Proof.
  intros H. apply step_inv_world in H as (t & t' & self' & _ & Hs & ->).
  unfold flag; simpl. eapply thread_step_flag; eauto.
Qed.

Lemma run_flag cfg sched w w' :
  run cfg sched w = Some w' -> flag w = true -> flag w' = true.
Proof.
  revert w. induction sched as [|[tid r] sched IH]; intros w H Hf; simpl in H.
  - injection H as <-. exact Hf.
  - destruct (step cfg tid r w) as [w1|] eqn:Hs; [|discriminate].
    simpl in H. eauto using step_flag.
Qed.

Lemma trace_head cfg sched w :
  exists l, trace cfg sched w = w :: l.
Proof. destruct sched; simpl; eauto. Qed.

Lemma trace_flips cfg sched w :
  (rises (map flag (trace cfg sched w)) <= if flag w then 0 else 1)%nat
  /\ falls (map flag (trace cfg sched w)) = 0%nat.
Proof.
  revert w. induction sched as [|[tid r] sched IH]; intros w.
  - simpl. destruct (flag w); split; lia.
  - cbn [trace]. destruct (step cfg tid r w) as [w1|] eqn:Hs.
    + destruct (IH w1) as [Hr Hf].
      destruct (trace_head cfg sched w1) as [l Hl]. rewrite Hl in *.
      cbn [map rises falls] in *.
      pose proof (step_flag _ _ _ _ _ Hs) as Hmono.
      destruct (flag w), (flag w1); simpl in *;
        try (specialize (Hmono eq_refl); discriminate); split; lia.
    + simpl. destruct (flag w); split; lia.
Qed.

(** *** A request run without interference

    The program points of one request, executed back to back, amount to
    [normal_request] and [bot_request]. *)

Lemma run_solo cfg tid r n w t t' self' :
  threads w !! tid = Some t ->
  solo cfg tid r n (shared w) t = Some (t', self') ->
  run cfg (replicate n (tid, r)) w
  = Some {| shared := self'; threads := <[tid := t']> (threads w) |}.
Proof.
  revert w t. induction n as [|n IH]; intros w t Hlk H; simpl in H.
  - injection H as <- <-. simpl. rewrite list_insert_id by exact Hlk.
    destruct w; reflexivity.
  - destruct (thread_step cfg tid r (shared w) t) as [[t1 s1]|] eqn:Hs;
      [|discriminate].
    simpl in H. simpl. unfold step. rewrite Hlk. simpl. rewrite Hs. simpl.
    erewrite IH; [| |exact H].
    + simpl. rewrite list_insert_insert_eq. reflexivity.
    + simpl. apply list_lookup_insert_eq. eapply lookup_lt_Some; eauto.
Qed.

Lemma solo_normal_request cfg tid r n self :
  (n < REQUESTS_PER_USER cfg)%nat ->
  lock self = None ->
  solo cfg tid r 8 self {| t_kind := Normal; t_iter := n; t_pc := LoopHead |}
  = Some ({| t_kind := Normal; t_iter := S n; t_pc := LoopHead |},
          normal_request r self).
Proof.
  intros Hn Hl. destruct self as [res lk act]. simpl in Hl. subst lk.
  unfold normal_request, mock_server_response, detect, record_normal.
  cbn. apply Nat.ltb_lt in Hn. rewrite Hn. cbn.
  destruct (5 <? bot_requests_sent res); cbn;
    match goal with
    | |- context [?x =? 200] => destruct (x =? 200)
    end; reflexivity.
Qed.

Lemma solo_bot_request cfg tid r n self :
  (n < REQUESTS_PER_BOT cfg)%nat ->
  lock self = None ->
  exists k,
    solo cfg tid r k self {| t_kind := Bot; t_iter := n; t_pc := LoopHead |}
    = Some ({| t_kind := Bot; t_iter := S n; t_pc := LoopHead |},
            bot_request r self).
Proof.
  intros Hn Hl. destruct self as [res lk act]. simpl in Hl. subst lk.
  unfold bot_request, mock_server_response, detect, record_bot.
  apply Nat.ltb_lt in Hn. cbn.
  destruct (5 <? bot_requests_sent res) eqn:Hd; cbn;
    match goal with
    | |- context [is_blocked ?st] => destruct (is_blocked st) eqn:Hb
    end;
    [exists 11%nat | exists 9%nat | exists 11%nat | exists 9%nat];
    cbn; rewrite Hn; cbn; rewrite ?Hd; cbn; rewrite Hb; cbn; reflexivity.
Qed.

End DDoSFacts.

(** ** Facts about the server-failure demo *)

Module AttritionFacts.
Import Attrition AttritionSpec PyFacts.

(** *** [list.remove] and [random.choice] *)

Lemma list_remove_perm {A : Type} `{EqDecision A} (x : A) l l' :
  list_remove x l = Ok l' -> l ≡ₚ x :: l'.
Proof.
  revert l'. induction l as [|y l IH]; intros l' H; simpl in H; [discriminate|].
  destruct (decide (y = x)) as [->|Hne].
  - injection H as <-. reflexivity.
  - destruct (list_remove x l) as [l1|e] eqn:Hr; simpl in H; [|discriminate].
    injection H as <-. rewrite (IH l1 eq_refl). apply Permutation_swap.
Qed.

Lemma list_remove_elem {A : Type} `{EqDecision A} (x : A) l :
  x ∈ l -> exists l', list_remove x l = Ok l'.
Proof.
  induction l as [|y l IH]; intros Hin; [inversion Hin|]. simpl.
  destruct (decide (y = x)) as [->|Hne]; [eauto|].
  apply elem_of_cons in Hin as [->|Hin]; [congruence|].
  destruct (IH Hin) as [l1 ->]. simpl. eauto.
Qed.

Lemma choice_elem {A : Type} (k : nat) (l : list A) :
  l <> [] -> exists x, choice k l = Ok x /\ x ∈ l.
Proof.
  intros Hne. unfold choice.
  assert (Hlt : (k mod length l < length l)%nat).
  { apply Nat.mod_upper_bound. destruct l; simpl; [congruence | lia]. }
  destruct (lookup_lt_is_Some_2 l _ Hlt) as [x Hx]. rewrite Hx.
  exists x. split; [reflexivity|]. eapply list_elem_of_lookup_2; eauto.
Qed.

Lemma filter_nil_false {A : Type} (p : A -> bool) (l : list A) :
  (forall x, In x l -> p x = false) -> List.filter p l = [].
Proof.
  induction l as [|a l IH]; intros H; simpl; [reflexivity|].
  rewrite (H a) by (left; reflexivity). apply IH. intros x Hx. apply H.
  right; exact Hx.
Qed.

(** Without repetition in [l], exactly one value of [randbelow] selects a
    given element: a uniform index is a uniform element. *)
Lemma chances_one {A : Type} `{EqDecision A} (x : A) (l : list A) :
  NoDup l -> x ∈ l -> chances x l = 1%nat.
Proof.
  intros Hnd Hin. apply list_elem_of_lookup in Hin as [i Hi].
  pose proof (lookup_lt_Some _ _ _ Hi) as Hlt.
  assert (Hpick : forall k, (k < length l)%nat ->
                            picks x l k = bool_decide (k = i)).
  { intros k Hk. unfold picks, choice. rewrite Nat.mod_small by exact Hk.
    destruct (lookup_lt_is_Some_2 l k Hk) as [y Hy]. rewrite Hy.
    apply bool_decide_ext. split.
    - intros ->. eapply NoDup_lookup; eauto.
    - intros ->. congruence. }
  unfold chances.
  assert (Hlen : exists m, length l = (i + (1 + m))%nat)
    by (exists (length l - i - 1)%nat; lia).
  destruct Hlen as [m Hlen]. rewrite Hlen.
  rewrite !seq_app, !List.filter_app, !length_app. simpl.
  rewrite (filter_nil_false (picks x l) (seq 0 i)).
  2:{ intros k Hk. apply in_seq in Hk. rewrite Hpick by lia.
      apply bool_decide_eq_false. lia. }
  rewrite (filter_nil_false (picks x l) (seq _ m)).
  2:{ intros k Hk. apply in_seq in Hk. rewrite Hpick by lia.
      apply bool_decide_eq_false. lia. }
  rewrite Hpick by lia.
  rewrite bool_decide_eq_true_2 by reflexivity. reflexivity.
Qed.

(** *** [kill_random_server] *)

Lemma kill_noop k now self :
  live_count self <= 1 -> kill_random_server k now self = Ok (None, self).
Proof.
  unfold kill_random_server, live_count. intros H.
  destruct (1 <? len (active_servers self)) eqn:E; [|reflexivity].
  apply Z.ltb_lt in E. lia.
Qed.

Lemma kill_spec k now self :
  1 < live_count self ->
  exists chosen remaining,
    choice k (active_servers self) = Ok chosen
    /\ chosen ∈ active_servers self
    /\ list_remove chosen (active_servers self) = Ok remaining
    /\ kill_random_server k now self
       = Ok (Some chosen,
             {| results :=
                  {| total_requests := total_requests (results self);
                     successful_requests := successful_requests (results self);
                     failed_requests := failed_requests (results self);
                     response_times := response_times (results self);
                     server_failures :=
                       server_failures (results self)
                       ++ [ {| time := now; server := chosen |} ];
                     test_duration := test_duration (results self) |};
                active_servers := remaining |}).
Proof.
  unfold live_count, len. intros H.
  destruct (choice_elem k (active_servers self)) as (x & Hc & Hin).
  { destruct (active_servers self); simpl in *; [lia | congruence]. }
  destruct (list_remove_elem x _ Hin) as [rest Hr].
  exists x, rest. repeat split; auto.
  unfold kill_random_server, len.
  apply Z.ltb_lt in H. rewrite H, Hc. simpl. rewrite Hr. reflexivity.
Qed.

Lemma kill_consistent k now self o self' :
  consistent self ->
  kill_random_server k now self = Ok (o, self') ->
  consistent self'.
Proof.
  intros Hc H. destruct (Z_lt_le_dec 1 (live_count self)) as [Hgt|Hle].
  - destruct (kill_spec k now self Hgt) as (x & rest & _ & Hin & Hr & Hk).
    rewrite Hk in H. injection H as <- <-.
    pose proof (list_remove_perm _ _ _ Hr) as Hp.
    destruct Hc as [Hlive Hnd Hsrv Hsam Htot].
    assert (Hq : rest ++ killed self ++ [x]
                 ≡ₚ active_servers self ++ killed self).
    { rewrite Hp. simpl. rewrite (Permutation_app_comm (killed self) [x]).
      simpl. symmetry. apply Permutation_middle. }
    split; unfold live_count, killed, len in *; simpl in *;
      rewrite ?map_app; simpl; auto.
    + apply Permutation_length in Hp. simpl in Hp. lia.
    + rewrite Hq. exact Hnd.
    + rewrite Hq. exact Hsrv.
  - rewrite (kill_noop k now self Hle) in H. injection H as <- <-. exact Hc.
Qed.

(** *** [mock_health_check] and [check_system_health] *)

Lemma base_response_time_ok n :
  n <> 0 -> base_response_time n = Ok (100 * (5 / of_int n))%Q.
Proof.
  intros H. unfold base_response_time.
  rewrite truediv_ok by (apply of_int_nonzero; exact H). reflexivity.
Qed.

Lemma mock_health_check_ok jitter u self :
  1 <= live_count self ->
  mock_health_check jitter u self
  = Ok (Qltb u (success_probability (live_count self)),
        (100 * (5 / of_int (live_count self)) + uniform 0 50 jitter)%Q).
Proof.
  intros H. unfold mock_health_check, live_count in *.
  rewrite base_response_time_ok by lia. reflexivity.
Qed.

Lemma check_spec jitter u self :
  1 <= live_count self ->
  exists t,
    check_system_health jitter u self
    = Ok (Qltb u (success_probability (live_count self)),
          {| results :=
               {| total_requests := total_requests (results self) + 1;
                  successful_requests :=
                    if Qltb u (success_probability (live_count self))
                    then successful_requests (results self) + 1
                    else successful_requests (results self);
                  failed_requests :=
                    if Qltb u (success_probability (live_count self))
                    then failed_requests (results self)
                    else failed_requests (results self) + 1;
                  response_times :=
                    if Qltb u (success_probability (live_count self))
                    then response_times (results self) ++ [t]
                    else response_times (results self);
                  server_failures := server_failures (results self);
                  test_duration := test_duration (results self) |};
             active_servers := active_servers self |}).
Proof.
  intros H. eexists. unfold check_system_health.
  rewrite mock_health_check_ok by exact H. unfold live_count. simpl.
  destruct (Qltb u _); reflexivity.
Qed.

Lemma check_consistent jitter u self b self' :
  consistent self ->
  check_system_health jitter u self = Ok (b, self') ->
  consistent self'.
Proof.
  intros Hc H. destruct (check_spec jitter u self (cons_live _ Hc)) as [t Ht].
  rewrite Ht in H. injection H as <- <-.
  destruct Hc as [Hlive Hnd Hsrv Hsam Htot].
  split; unfold live_count, killed, len in *; simpl in *; auto;
    destruct (Qltb u _); rewrite ?length_app; simpl; lia.
Qed.

Lemma init_consistent : consistent init.
Proof.
  split; unfold live_count, killed, len; simpl; try lia.
  - apply (bool_decide_unpack _). vm_compute. reflexivity.
  - reflexivity.
Qed.

Lemma reachable_consistent self : reachable self -> consistent self.
Proof.
  induction 1 as [|k now self o self' _ IH Hk|jitter u self b self' _ IH Hh].
  - exact init_consistent.
  - eapply kill_consistent; eauto.
  - eapply check_consistent; eauto.
Qed.

Lemma reachable_at_most_configured self :
  reachable self -> live_count self <= len SERVERS.
Proof.
  intros H. apply reachable_consistent in H. destruct H as [_ _ Hp _ _].
  apply Permutation_length in Hp. rewrite length_app in Hp.
  unfold live_count, len. lia.
Qed.

Lemma kills_noop draws self :
  live_count self <= 1 -> kills draws self = Ok self.
Proof.
  intros H. induction draws as [|[k now] draws IH]; simpl; [reflexivity|].
  rewrite (kill_noop k now self H). simpl. exact IH.
Qed.

Lemma kill_live_count k now self :
  1 < live_count self ->
  exists chosen self',
    kill_random_server k now self = Ok (Some chosen, self')
    /\ live_count self' = live_count self - 1.
Proof.
  intros H. destruct (kill_spec k now self H) as (x & rest & _ & _ & Hr & Hk).
  eexists _, _. split; [exact Hk|].
  apply list_remove_perm, Permutation_length in Hr.
  unfold live_count, len in *. simpl in *. lia.
Qed.

(** *** The success probability and its clamped value *)

Lemma clamp01_lt u p :
  (0 <= u)%Q -> (u < 1)%Q -> (u < p)%Q <-> (u < clamp01 p)%Q.
Proof.
  intros H0 H1. unfold clamp01.
  rewrite Q.max_lt_iff, Q.min_glb_lt_iff. split.
  - intros H. right. split; assumption.
  - intros [H | [_ H]]; [|exact H]. apply Qlt_not_le in H. contradiction.
Qed.

Lemma clamp01_id p : (0 <= p)%Q -> (p <= 1)%Q -> (clamp01 p == p)%Q.
Proof.
  intros H0 H1. unfold clamp01.
  rewrite (Q.min_r 1 p) by exact H1. apply Q.max_r. exact H0.
Qed.

Lemma clamp01_mono p q : (p <= q)%Q -> (clamp01 p <= clamp01 q)%Q.
Proof.
  intros H. unfold clamp01.
  apply Q.max_le_compat_l. apply Q.min_le_compat_l. exact H.
Qed.

Lemma success_probability_mono n m :
  n <= m -> (success_probability n <= success_probability m)%Q.
Proof.
  intros H. unfold success_probability, of_int.
  assert (Hq : (inject_Z (n - 1) <= inject_Z (m - 1))%Q)
    by (rewrite <- Zle_Qle; lia).
  lra.
Qed.

Lemma success_probability_range n :
  1 <= n <= 6 ->
  (0 <= success_probability n)%Q /\ (success_probability n <= 1)%Q.
Proof.
  intros [H1 H6]. unfold success_probability, of_int.
  assert (Hlo : (inject_Z 0 <= inject_Z (n - 1))%Q)
    by (rewrite <- Zle_Qle; lia).
  assert (Hhi : (inject_Z (n - 1) <= inject_Z 5)%Q)
    by (rewrite <- Zle_Qle; lia).
  unfold inject_Z at 1 in Hlo. unfold inject_Z at 2 in Hhi.
  split; lra.
Qed.

(** *** The report *)

Lemma average_defined times :
  exists q, average times = Ok q
            /\ (times = [] -> q = 0%Q)
            /\ (times <> [] -> q = (sum times / of_int (len times))%Q).
Proof.
  destruct times as [|t times].
  - exists 0%Q. split; [reflexivity|]. split; [reflexivity | congruence].
  - unfold average. rewrite truediv_ok.
    + eexists. split; [reflexivity|]. split; [discriminate | reflexivity].
    + apply of_int_nonzero. unfold len. simpl. lia.
Qed.

Lemma success_rate_defined total ok :
  exists q,
    (if 0 <? total
     then q ← truediv (of_int ok) (of_int total); mret (q * 100)%Q
     else mret 0%Q) = Ok q
    /\ (total <= 0 -> q = 0%Q).
Proof.
  destruct (0 <? total) eqn:E.
  - apply Z.ltb_lt in E. rewrite truediv_ok by (apply of_int_nonzero; lia).
    eexists. split; [reflexivity | lia].
  - exists 0%Q. split; reflexivity.
Qed.

Lemma chaos_report_inv self rep :
  generate_report self = Ok rep ->
  exists rate avg,
    average (response_times (results self)) = Ok avg
    /\ (total_requests (results self) <= 0 -> rate = 0%Q)
    /\ success_rate rep = rate
    /\ avg_response_time rep = avg
    /\ success_rate_verdict rep
       = (if Qgeb rate 99.9 then PASS
          else if Qgeb rate 95 then ACCEPTABLE else FAIL)
    /\ response_time_verdict rep = (if Qltb avg 3000 then PASS else FAIL)
    /\ overall rep = Qgeb rate 95 && Qltb avg 3000.
Proof.
  unfold generate_report.
  destruct (success_rate_defined (total_requests (results self))
              (successful_requests (results self))) as (rate & -> & Hz).
  destruct (average_defined (response_times (results self))) as (avg & Ha & _).
  rewrite Ha. simpl.
  destruct (test_duration (results self)); simpl; [|discriminate].
  intros [= <-]. exists rate, avg. simpl. repeat split; auto.
Qed.

Lemma chaos_report_total self :
  is_Some (test_duration (results self)) ->
  exists rep, generate_report self = Ok rep.
Proof.
  intros [d Hd]. unfold generate_report.
  destruct (success_rate_defined (total_requests (results self))
              (successful_requests (results self))) as (rate & -> & Hz).
  destruct (average_defined (response_times (results self))) as (avg & -> & _).
  simpl. rewrite Hd. simpl. eexists; reflexivity.
Qed.

Lemma chaos_report_no_zero_division self :
  generate_report self <> Err ZeroDivisionError.
Proof.
  unfold generate_report.
  destruct (success_rate_defined (total_requests (results self))
              (successful_requests (results self))) as (rate & -> & Hz).
  destruct (average_defined (response_times (results self))) as (avg & -> & _).
  simpl. destruct (test_duration (results self)); simpl; discriminate.
Qed.

Lemma report_average self rep :
  generate_report self = Ok rep ->
  response_times (results self) <> [] ->
  avg_response_time rep
  = (sum (response_times (results self))
     / of_int (len (response_times (results self))))%Q.
Proof.
  intros Hrep Hne.
  apply chaos_report_inv in Hrep as (rate & avg & Ha & _ & _ & -> & _).
  destruct (average_defined (response_times (results self)))
    as (q & Hq & _ & Hq').
  rewrite Hq in Ha. injection Ha as <-. exact (Hq' Hne).
Qed.

Lemma reachable_kills draws self self' :
  reachable self -> kills draws self = Ok self' -> reachable self'.
Proof.
  revert self. induction draws as [|[k now] draws IH]; intros self Hr H.
  - injection H as <-. exact Hr.
  - simpl in H.
    destruct (kill_random_server k now self) as [[o s1]|e] eqn:Hk;
      [|discriminate].
    simpl in H. eapply IH; [|exact H]. eapply reach_kill; eauto.
Qed.

(** Four kills from the initial pool are a reachable state. *)
Lemma last_survivor_reachable : reachable last_survivor.
Proof.
  apply (reachable_kills
           [(0%nat, 1); (1%nat, 2); (2%nat, 3); (3%nat, 4)] init).
  - exact reach_init.
  - vm_compute. reflexivity.
Defined.

(** *** [run_test] *)

Lemma check_total jitter u self :
  consistent self ->
  exists b self',
    check_system_health jitter u self = Ok (b, self')
    /\ consistent self'
    /\ total_requests (results self') = total_requests (results self) + 1.
Proof.
  intros Hc. destruct (check_spec jitter u self (cons_live _ Hc)) as [t Hk].
  eexists _, _. split; [exact Hk|]. split; [|reflexivity].
  eapply check_consistent; eauto.
Qed.

Lemma kill_total k now self :
  consistent self ->
  exists o self',
    kill_random_server k now self = Ok (o, self')
    /\ consistent self'
    /\ total_requests (results self') = total_requests (results self).
Proof.
  intros Hc. destruct (Z_lt_le_dec 1 (live_count self)) as [Hgt|Hle].
  - destruct (kill_spec k now self Hgt) as (x & rest & _ & _ & _ & Hk).
    eexists _, _. split; [exact Hk|]. split; [|reflexivity].
    eapply kill_consistent; eauto.
  - eexists _, _. split; [apply kill_noop; exact Hle|]. auto.
Qed.

Lemma chaos_round_total rd self :
  consistent self ->
  exists self',
    chaos_round rd self = Ok self'
    /\ consistent self'
    /\ total_requests (results self') = total_requests (results self) + 1.
Proof.
  intros Hc. unfold chaos_round.
  assert (H1 : exists self1,
             (if Qltb (kill_draw rd) 0.4
              then '(_, s) ← kill_random_server (choice_draw rd)
                                (kill_time rd) self;
                   mret s
              else mret self) = Ok self1
             /\ consistent self1
             /\ total_requests (results self1) = total_requests (results self)).
  { destruct (Qltb (kill_draw rd) 0.4).
    - destruct (kill_total (choice_draw rd) (kill_time rd) self Hc)
        as (o & s & -> & Hcs & Ht).
      exists s. auto.
    - exists self. auto. }
  destruct H1 as (self1 & -> & Hc1 & Ht1). simpl.
  destruct (check_total (jitter_draw rd) (health_draw rd) self1 Hc1)
    as (b & self2 & -> & Hc2 & Ht2).
  simpl. exists self2. split; [reflexivity|]. split; [exact Hc2 | lia].
Qed.

Lemma chaos_rounds_total rds self :
  consistent self ->
  exists self',
    chaos_rounds rds self = Ok self'
    /\ consistent self'
    /\ total_requests (results self')
       = total_requests (results self) + len rds.
Proof.
  revert self. induction rds as [|rd rds IH]; intros self Hc.
  - exists self. unfold len. simpl. split; [reflexivity|]. split; [auto | lia].
  - simpl. destruct (chaos_round_total rd self Hc) as (s1 & -> & Hc1 & Ht1).
    simpl. destruct (IH s1 Hc1) as (s2 & -> & Hc2 & Ht2).
    exists s2. split; [reflexivity|]. split; [exact Hc2|].
    unfold len in *. simpl length. lia.
Qed.

(** [run_test] raises nothing: it issues the initial health check and one
    per round, and hands a consistent object to the report. *)
Lemma run_test_total t0 t1 jitter0 u0 rounds :
  exists self' rep,
    run_test t0 t1 jitter0 u0 rounds init = Ok (self', rep)
    /\ consistent self'
    /\ total_requests (results self') = 1 + Z.of_nat NUM_HEALTH_CHECKS.
Proof.
  unfold run_test.
  destruct (check_total jitter0 u0 init init_consistent)
    as (b & s1 & -> & Hc1 & Ht1).
  destruct (chaos_rounds_total (map rounds (seq 0 NUM_HEALTH_CHECKS)) s1 Hc1)
    as (s2 & Hr2 & Hc2 & Ht2).
  cbn -[chaos_rounds NUM_HEALTH_CHECKS generate_report seq map].
  rewrite Hr2.
  cbn -[chaos_rounds NUM_HEALTH_CHECKS generate_report seq map].
  match goal with
  | |- context [generate_report ?s] =>
      destruct (chaos_report_total s) as [rep ->];
      [eexists; reflexivity|]
  end.
  eexists _, _. split; [reflexivity|]. split.
  - destruct Hc2 as [H1 H2 H3 H4 H5]. split; assumption.
  - cbn -[NUM_HEALTH_CHECKS]. rewrite Ht2, Ht1. unfold len.
    rewrite length_map, length_seq. simpl. lia.
Qed.

End AttritionFacts.

(** ** Further facts *)

Module PyMoreFacts.
Import PyFacts.

(** *** Percentages *)

Lemma percent_ge (c x total : Z) :
  0 < total ->
  (inject_Z c <= inject_Z x / inject_Z total * 100)%Q <-> c * total <= 100 * x.
Proof.
  intros Ht.
  assert (HT : (0 < inject_Z total)%Q) by (rewrite (Zlt_Qlt 0 total) in Ht; exact Ht).
  rewrite <- (Qmult_le_r _ _ (inject_Z total) HT).
  assert (E : (inject_Z x / inject_Z total * 100 * inject_Z total
               == inject_Z (100 * x))%Q).
  { rewrite inject_Z_mult. field. intros E0. rewrite E0 in HT.
    apply Qlt_irrefl in HT. exact HT. }
  rewrite E, <- inject_Z_mult, <- Zle_Qle. reflexivity.
Qed.

Lemma percent_le (c x total : Z) :
  0 < total ->
  (inject_Z x / inject_Z total * 100 <= inject_Z c)%Q <-> 100 * x <= c * total.
Proof.
  intros Ht.
  assert (HT : (0 < inject_Z total)%Q) by (rewrite (Zlt_Qlt 0 total) in Ht; exact Ht).
  rewrite <- (Qmult_le_r _ _ (inject_Z total) HT).
  assert (E : (inject_Z x / inject_Z total * 100 * inject_Z total
               == inject_Z (100 * x))%Q).
  { rewrite inject_Z_mult. field. intros E0. rewrite E0 in HT.
    apply Qlt_irrefl in HT. exact HT. }
  rewrite E, <- inject_Z_mult, <- Zle_Qle. reflexivity.
Qed.

Lemma percent_ge_frac (c : Z) (d : positive) (x total : Z) :
  0 < total ->
  (c # d <= inject_Z x / inject_Z total * 100)%Q
  <-> c * total <= 100 * x * Z.pos d.
Proof.
  intros Ht.
  assert (HT : (0 < inject_Z total)%Q)
    by (rewrite (Zlt_Qlt 0 total) in Ht; exact Ht).
  assert (HD : (0 < inject_Z (Z.pos d))%Q) by reflexivity.
  rewrite <- (Qmult_le_r _ _ (inject_Z total) HT).
  rewrite <- (Qmult_le_r _ _ (inject_Z (Z.pos d)) HD).
  assert (E1 : ((c # d) * inject_Z total * inject_Z (Z.pos d)
                == inject_Z (c * total))%Q).
  { rewrite (Qmake_Qdiv c d), inject_Z_mult. field.
    intros E0. rewrite E0 in HD. apply Qlt_irrefl in HD. exact HD. }
  assert (E2 : (inject_Z x / inject_Z total * 100 * inject_Z total
                * inject_Z (Z.pos d)
                == inject_Z (100 * x * Z.pos d))%Q).
  { rewrite !inject_Z_mult. field. intros E0. rewrite E0 in HT.
    apply Qlt_irrefl in HT. exact HT. }
  rewrite E1, E2, <- Zle_Qle. reflexivity.
Qed.

(** *** Sums and averages of bounded samples *)

Lemma sum_from_bounds (lo hi : Q) (l : list Q) : forall a,
  Forall (fun t => (lo <= t)%Q /\ (t < hi)%Q) l ->
  (a + lo * of_int (len l) <= fold_left Qplus l a)%Q
  /\ (fold_left Qplus l a <= a + hi * of_int (len l))%Q.
Proof.
  unfold of_int, len. induction l as [|t l IH]; intros a Hall.
  - simpl. split; ring_simplify; apply Qle_refl.
  - apply Forall_cons in Hall as [[Hlo Hhi] Hall].
    destruct (IH (a + t)%Q Hall) as [H1 H2].
    cbn [fold_left length]. rewrite Nat2Z.inj_succ, <- Z.add_1_r.
    rewrite inject_Z_plus. change (inject_Z 1) with 1%Q.
    split; [eapply Qle_trans; [|exact H1] | eapply Qle_trans; [exact H2|]];
      lra.
Qed.

Lemma average_bounds (lo hi : Q) (l : list Q) :
  l <> [] ->
  Forall (fun t => (lo <= t)%Q /\ (t < hi)%Q) l ->
  (lo <= sum l / of_int (len l))%Q /\ (sum l / of_int (len l) < hi)%Q.
Proof.
  intros Hne Hall. destruct l as [|t l]; [congruence|].
  assert (Hn : (0 < of_int (len (t :: l)))%Q).
  { unfold of_int, len. rewrite <- (Zlt_Qlt 0). simpl. lia. }
  pose proof (proj1 (sum_from_bounds lo hi (t :: l) 0 Hall)) as H1.
  apply Forall_cons in Hall as [[Hlo Hhi] Hall].
  pose proof (proj2 (sum_from_bounds lo hi l (0 + t) Hall)) as H2.
  unfold sum. split.
  - apply Qle_shift_div_l; [exact Hn|]. lra.
  - apply Qlt_shift_div_r; [exact Hn|]. cbn [fold_left].
    eapply Qle_lt_trans; [exact H2|].
    unfold of_int, len in *. cbn [length].
    rewrite Nat2Z.inj_succ, <- Z.add_1_r, inject_Z_plus.
    change (inject_Z 1) with 1%Q. lra.
Qed.

(** The expression [x / total * 100 if total > 0 else 0] of the reports. *)
Lemma percentage_spec (x total : Z) :
  0 <= x <= total ->
  exists q,
    (if 0 <? total
     then q ← truediv (of_int x) (of_int total); mret (q * 100)%Q
     else mret 0%Q) = Ok q
    /\ (0 <= q)%Q /\ (q <= 100)%Q
    /\ (forall (c : Z) (d : positive), 0 < c ->
          Qgeb q (c # d) = true
          <-> 0 < total /\ c * total <= 100 * x * Z.pos d).
Proof.
  intros [H0 Hx]. destruct (0 <? total) eqn:E.
  - apply Z.ltb_lt in E.
    rewrite truediv_ok by (apply of_int_nonzero; lia).
    eexists. split; [reflexivity|]. unfold of_int. split; [|split].
    + apply (percent_ge 0 x total E). lia.
    + apply (percent_le 100 x total E). lia.
    + intros c d Hc. rewrite Qgeb_le, (percent_ge_frac c d x total E). tauto.
  - apply Z.ltb_ge in E. exists 0%Q. split; [reflexivity|].
    split; [apply Qle_refl|]. split; [discriminate|].
    intros c d Hc. rewrite Qgeb_le. split.
    + intros H. unfold Qle in H. simpl in H. lia.
    + intros [H _]. lia.
Qed.

Lemma percentage_cases (x total : Z) :
  (0 < total
   /\ (if 0 <? total
       then q ← truediv (of_int x) (of_int total); mret (q * 100)%Q
       else mret 0%Q) = Ok (of_int x / of_int total * 100)%Q)
  \/ (total <= 0
      /\ (if 0 <? total
          then q ← truediv (of_int x) (of_int total); mret (q * 100)%Q
          else mret 0%Q) = Ok 0%Q).
Proof.
  destruct (0 <? total) eqn:E.
  - apply Z.ltb_lt in E. left. split; [exact E|].
    rewrite truediv_ok by (apply of_int_nonzero; lia). reflexivity.
  - apply Z.ltb_ge in E. right. split; [exact E | reflexivity].
Qed.

(** When the percentage reaches a threshold [c / d], in whole numbers. *)
Lemma percentage_threshold (x total : Z) (q : Q) (c : Z) (d : positive) :
  (if 0 <? total
   then q ← truediv (of_int x) (of_int total); mret (q * 100)%Q
   else mret 0%Q) = Ok q ->
  0 < c ->
  Qgeb q (c # d) = true <-> 0 < total /\ c * total <= 100 * x * Z.pos d.
Proof.
  intros Hq Hc. destruct (percentage_cases x total) as [[Ht E]|[Ht E]];
    rewrite E in Hq; injection Hq as <-; rewrite Qgeb_le.
  - unfold of_int. rewrite (percent_ge_frac c d x total Ht). tauto.
  - split.
    + intros H. unfold Qle in H. simpl in H. lia.
    + intros [H _]. lia.
Qed.

Lemma sum_snoc (l : list Q) (t : Q) : sum (l ++ [t]) = (sum l + t)%Q.
Proof. unfold sum. rewrite fold_left_app. reflexivity. Qed.

End PyMoreFacts.

Module DDoSMoreFacts.
Import DDoS DDoSSpec DDoSFacts DDoSMore PyFacts PyMoreFacts.

#[local] Arguments Nat.ltb : simpl never.
#[local] Arguments Nat.leb : simpl never.
#[local] Arguments Z.eqb : simpl never.
#[local] Arguments Z.ltb : simpl never.
#[local] Arguments Z.add : simpl never.
#[local] Arguments Z.sub : simpl never.
#[local] Arguments respond : simpl never.

Ltac pc_cases t :=
  let k := fresh "k" in let n := fresh "n" in let p := fresh "p" in
  destruct t as [k n p]; destruct p; destruct k.

Ltac step_cases H :=
  cbn in H;
  repeat match type of H with
         | context [if ?b then _ else _] => destruct b eqn:?
         | context [match lock ?s with _ => _ end] => destruct (lock s) eqn:?
         end; try discriminate H;
  injection H as <- <-.

Ltac to_Z :=
  repeat match goal with
         | H : (_ =? _) = true |- _ => apply Z.eqb_eq in H
         | H : (_ =? _) = false |- _ => apply Z.eqb_neq in H
         | H : (_ <? _) = true |- _ => apply Z.ltb_lt in H
         | H : (_ <? _) = false |- _ => apply Z.ltb_ge in H
         end.

Lemma launched_inv cfg t0 : inv cfg (launched cfg t0).
Proof. apply inv_spawn; reflexivity. Qed.

Lemma reachable_inv cfg w : reachable cfg w -> inv cfg w.
Proof.
  intros (t0 & sched & H). eapply inv_run; [apply launched_inv | exact H].
Qed.

Lemma run_app cfg s1 s2 w :
  run cfg (s1 ++ s2) w = w' ← run cfg s1 w; run cfg s2 w'.
Proof.
  revert w. induction s1 as [|[tid r] s1 IH]; intros w; simpl; [reflexivity|].
  destruct (step cfg tid r w) as [w1|]; simpl; [apply IH | reflexivity].
Qed.

Lemma reachable_run cfg sched w w' :
  reachable cfg w -> run cfg sched w = Some w' -> reachable cfg w'.
Proof.
  intros (t0 & s0 & H0) H. exists t0, (s0 ++ sched).
  rewrite run_app, H0. exact H.
Qed.

(** *** The counters as tallies *)

Lemma pending_block_range t : 0 <= pending_block t <= 1.
Proof. unfold pending_block. destruct (t_pc t); lia. Qed.

Lemma tally_nonneg f (ts : list Thread) :
  (forall t, 0 <= f t) -> 0 <= tally f ts.
Proof.
  intros H. unfold tally. induction ts as [|t ts IH]; simpl; [lia|].
  specialize (H t). lia.
Qed.

Lemma thread_step_counted cfg tid r self t t' self' :
  thread_ok cfg self tid t ->
  thread_step cfg tid r self t = Some (t', self') ->
  (0 <= normal_user_success (results self) ->
   0 <= normal_user_success (results self'))
  /\ (0 <= normal_user_fail (results self) ->
      0 <= normal_user_fail (results self'))
  /\ (0 <= bot_requests_blocked (results self) ->
      0 <= bot_requests_blocked (results self'))
  /\ bot_requests_sent (results self) - bot_requests_blocked (results self)
     - pending_block t
     <= bot_requests_sent (results self') - bot_requests_blocked (results self')
        - pending_block t'.
Proof.
  intros (Hi & Hl & Hb & Hf) H. unfold thread_step in H.
  pc_cases t; cbn in Hb, Hf;
    try (specialize (Hb eq_refl); discriminate Hb);
    step_cases H; unfold pending_block; cbn; subst; to_Z;
    repeat split; intros; try lia.
Qed.

Lemma counted_step cfg tid r w w' :
  inv cfg w -> counted w -> step cfg tid r w = Some w' -> counted w'.
Proof.
  intros Hi [Hs Hf Hb Hle] H.
  apply step_inv_world in H as (t & t' & self' & Hlk & Hst & ->).
  pose proof (inv_threads _ _ Hi tid t Hlk) as Hok.
  destruct (thread_step_counted _ _ _ _ _ _ _ Hok Hst) as (H1 & H2 & H3 & H4).
  split; simpl; auto.
  rewrite (tally_insert _ _ _ _ _ Hlk). lia.
Qed.

Lemma counted_launched cfg t0 : counted (launched cfg t0).
Proof.
  split; unfold launched, spawn; simpl; try lia.
  rewrite tally_app, !tally_replicate. unfold pending_block; simpl. lia.
Qed.

Lemma counted_run cfg sched w w' :
  inv cfg w -> counted w -> run cfg sched w = Some w' -> counted w'.
Proof.
  revert w. induction sched as [|[tid r] sched IH]; intros w Hi Hc H;
    simpl in H.
  - injection H as <-. exact Hc.
  - destruct (step cfg tid r w) as [w1|] eqn:Hs; [|discriminate].
    simpl in H. eapply IH; [| |exact H].
    + eapply inv_step; eauto.
    + eapply counted_step; eauto.
Qed.

Lemma reachable_counted cfg w : reachable cfg w -> counted w.
Proof.
  intros (t0 & sched & H).
  eapply counted_run; [apply launched_inv | apply counted_launched | exact H].
Qed.

(** *** Cause of the activation *)

Lemma thread_step_sent cfg tid r self t t' self' :
  thread_ok cfg self tid t ->
  thread_step cfg tid r self t = Some (t', self') ->
  bot_requests_sent (results self) <= bot_requests_sent (results self').
Proof.
  intros (Hi & Hl & Hb & Hf) H. unfold thread_step in H.
  pc_cases t; cbn in Hb, Hf;
    try (specialize (Hb eq_refl); discriminate Hb);
    step_cases H; cbn; subst; lia.
Qed.

Lemma thread_step_causal cfg tid r self t t' self' :
  thread_step cfg tid r self t = Some (t', self') ->
  (ddos_protection_active self = true -> 5 < bot_requests_sent (results self)) ->
  (forall c, t_pc t = Compare c -> c <= bot_requests_sent (results self)) ->
  (ddos_protection_active self' = true ->
   ddos_protection_active self = true
   \/ 5 < bot_requests_sent (results self))
  /\ (forall c, t_pc t' = Compare c -> c = bot_requests_sent (results self))
  /\ (t_pc t' = Draw true ->
      t_pc t = Draw true \/ ddos_protection_active self = true).
Proof.
  intros H Hflag Hread. unfold thread_step in H.
  pc_cases t; step_cases H; cbn in *; to_Z;
    repeat split; intros; try congruence; auto;
    try (right; specialize (Hread _ eq_refl); lia);
    try (match goal with
         | H : Compare _ = Compare _ |- _ => injection H as <-
         end; reflexivity);
    try (match goal with
         | H : Draw _ = Draw true |- _ => injection H as ->
         end; auto).
Qed.

Lemma causal_step cfg tid r w w' :
  inv cfg w -> causal w -> step cfg tid r w = Some w' -> causal w'.
Proof.
  intros Hi [Hflag Hread Hseen] H.
  apply step_inv_world in H as (t & t' & self' & Hlk & Hst & ->).
  pose proof (inv_threads _ _ Hi tid t Hlk) as Hok.
  pose proof (thread_step_sent _ _ _ _ _ _ _ Hok Hst) as Hmono.
  destruct (thread_step_causal _ _ _ _ _ _ _ Hst Hflag
              (fun c Hc => Hread tid t c Hlk Hc)) as (H1 & H2 & H3).
  assert (Hflag' : ddos_protection_active self' = true ->
                   5 < bot_requests_sent (results self')).
  { intros Ha. destruct (H1 Ha) as [Hb | Hb]; [specialize (Hflag Hb)|]; lia. }
  split; simpl.
  - exact Hflag'.
  - intros tid' t2 c Ht2 Hc. destruct (decide (tid' = tid)) as [->|Hne].
    + rewrite list_lookup_insert_eq in Ht2
        by (eapply lookup_lt_Some; exact Hlk).
      injection Ht2 as <-. rewrite (H2 c Hc). exact Hmono.
    + rewrite list_lookup_insert_ne in Ht2 by congruence.
      specialize (Hread tid' t2 c Ht2 Hc). lia.
  - intros tid' t2 Ht2 Hd. destruct (decide (tid' = tid)) as [->|Hne].
    + rewrite list_lookup_insert_eq in Ht2
        by (eapply lookup_lt_Some; exact Hlk).
      injection Ht2 as <-. destruct (H3 Hd) as [Hb | Hb].
      * specialize (Hseen tid t Hlk Hb). lia.
      * specialize (Hflag Hb). lia.
    + rewrite list_lookup_insert_ne in Ht2 by congruence.
      specialize (Hseen tid' t2 Ht2 Hd). lia.
Qed.

Lemma causal_launched cfg t0 : causal (launched cfg t0).
Proof.
  split; unfold launched, spawn; simpl.
  - discriminate.
  - intros tid t c Ht Hc.
    apply list_elem_of_lookup_2, elem_of_app in Ht.
    destruct Ht as [Ht|Ht]; apply elem_of_replicate in Ht as [-> _];
      discriminate.
  - intros tid t Ht Hc.
    apply list_elem_of_lookup_2, elem_of_app in Ht.
    destruct Ht as [Ht|Ht]; apply elem_of_replicate in Ht as [-> _];
      discriminate.
Qed.

Lemma causal_run cfg sched w w' :
  inv cfg w -> causal w -> run cfg sched w = Some w' -> causal w'.
Proof.
  revert w. induction sched as [|[tid r] sched IH]; intros w Hi Hc H;
    simpl in H.
  - injection H as <-. exact Hc.
  - destruct (step cfg tid r w) as [w1|] eqn:Hs; [|discriminate].
    simpl in H. eapply IH; [| |exact H].
    + eapply inv_step; eauto.
    + eapply causal_step; eauto.
Qed.

Lemma reachable_causal cfg w : reachable cfg w -> causal w.
Proof.
  intros (t0 & sched & H).
  eapply causal_run; [apply launched_inv | apply causal_launched | exact H].
Qed.

(** *** The lock *)

Lemma inside_is_owner cfg w tid t :
  inv cfg w -> threads w !! tid = Some t -> holds_lock (t_pc t) = true ->
  lock (shared w) = Some tid.
Proof.
  intros Hi Hlk Hh. destruct (inv_threads _ _ Hi tid t Hlk) as (_ & Hl & _).
  exact (Hl Hh).
Qed.

Lemma joined_lock_free cfg w :
  inv cfg w -> joined cfg w = true -> lock (shared w) = None.
Proof.
  intros Hi Hj. destruct (lock (shared w)) as [h|] eqn:Hl; [|reflexivity].
  destruct (inv_owner _ _ Hi h Hl) as (t & Hlk & Hh).
  apply (holds_lock_unfinished cfg) in Hh.
  unfold joined in Hj. rewrite forallb_forall in Hj.
  rewrite Hj in Hh; [discriminate|].
  apply list_elem_of_In. eapply list_elem_of_lookup_2; eauto.
Qed.

Lemma joined_stuck cfg w tid r :
  joined cfg w = true -> step cfg tid r w = None.
Proof.
  intros Hj. unfold step.
  destruct (threads w !! tid) as [t|] eqn:Hlk; [|reflexivity]. simpl.
  unfold joined in Hj. rewrite forallb_forall in Hj.
  assert (Hf : finished cfg t = true).
  { apply Hj. apply list_elem_of_In. eapply list_elem_of_lookup_2; eauto. }
  unfold finished in Hf. unfold thread_step.
  destruct (t_pc t); try discriminate.
  apply Nat.leb_le in Hf.
  destruct (t_iter t <? budget cfg (t_kind t))%nat eqn:E; [|reflexivity].
  apply Nat.ltb_lt in E. lia.
Qed.

(** *** The times and the lock are left alone by the counters *)

Lemma thread_step_times cfg tid r self t t' self' :
  thread_step cfg tid r self t = Some (t', self') ->
  start_time (results self') = start_time (results self)
  /\ end_time (results self') = end_time (results self).
Proof.
  intros H. unfold thread_step in H.
  pc_cases t; step_cases H; cbn; auto.
Qed.

Lemma run_times cfg sched w w' :
  run cfg sched w = Some w' ->
  start_time (results (shared w')) = start_time (results (shared w))
  /\ end_time (results (shared w')) = end_time (results (shared w)).
Proof.
  revert w. induction sched as [|[tid r] sched IH]; intros w H; simpl in H.
  - injection H as <-. auto.
  - destruct (step cfg tid r w) as [w1|] eqn:Hs; [|discriminate].
    simpl in H. destruct (IH w1 H) as [H1 H2].
    apply step_inv_world in Hs as (t & t' & self' & _ & Hst & ->).
    destruct (thread_step_times _ _ _ _ _ _ _ Hst) as [H3 H4].
    simpl in *. split; congruence.
Qed.

(** *** Rates *)

Lemma rate_positive x total :
  0 < total -> rate x total = Ok (of_int x / of_int total * 100)%Q.
Proof.
  intros H. unfold rate. apply Z.ltb_lt in H. rewrite H.
  apply Z.ltb_lt in H.
  rewrite truediv_ok by (apply of_int_nonzero; lia). reflexivity.
Qed.

Lemma rate_zero x total : total <= 0 -> rate x total = Ok 0%Q.
Proof.
  intros H. unfold rate. destruct (0 <? total) eqn:E; [|reflexivity].
  apply Z.ltb_lt in E. lia.
Qed.

(** A rate is a percentage, and it reaches [c] exactly when the share of
    [x] in [total] does. *)
Lemma rate_spec x total :
  0 <= x <= total ->
  exists q, rate x total = Ok q
            /\ (0 <= q)%Q /\ (q <= 100)%Q
            /\ (forall c : Z, 0 < c ->
                  Qgeb q (inject_Z c) = true
                  <-> 0 < total /\ c * total <= 100 * x).
Proof.
  intros [H0 Hx]. destruct (Z_lt_le_dec 0 total) as [Hpos|Hzero].
  - exists (of_int x / of_int total * 100)%Q.
    split; [apply rate_positive; exact Hpos|]. unfold of_int.
    split; [|split].
    + apply (percent_ge 0 x total Hpos). lia.
    + apply (percent_le 100 x total Hpos). lia.
    + intros c Hc. rewrite Qgeb_le, (percent_ge c x total Hpos). tauto.
  - exists 0%Q. split; [apply rate_zero; exact Hzero|].
    split; [apply Qle_refl|]. split; [discriminate|].
    intros c Hc. rewrite Qgeb_le. split.
    + intros H. change 0%Q with (inject_Z 0) in H.
      rewrite <- Zle_Qle in H. lia.
    + intros [H _]. lia.
Qed.

(** *** Requests still owed *)

Lemma owed_nonneg cfg k self tid t :
  thread_ok cfg self tid t -> 0 <= owed cfg k t.
Proof.
  intros (Hi & _). unfold owed, finished, stored in *.
  destruct (same_kind (t_kind t) k) eqn:Hk; [|lia].
  assert (budget cfg k = budget cfg (t_kind t)) as ->
    by (destruct (t_kind t), k; simpl in *; congruence).
  destruct (t_pc t); try lia.
  destruct (budget cfg (t_kind t) <=? t_iter t)%nat; lia.
Qed.

Lemma tally_nonneg_lookup f (ts : list Thread) :
  (forall tid t, ts !! tid = Some t -> 0 <= f t) -> 0 <= tally f ts.
Proof.
  unfold tally. induction ts as [|t ts IH]; intros H; simpl; [lia|].
  pose proof (H 0%nat t eq_refl).
  assert (0 <= foldr (fun t acc => f t + acc) 0 ts).
  { apply IH. intros tid t' Ht. apply (H (S tid) t'). exact Ht. }
  lia.
Qed.

Lemma owed_total_nonneg cfg k w :
  inv cfg w -> 0 <= tally (owed cfg k) (threads w).
Proof.
  intros Hi. apply tally_nonneg_lookup. intros tid t Ht.
  eapply owed_nonneg. exact (inv_threads _ _ Hi tid t Ht).
Qed.

(** *** A thread running alone *)

Lemma normal_request_lock r self :
  lock (normal_request r self) = lock self.
Proof.
  unfold normal_request, mock_server_response, record_normal, detect.
  destruct (5 <? _); simpl; destruct (_ =? 200); reflexivity.
Qed.

Lemma bot_request_lock r self : lock (bot_request r self) = lock self.
Proof.
  unfold bot_request, mock_server_response, record_bot, detect.
  destruct (5 <? _); simpl; destruct (is_blocked _); reflexivity.
Qed.

Lemma Forall_replicate_fst (tid : nat) (r : Q) n :
  Forall (fun e : nat * Q => e.1 = tid) (replicate n (tid, r)).
Proof. apply Forall_replicate. reflexivity. Qed.

Lemma alone_normal cfg tid draws : forall n w,
  threads w !! tid = Some {| t_kind := Normal; t_iter := n; t_pc := LoopHead |} ->
  (n + length draws <= REQUESTS_PER_USER cfg)%nat ->
  lock (shared w) = None ->
  exists sched,
    Forall (fun e : nat * Q => e.1 = tid) sched
    /\ run cfg sched w
       = Some {| shared := normal_requests draws (shared w);
                 threads :=
                   <[tid := {| t_kind := Normal;
                               t_iter := (n + length draws)%nat;
                               t_pc := LoopHead |}]> (threads w) |}.
Proof.
  induction draws as [|r draws IH]; intros n w Hlk Hn Hl.
  - exists []. split; [constructor|]. simpl.
    rewrite Nat.add_0_r, list_insert_id by exact Hlk. destruct w; reflexivity.
  - simpl in Hn.
    pose proof (solo_normal_request cfg tid r n (shared w)
                  ltac:(lia) Hl) as Hsolo.
    pose proof (run_solo _ _ _ _ _ _ _ _ Hlk Hsolo) as Hrun.
    set (w1 := {| shared := normal_request r (shared w);
                  threads := <[tid := {| t_kind := Normal; t_iter := S n;
                                         t_pc := LoopHead |}]> (threads w) |})
      in *.
    destruct (IH (S n) w1) as (sched & Hall & Hrest).
    + simpl. apply list_lookup_insert_eq. eapply lookup_lt_Some; eauto.
    + lia.
    + simpl. rewrite normal_request_lock. exact Hl.
    + exists (replicate 8 (tid, r) ++ sched). split.
      * apply Forall_app. split; [apply Forall_replicate_fst | exact Hall].
      * rewrite run_app, Hrun. etransitivity; [exact Hrest|].
        subst w1. simpl. rewrite list_insert_insert_eq.
        replace (S (n + length draws))%nat with (n + S (length draws))%nat
          by lia.
        reflexivity.
Qed.

Lemma alone_bot cfg tid draws : forall n w,
  threads w !! tid = Some {| t_kind := Bot; t_iter := n; t_pc := LoopHead |} ->
  (n + length draws <= REQUESTS_PER_BOT cfg)%nat ->
  lock (shared w) = None ->
  exists sched,
    Forall (fun e : nat * Q => e.1 = tid) sched
    /\ run cfg sched w
       = Some {| shared := bot_requests draws (shared w);
                 threads :=
                   <[tid := {| t_kind := Bot;
                               t_iter := (n + length draws)%nat;
                               t_pc := LoopHead |}]> (threads w) |}.
Proof.
  induction draws as [|r draws IH]; intros n w Hlk Hn Hl.
  - exists []. split; [constructor|]. simpl.
    rewrite Nat.add_0_r, list_insert_id by exact Hlk. destruct w; reflexivity.
  - simpl in Hn.
    destruct (solo_bot_request cfg tid r n (shared w) ltac:(lia) Hl)
      as [k Hsolo].
    pose proof (run_solo _ _ _ _ _ _ _ _ Hlk Hsolo) as Hrun.
    set (w1 := {| shared := bot_request r (shared w);
                  threads := <[tid := {| t_kind := Bot; t_iter := S n;
                                         t_pc := LoopHead |}]> (threads w) |})
      in *.
    destruct (IH (S n) w1) as (sched & Hall & Hrest).
    + simpl. apply list_lookup_insert_eq. eapply lookup_lt_Some; eauto.
    + lia.
    + simpl. rewrite bot_request_lock. exact Hl.
    + exists (replicate k (tid, r) ++ sched). split.
      * apply Forall_app. split; [apply Forall_replicate_fst | exact Hall].
      * rewrite run_app, Hrun. etransitivity; [exact Hrest|].
        subst w1. simpl. rewrite list_insert_insert_eq.
        replace (S (n + length draws))%nat with (n + S (length draws))%nat
          by lia.
        reflexivity.
Qed.

(** *** Requests in a row *)

Lemma bot_request_effect r self :
  bot_requests_sent (results (bot_request r self))
  = bot_requests_sent (results self) + 1
  /\ ddos_protection_active (bot_request r self)
     = ddos_protection_active self || (5 <? bot_requests_sent (results self))
  /\ bot_requests_blocked (results self)
     <= bot_requests_blocked (results (bot_request r self))
     <= bot_requests_blocked (results self) + 1
  /\ normal_user_success (results (bot_request r self))
     = normal_user_success (results self)
  /\ normal_user_fail (results (bot_request r self))
     = normal_user_fail (results self).
Proof.
  unfold bot_request, mock_server_response.
  rewrite record_bot_sent, detect_sent, record_bot_active, detect_active.
  unfold record_bot. destruct (is_blocked _); simpl;
    rewrite detect_results; repeat split; lia.
Qed.

Lemma normal_request_effect r self :
  normal_user_success (results (normal_request r self))
  + normal_user_fail (results (normal_request r self))
  = normal_user_success (results self) + normal_user_fail (results self) + 1
  /\ ddos_protection_active (normal_request r self)
     = ddos_protection_active self || (5 <? bot_requests_sent (results self))
  /\ bot_requests_sent (results (normal_request r self))
     = bot_requests_sent (results self)
  /\ bot_requests_blocked (results (normal_request r self))
     = bot_requests_blocked (results self).
Proof.
  unfold normal_request, mock_server_response.
  rewrite record_normal_active, detect_active.
  unfold record_normal. destruct (_ =? 200); simpl;
    rewrite detect_results; repeat split; lia.
Qed.

(** *** The report, given its two rates *)

Lemma ddos_report_value self sr br s e :
  rate (normal_user_success (results self))
       (normal_user_success (results self) + normal_user_fail (results self))
  = Ok sr ->
  rate (bot_requests_blocked (results self)) (bot_requests_sent (results self))
  = Ok br ->
  start_time (results self) = Some s ->
  end_time (results self) = Some e ->
  generate_report self
  = Ok {| total_normal :=
            normal_user_success (results self)
            + normal_user_fail (results self);
          normal_success_rate := sr;
          bot_block_rate := br;
          normal_user_access := if Qgeb sr 95 then PASS else FAIL;
          bot_blocking := if Qgeb br 80 then PASS else FAIL;
          overall := Qgeb sr 95 && Qgeb br 80;
          duration := (e - s)%Q |}.
Proof.
  intros Hs Hb Hst He. unfold generate_report.
  rewrite Hs, Hb. simpl. rewrite Hst, He. reflexivity.
Qed.

Lemma ddos_report_error self e :
  generate_report self = Err e ->
  e = TypeError
  /\ (start_time (results self) = None \/ end_time (results self) = None).
Proof.
  unfold generate_report.
  destruct (rate_defined (normal_user_success (results self))
              (normal_user_success (results self)
               + normal_user_fail (results self))) as (sr & -> & _).
  destruct (rate_defined (bot_requests_blocked (results self))
              (bot_requests_sent (results self))) as (br & -> & _).
  simpl. destruct (end_time (results self)), (start_time (results self));
    simpl; intros [= <-]; auto.
Qed.

Lemma reachable_counters cfg w :
  reachable cfg w ->
  0 <= normal_user_success (results (shared w))
  /\ 0 <= normal_user_fail (results (shared w))
  /\ 0 <= bot_requests_blocked (results (shared w))
  /\ bot_requests_blocked (results (shared w))
     <= bot_requests_sent (results (shared w)).
Proof.
  intros Hr. destruct (reachable_counted _ _ Hr) as [Hs Hf Hb Hle].
  pose proof (tally_nonneg pending_block (threads w)
                (fun t => proj1 (pending_block_range t))).
  repeat split; lia.
Qed.

End DDoSMoreFacts.

Module AttritionMoreFacts.
Import Attrition AttritionSpec AttritionFacts AttritionMore PyFacts PyMoreFacts.

Lemma observed_reachable self : observed self -> reachable self.
Proof.
  induction 1 as [|k now self o self' _ IH Hk
                  |jitter u self b self' _ IH _ _ Hc].
  - exact reach_init.
  - eapply reach_kill; eauto.
  - eapply reach_check; eauto.
Qed.

(** *** The latency of the mock *)

Lemma load_antitone n m :
  1 <= n <= m -> (5 / of_int m <= 5 / of_int n)%Q.
Proof.
  intros [Hn Hm]. unfold of_int.
  assert (Pn : (0 < inject_Z n)%Q) by (rewrite <- (Zlt_Qlt 0); lia).
  assert (Pm : (0 < inject_Z m)%Q) by (rewrite <- (Zlt_Qlt 0); lia).
  assert (Hq : (inject_Z n <= inject_Z m)%Q) by (rewrite <- Zle_Qle; lia).
  apply Qle_shift_div_l; [exact Pn|].
  assert (E : (5 / inject_Z m * inject_Z n == 5 * inject_Z n / inject_Z m)%Q).
  { field. intros E0. rewrite E0 in Pm. apply Qlt_irrefl in Pm. exact Pm. }
  rewrite E. apply Qle_shift_div_r; [exact Pm|]. lra.
Qed.

Lemma load_range n :
  1 <= n <= 5 -> (1 <= 5 / of_int n)%Q /\ (5 / of_int n <= 5)%Q.
Proof.
  intros [H1 H5]. split.
  - eapply Qle_trans; [|apply (load_antitone n 5); lia].
    vm_compute. discriminate.
  - eapply Qle_trans; [apply (load_antitone 1 n); lia|].
    vm_compute. discriminate.
Qed.

Lemma uniform_range u :
  unit_draw u -> (0 <= uniform 0 50 u)%Q /\ (uniform 0 50 u < 50)%Q.
Proof. intros [H0 H1]. unfold uniform. split; lra. Qed.

Lemma response_time_band jitter n :
  1 <= n <= 5 -> unit_draw jitter ->
  in_band (100 * (5 / of_int n) + uniform 0 50 jitter)%Q.
Proof.
  intros Hn Hj. destruct (load_range n Hn), (uniform_range jitter Hj).
  unfold in_band. split; lra.
Qed.

(** *** Only samples within the band are recorded *)

Lemma check_values jitter u self :
  1 <= live_count self ->
  check_system_health jitter u self
  = Ok (Qltb u (success_probability (live_count self)),
        {| results :=
             {| total_requests := total_requests (results self) + 1;
                successful_requests :=
                  if Qltb u (success_probability (live_count self))
                  then successful_requests (results self) + 1
                  else successful_requests (results self);
                failed_requests :=
                  if Qltb u (success_probability (live_count self))
                  then failed_requests (results self)
                  else failed_requests (results self) + 1;
                response_times :=
                  if Qltb u (success_probability (live_count self))
                  then response_times (results self)
                       ++ [(100 * (5 / of_int (live_count self))
                            + uniform 0 50 jitter)%Q]
                  else response_times (results self);
                server_failures := server_failures (results self);
                test_duration := test_duration (results self) |};
           active_servers := active_servers self |}).
Proof.
  intros H. unfold check_system_health.
  rewrite mock_health_check_ok by exact H. unfold live_count. simpl.
  destruct (Qltb u _); reflexivity.
Qed.

Lemma kill_frame k now self o self' :
  kill_random_server k now self = Ok (o, self') ->
  total_requests (results self') = total_requests (results self)
  /\ successful_requests (results self') = successful_requests (results self)
  /\ failed_requests (results self') = failed_requests (results self)
  /\ response_times (results self') = response_times (results self)
  /\ test_duration (results self') = test_duration (results self).
Proof.
  intros H. destruct (Z_lt_le_dec 1 (live_count self)) as [Hgt|Hle].
  - destruct (kill_spec k now self Hgt) as (x & rest & _ & _ & _ & Hk).
    rewrite Hk in H. injection H as <- <-. simpl. auto.
  - rewrite (kill_noop k now self Hle) in H. injection H as <- <-. auto.
Qed.

Lemma observed_band self :
  observed self -> Forall in_band (response_times (results self)).
Proof.
  induction 1 as [|k now self o self' Hobs IH Hk
                  |jitter u self b self' Hobs IH Hj Hu Hc].
  - constructor.
  - destruct (kill_frame _ _ _ _ _ Hk) as (_ & _ & _ & -> & _). exact IH.
  - pose proof (observed_reachable _ Hobs) as Hr.
    pose proof (cons_live _ (reachable_consistent _ Hr)) as H1.
    pose proof (reachable_at_most_configured _ Hr) as H5.
    rewrite (check_values jitter u self H1) in Hc. injection Hc as _ <-.
    simpl. destruct (Qltb u _); [|exact IH].
    apply Forall_app. split; [exact IH|]. constructor; [|constructor].
    apply response_time_band; [|exact Hj].
    unfold len in H5. simpl in H5. lia.
Qed.

(** *** The report, field by field *)

Lemma chaos_report_value self rate avg d :
  (if 0 <? total_requests (results self)
   then q ← truediv (of_int (successful_requests (results self)))
                    (of_int (total_requests (results self)));
        mret (q * 100)%Q
   else mret 0%Q) = Ok rate ->
  average (response_times (results self)) = Ok avg ->
  test_duration (results self) = Some d ->
  generate_report self
  = Ok {| success_rate := rate;
          failure_rate := (100 - rate)%Q;
          avg_response_time := avg;
          servers_killed := len (server_failures (results self));
          servers_still_active := len (active_servers self);
          success_rate_verdict :=
            if Qgeb rate 99.9 then PASS
            else if Qgeb rate 95 then ACCEPTABLE else FAIL;
          response_time_verdict := if Qltb avg 3000 then PASS else FAIL;
          overall := Qgeb rate 95 && Qltb avg 3000;
          duration := d |}.
Proof.
  intros Hr Ha Hd. unfold generate_report. rewrite Hr, Ha. simpl.
  rewrite Hd. reflexivity.
Qed.

Lemma chaos_report_fields self rep :
  generate_report self = Ok rep ->
  exists rate avg d,
    (if 0 <? total_requests (results self)
     then q ← truediv (of_int (successful_requests (results self)))
                      (of_int (total_requests (results self)));
          mret (q * 100)%Q
     else mret 0%Q) = Ok rate
    /\ average (response_times (results self)) = Ok avg
    /\ test_duration (results self) = Some d
    /\ rep = {| success_rate := rate;
                failure_rate := (100 - rate)%Q;
                avg_response_time := avg;
                servers_killed := len (server_failures (results self));
                servers_still_active := len (active_servers self);
                success_rate_verdict :=
                  if Qgeb rate 99.9 then PASS
                  else if Qgeb rate 95 then ACCEPTABLE else FAIL;
                response_time_verdict :=
                  if Qltb avg 3000 then PASS else FAIL;
                overall := Qgeb rate 95 && Qltb avg 3000;
                duration := d |}.
Proof.
  intros H.
  destruct (success_rate_defined (total_requests (results self))
              (successful_requests (results self))) as (rate & Hr & _).
  destruct (average_defined (response_times (results self)))
    as (avg & Ha & _).
  destruct (test_duration (results self)) as [d|] eqn:Hd.
  - exists rate, avg, d. repeat split; auto.
    rewrite (chaos_report_value self rate avg d Hr Ha Hd) in H.
    injection H as <-. reflexivity.
  - unfold generate_report in H. rewrite Hr, Ha in H. simpl in H.
    rewrite Hd in H. discriminate.
Qed.

Lemma chaos_report_error self e :
  generate_report self = Err e ->
  e = KeyError /\ test_duration (results self) = None.
Proof.
  unfold generate_report.
  destruct (success_rate_defined (total_requests (results self))
              (successful_requests (results self))) as (rate & -> & _).
  destruct (average_defined (response_times (results self)))
    as (avg & -> & _).
  simpl. destruct (test_duration (results self)); simpl; intros [= <-]; auto.
Qed.

Lemma average_band times avg :
  average times = Ok avg -> Forall in_band times ->
  (times = [] /\ avg = 0%Q) \/ (times <> [] /\ in_band avg).
Proof.
  intros Ha Hall. destruct (average_defined times) as (q & Hq & H0 & Hne).
  rewrite Hq in Ha. injection Ha as <-.
  destruct times as [|t times]; [left; auto|]. right.
  split; [discriminate|]. rewrite Hne by discriminate.
  apply (average_bounds 100 550); [discriminate | exact Hall].
Qed.

(** *** Failures are counted, never negative *)

Lemma reachable_failed_nonneg self :
  reachable self -> 0 <= failed_requests (results self).
Proof.
  induction 1 as [|k now self o self' Hr IH Hk|jitter u self b self' Hr IH Hc].
  - simpl. lia.
  - destruct (kill_frame _ _ _ _ _ Hk) as (_ & _ & -> & _). exact IH.
  - pose proof (cons_live _ (reachable_consistent _ Hr)) as H1.
    rewrite (check_values jitter u self H1) in Hc. injection Hc as _ <-.
    simpl. destruct (Qltb u _); lia.
Qed.

(** *** What an operation leaves in place *)

Lemma list_remove_sublist {A : Type} `{EqDecision A} (x : A) l l' :
  list_remove x l = Ok l' -> l' `sublist_of` l.
Proof.
  revert l'. induction l as [|y l IH]; intros l' H; simpl in H; [discriminate|].
  destruct (decide (y = x)) as [->|Hne].
  - injection H as <-. apply sublist_cons. reflexivity.
  - destruct (list_remove x l) as [l1|e] eqn:Hr; simpl in H; [|discriminate].
    injection H as <-. apply sublist_skip. apply IH. reflexivity.
Qed.

Lemma kill_order k now self o self' :
  kill_random_server k now self = Ok (o, self') ->
  active_servers self' `sublist_of` active_servers self
  /\ server_failures (results self)
     `prefix_of` server_failures (results self').
Proof.
  intros H. destruct (Z_lt_le_dec 1 (live_count self)) as [Hgt|Hle].
  - destruct (kill_spec k now self Hgt) as (x & rest & _ & _ & Hr & Hk).
    rewrite Hk in H. injection H as <- <-. simpl. split.
    + eapply list_remove_sublist; eauto.
    + apply prefix_app_r. reflexivity.
  - rewrite (kill_noop k now self Hle) in H. injection H as <- <-.
    split; reflexivity.
Qed.

Lemma check_inv jitter u self b self' :
  check_system_health jitter u self = Ok (b, self') ->
  active_servers self <> []
  /\ active_servers self' = active_servers self
  /\ server_failures (results self') = server_failures (results self)
  /\ response_times (results self) `prefix_of` response_times (results self')
  /\ total_requests (results self') = total_requests (results self) + 1.
Proof.
  intros H. destruct (active_servers self) as [|x l] eqn:Ha.
  - unfold check_system_health, mock_health_check, base_response_time in H.
    simpl in H. rewrite Ha in H. discriminate.
  - assert (H1 : 1 <= live_count self).
    { unfold live_count, len. rewrite Ha. simpl. lia. }
    rewrite (check_values jitter u self H1) in H. injection H as <- <-.
    simpl. rewrite Ha. split; [discriminate|].
    split; [reflexivity|]. split; [reflexivity|]. split; [|reflexivity].
    destruct (Qltb u _); [apply prefix_app_r|]; reflexivity.
Qed.

Lemma check_empty jitter u self :
  active_servers self = [] ->
  check_system_health jitter u self = Err ZeroDivisionError
  /\ mock_health_check jitter u self = Err ZeroDivisionError.
Proof.
  intros Ha.
  unfold check_system_health, mock_health_check, base_response_time.
  simpl. rewrite Ha. split; reflexivity.
Qed.

Lemma chaos_round_inv rd self self' :
  chaos_round rd self = Ok self' ->
  exists self1 b,
    (self1 = self
     \/ exists o, kill_random_server (choice_draw rd) (kill_time rd) self
                  = Ok (o, self1))
    /\ check_system_health (jitter_draw rd) (health_draw rd) self1
       = Ok (b, self').
Proof.
  unfold chaos_round. intros H.
  destruct (Qltb (kill_draw rd) 0.4).
  - destruct (kill_random_server (choice_draw rd) (kill_time rd) self)
      as [[o s1]|e] eqn:Hk; simpl in H; [|discriminate].
    destruct (check_system_health (jitter_draw rd) (health_draw rd) s1)
      as [[b s2]|e] eqn:Hc; simpl in H; [|discriminate].
    injection H as <-. exists s1, b. split; [right; eauto | exact Hc].
  - simpl in H.
    destruct (check_system_health (jitter_draw rd) (health_draw rd) self)
      as [[b s2]|e] eqn:Hc; simpl in H; [|discriminate].
    injection H as <-. exists self, b. split; [left; reflexivity | exact Hc].
Qed.

Lemma chaos_round_order rd self self' :
  chaos_round rd self = Ok self' ->
  active_servers self' `sublist_of` active_servers self
  /\ server_failures (results self)
     `prefix_of` server_failures (results self')
  /\ response_times (results self) `prefix_of` response_times (results self')
  /\ total_requests (results self') = total_requests (results self) + 1.
Proof.
  intros H. apply chaos_round_inv in H as (s1 & b & Hk & Hc).
  apply check_inv in Hc as (_ & Ha & Hf & Ht & Hn).
  rewrite Ha, Hf, Hn. destruct Hk as [->|[o Hk]].
  - repeat split; auto; reflexivity.
  - destruct (kill_order _ _ _ _ _ Hk) as [Hs Hp].
    destruct (kill_frame _ _ _ _ _ Hk) as (Hn1 & _ & _ & Ht1 & _).
    rewrite <- Ht1, <- Hn1. repeat split; auto.
Qed.

Lemma chaos_rounds_order rds : forall self self',
  chaos_rounds rds self = Ok self' ->
  active_servers self' `sublist_of` active_servers self
  /\ server_failures (results self)
     `prefix_of` server_failures (results self')
  /\ response_times (results self) `prefix_of` response_times (results self')
  /\ total_requests (results self') = total_requests (results self) + len rds.
Proof.
  unfold len. induction rds as [|rd rds IH]; intros self self' H; simpl in H.
  - injection H as <-. simpl. repeat split; try reflexivity. lia.
  - destruct (chaos_round rd self) as [s1|e] eqn:Hr; simpl in H;
      [|discriminate].
    destruct (chaos_round_order _ _ _ Hr) as (A1 & F1 & T1 & N1).
    destruct (IH s1 self' H) as (A2 & F2 & T2 & N2).
    split; [etransitivity; eauto|]. split; [etransitivity; eauto|].
    split; [etransitivity; eauto|]. cbn [length]. lia.
Qed.

(** *** [run_test], step by step *)

Lemma run_test_inv t0 t1 jitter0 u0 rounds self self' rep :
  run_test t0 t1 jitter0 u0 rounds self = Ok (self', rep) ->
  exists b self1 self2,
    check_system_health jitter0 u0 self = Ok (b, self1)
    /\ chaos_rounds (map rounds (seq 0 NUM_HEALTH_CHECKS)) self1 = Ok self2
    /\ active_servers self' = active_servers self2
    /\ total_requests (results self') = total_requests (results self2)
    /\ successful_requests (results self')
       = successful_requests (results self2)
    /\ failed_requests (results self') = failed_requests (results self2)
    /\ response_times (results self') = response_times (results self2)
    /\ server_failures (results self') = server_failures (results self2)
    /\ test_duration (results self') = Some (t1 - t0)%Q
    /\ generate_report self' = Ok rep.
Proof.
  unfold run_test. intros H.
  destruct (check_system_health jitter0 u0 self) as [[b s1]|e] eqn:Hc;
    [|discriminate].
  cbn -[chaos_rounds NUM_HEALTH_CHECKS generate_report seq map] in H.
  destruct (chaos_rounds (map rounds (seq 0 NUM_HEALTH_CHECKS)) s1)
    as [s2|e] eqn:Hr; [|discriminate].
  cbn -[chaos_rounds NUM_HEALTH_CHECKS generate_report seq map] in H.
  match type of H with
  | context [generate_report ?s] =>
      destruct (generate_report s) as [rp|e] eqn:Hg; [|discriminate]
  end.
  cbn in H. injection H as <- <-.
  exists b, s1, s2. repeat split; auto.
Qed.

Lemma chaos_round_observed rd self self' :
  observed self ->
  unit_draw (jitter_draw rd) -> unit_draw (health_draw rd) ->
  chaos_round rd self = Ok self' ->
  observed self'.
Proof.
  intros Hobs Hj Hu H. apply chaos_round_inv in H as (s1 & b & Hk & Hc).
  eapply obs_check; [|exact Hj|exact Hu|exact Hc].
  destruct Hk as [->|[o Hk]]; [exact Hobs|]. eapply obs_kill; eauto.
Qed.

Lemma chaos_rounds_observed rds : forall self self',
  observed self ->
  Forall (fun rd => unit_draw (jitter_draw rd) /\ unit_draw (health_draw rd))
         rds ->
  chaos_rounds rds self = Ok self' ->
  observed self'.
Proof.
  induction rds as [|rd rds IH]; intros self self' Hobs Hall H; simpl in H.
  - injection H as <-. exact Hobs.
  - apply Forall_cons in Hall as [[Hj Hu] Hall].
    destruct (chaos_round rd self) as [s1|e] eqn:Hr; simpl in H;
      [|discriminate].
    eapply IH; [|exact Hall|exact H].
    eapply chaos_round_observed; eauto.
Qed.

Lemma reachable_pool_size self :
  reachable self ->
  live_count self + len (server_failures (results self)) = 5
  /\ 1 <= live_count self.
Proof.
  intros Hr. destruct (reachable_consistent self Hr) as [Hlive _ Hp _ _].
  apply Permutation_length in Hp. rewrite length_app in Hp.
  unfold killed in Hp. rewrite length_map in Hp. simpl in Hp.
  unfold live_count, len in *. lia.
Qed.

Lemma chaos_rounds_reachable rds : forall self self',
  reachable self -> chaos_rounds rds self = Ok self' -> reachable self'.
Proof.
  induction rds as [|rd rds IH]; intros self self' Hr H; simpl in H.
  - injection H as <-. exact Hr.
  - destruct (chaos_round rd self) as [s|e] eqn:Hrd; simpl in H;
      [|discriminate].
    apply (IH s); [|exact H].
    apply chaos_round_inv in Hrd as (s1 & b & Hk & Hc).
    eapply reach_check; [|exact Hc].
    destruct Hk as [->|[o Hk]]; [exact Hr|]. eapply reach_kill; eauto.
Qed.

(** What [run_test] hands to the report: a reachable object in which the
    duration has been stored. *)
Lemma run_test_reachable t0 t1 jitter0 u0 rounds self' rep :
  run_test t0 t1 jitter0 u0 rounds init = Ok (self', rep) ->
  exists self2,
    reachable self2
    /\ active_servers self' = active_servers self2
    /\ total_requests (results self') = total_requests (results self2)
    /\ successful_requests (results self')
       = successful_requests (results self2)
    /\ failed_requests (results self') = failed_requests (results self2)
    /\ response_times (results self') = response_times (results self2)
    /\ server_failures (results self') = server_failures (results self2)
    /\ test_duration (results self') = Some (t1 - t0)%Q
    /\ generate_report self' = Ok rep.
Proof.
  intros H. apply run_test_inv in H
    as (b & s1 & s2 & Hc & Hr & Ha & Ht & Hs & Hf & Hrt & Hsf & Hd & Hrep).
  exists s2. split; [|repeat split; assumption].
  eapply chaos_rounds_reachable; [|exact Hr].
  eapply reach_check; [apply reach_init | exact Hc].
Qed.

Lemma mock_health_check_total jitter u self :
  mock_health_check jitter u self
  = mock_health_check jitter u
      {| results :=
           {| total_requests := total_requests (results self) + 1;
              successful_requests := successful_requests (results self);
              failed_requests := failed_requests (results self);
              response_times := response_times (results self);
              server_failures := server_failures (results self);
              test_duration := test_duration (results self) |};
         active_servers := active_servers self |}.
Proof. reflexivity. Qed.

Lemma report_average_cases self rep :
  generate_report self = Ok rep ->
  (response_times (results self) <> [] ->
   avg_response_time rep
   = (sum (response_times (results self))
      / of_int (len (response_times (results self))))%Q)
  /\ (response_times (results self) = [] -> avg_response_time rep = 0%Q).
Proof.
  intros Hrep. split; [apply report_average; exact Hrep|]. intros Hnil.
  apply chaos_report_fields in Hrep as (rate & avg & d & _ & Ha & _ & ->).
  rewrite Hnil in Ha. injection Ha as <-. reflexivity.
Qed.

End AttritionMoreFacts.

(** ** The properties of the harness *)

Section DDoSClaims.

Import DDoS DDoSSpec DDoSFacts PyFacts.

(** C1. After the engine has joined all actor threads, the totals of each
    actor kind are exactly (number of actors) x (request budget), whatever
    the schedule and the draws: no update is lost and none is counted twice.
    In the demo configuration [normal_user_success + normal_user_fail] is
    5 x 3 = 15 and [bot_requests_sent] is 10 x 5 = 50.  Every schedule is
    finite, and a schedule that lets every [join] return exists. *)
Theorem C1_totals_exact (cfg : Config) (t0 t1 : Q) (sched : list (nat * Q))
    (self' : DDoSSimulation) (rep : result Report) :
  run_simulation cfg t0 t1 sched init = Some (self', rep) ->
  (normal_user_success (results self') + normal_user_fail (results self')
   = Z.of_nat (NORMAL_USERS cfg) * Z.of_nat (REQUESTS_PER_USER cfg)
   /\ bot_requests_sent (results self')
      = Z.of_nat (ATTACK_BOTS cfg) * Z.of_nat (REQUESTS_PER_BOT cfg))
  /\ (cfg = demo ->
      normal_user_success (results self') + normal_user_fail (results self')
      = 15
      /\ bot_requests_sent (results self') = 50)
  /\ (length sched <= measure cfg (spawn cfg init))%nat
  /\ exists sched0 out, run_simulation cfg t0 t1 sched0 init = Some out.
Proof.
  intros H. unfold run_simulation in H.
  set (self0 := with_results (set_start_time t0) init) in *.
  assert (Hi0 : inv cfg (spawn cfg self0)) by (apply inv_spawn; reflexivity).
  destruct (run cfg sched (spawn cfg self0)) as [w|] eqn:Hrun; [|discriminate].
  simpl in H. destruct (joined cfg w) eqn:Hj; [|discriminate].
  injection H as <- _.
  pose proof (inv_run _ _ _ _ Hi0 Hrun) as Hi.
  destruct (joined_totals cfg w Hi Hj) as [Hn Hb].
  split; [|split; [|split]].
  - simpl. split; [exact Hn | exact Hb].
  - intros ->. simpl. split; [exact Hn | exact Hb].
  - pose proof (run_bounded _ _ _ _ Hi0 Hrun) as Hlen.
    unfold measure in *. simpl in *. lia.
  - destruct (greedy_joins cfg 0%Q (measure cfg (spawn cfg self0))
                (spawn cfg self0) Hi0 (Nat.le_refl _)) as (w1 & Hr1 & Hj1).
    eexists _, _. unfold run_simulation. fold self0. rewrite Hr1. simpl.
    rewrite Hj1. reflexivity.
Qed.

Lemma C1_totals_exact_witness :
  exists self' rep,
    run_simulation demo 0 1 demo_schedule init = Some (self', rep)
    /\ normal_user_success (results self') + normal_user_fail (results self')
       = 15
    /\ bot_requests_sent (results self') = 50.
Proof.
  eexists _, _. split; [vm_compute; reflexivity|].
  refine (proj1 (proj2 (C1_totals_exact demo 0 1 demo_schedule _ _ _)) eq_refl).
  vm_compute. reflexivity.
Defined.

(** C2, as amended.  The policy evaluation reads the shared bot-request
    counter and does not increment it.  It leaves the flag set if it was
    set, and sets it exactly when the counter it read - the number of bot
    requests recorded so far - strictly exceeds 5: a counter of 5 does not
    activate protection, a counter of 6 does.  The counter is incremented
    afterwards, by the bot actor, once the evaluation has returned. *)
Theorem C2_activation_threshold (is_bot : bool) (r : Q)
    (self : DDoSSimulation) :
  let self' := snd (mock_server_response is_bot r self) in
  results self' = results self
  /\ ddos_protection_active self'
     = ddos_protection_active self || (5 <? bot_requests_sent (results self))
  /\ bot_requests_sent (results (bot_request r self))
     = bot_requests_sent (results self) + 1
  /\ ddos_protection_active (bot_request r self)
     = ddos_protection_active self || (5 <? bot_requests_sent (results self))
  /\ ddos_protection_active (snd (mock_server_response true r (with_sent 5)))
     = false
  /\ ddos_protection_active (snd (mock_server_response true r (with_sent 6)))
     = true.
Proof.
  simpl. repeat split.
  - apply detect_results.
  - apply detect_active.
  - unfold bot_request, mock_server_response.
    rewrite record_bot_sent, detect_sent. reflexivity.
  - unfold bot_request, mock_server_response.
    rewrite record_bot_active. apply detect_active.
Qed.

(** C2 as stated fails.  With five bot requests recorded, evaluating the
    sixth neither increments the counter nor sets the flag; when the bot has
    recorded it the counter is 6 = threshold + 1 and the flag is still
    clear. *)
Lemma C2_counterexample :
  let self := with_sent 5 in
  let self' := snd (mock_server_response true (1 # 2) self) in
  bot_requests_sent (results self') <> bot_requests_sent (results self) + 1
  /\ ddos_protection_active self'
     <> (5 <? bot_requests_sent (results self) + 1)
  /\ bot_requests_sent (results (bot_request (1 # 2) self)) = 6
  /\ ddos_protection_active (bot_request (1 # 2) self) = false.
Proof.
  vm_compute. repeat split; discriminate.
Qed.

(** C3. The protection flag is monotonic within a run: it starts false;
    the policy evaluation, the two recording blocks and every program point
    of every thread keep it true once it is true; along any schedule it goes
    from false to true at most once and never from true to false. *)
Theorem C3_flag_monotonic (cfg : Config) (sched : list (nat * Q))
    (self : DDoSSimulation) :
  ddos_protection_active init = false
  /\ (forall is_bot r,
        ddos_protection_active self = true ->
        ddos_protection_active (snd (mock_server_response is_bot r self))
        = true)
  /\ (forall status_code,
        ddos_protection_active (record_normal status_code self)
        = ddos_protection_active self
        /\ ddos_protection_active (record_bot status_code self)
           = ddos_protection_active self)
  /\ (forall tid r w w',
        step cfg tid r w = Some w' -> flag w = true -> flag w' = true)
  /\ (forall w w',
        run cfg sched w = Some w' -> flag w = true -> flag w' = true)
  /\ (rises (map flag (trace cfg sched (spawn cfg self))) <= 1)%nat
  /\ falls (map flag (trace cfg sched (spawn cfg self))) = 0%nat.
Proof.
  split; [reflexivity|]. split; [|split; [|split; [|split; [|split]]]].
  - intros is_bot r H. simpl. rewrite detect_active, H. reflexivity.
  - intros c. split; [apply record_normal_active | apply record_bot_active].
  - intros tid r w w'. apply step_flag.
  - intros w w'. apply run_flag.
  - destruct (trace_flips cfg sched (spawn cfg self)) as [Hr _].
    destruct (flag (spawn cfg self)); lia.
  - apply trace_flips.
Qed.

Lemma C3_flag_monotonic_witness :
  ddos_protection_active (with_active true (with_sent 2)) = true
  /\ ddos_protection_active
       (snd (mock_server_response true (1 # 2)
               (with_active true (with_sent 2)))) = true
  /\ (rises (map flag (trace demo demo_schedule (spawn demo init))) <= 1)%nat.
Proof.
  split; [reflexivity|]. split.
  - exact (proj1 (proj2 (C3_flag_monotonic demo demo_schedule
                           (with_active true (with_sent 2))))
             true (1 # 2) eq_refl).
  - exact (proj1 (proj2 (proj2 (proj2 (proj2 (proj2
             (C3_flag_monotonic demo demo_schedule init))))))).
Defined.

(** C9. The outcome of a Normal request does not depend on the attack
    state: with the same draw, two evaluations give the same status whatever
    the flag and the counters are, 200 when the draw is below 0.95 and 503
    otherwise.  The same holds of the program point of a normal-user thread
    that draws. *)
Theorem C9_normal_independent (r : Q) (self1 self2 : DDoSSimulation) :
  fst (mock_server_response false r self1)
  = fst (mock_server_response false r self2)
  /\ fst (mock_server_response false r self1)
     = (if Qltb r 0.95 then 200 else 503)
  /\ ((r < 0.95)%Q -> fst (mock_server_response false r self1) = 200)
  /\ ((0.95 <= r)%Q -> fst (mock_server_response false r self1) = 503)
  /\ (forall cfg tid n a1 a2,
        fst <$> thread_step cfg tid r self1
                  {| t_kind := Normal; t_iter := n; t_pc := Draw a1 |}
        = fst <$> thread_step cfg tid r self2
                    {| t_kind := Normal; t_iter := n; t_pc := Draw a2 |}).
Proof.
  unfold mock_server_response, respond. simpl. repeat split.
  - intros H. apply Qltb_lt in H. rewrite H. reflexivity.
  - intros H. apply Qltb_ge in H. rewrite H. reflexivity.
Qed.

Lemma C9_normal_independent_witness :
  fst (mock_server_response false (1 # 2) init) = 200
  /\ fst (mock_server_response false (1 # 2)
            (with_active true (with_sent 40))) = 200
  /\ fst (mock_server_response false (97 # 100)
            (with_active true (with_sent 40))) = 503.
Proof.
  split; [|split].
  - apply (proj1 (proj2 (proj2
             (C9_normal_independent (1 # 2) init init)))).
    reflexivity.
  - apply (proj1 (proj2 (proj2
             (C9_normal_independent (1 # 2)
                (with_active true (with_sent 40)) init)))).
    reflexivity.
  - apply (proj1 (proj2 (proj2 (proj2
             (C9_normal_independent (97 # 100)
                (with_active true (with_sent 40)) init))))).
    discriminate.
Defined.

End DDoSClaims.

Section AttritionClaims.

Import Attrition AttritionSpec AttritionFacts PyFacts.
Import AttritionMore AttritionMoreFacts PyMoreFacts.

(** C4. In every reachable state of the server pool at least one server is
    live, and so it is after any further [kill_random_server]; with exactly
    one server left, [kill_random_server] returns no server ([None]) and
    leaves the object, hence the live count of 1, as it was. *)
Theorem C4_pool_never_empty (self : ChaosTest) :
  reachable self ->
  1 <= live_count self
  /\ (forall k now o self',
        kill_random_server k now self = Ok (o, self') ->
        1 <= live_count self')
  /\ (live_count self = 1 ->
      forall k now, kill_random_server k now self = Ok (None, self)).
Proof.
  intros Hr. pose proof (reachable_consistent self Hr) as Hc.
  split; [exact (cons_live _ Hc)|]. split.
  - intros k now o self' Hk.
    exact (cons_live _ (kill_consistent _ _ _ _ _ Hc Hk)).
  - intros H1 k now. apply kill_noop. lia.
Qed.

Lemma C4_pool_never_empty_witness :
  live_count last_survivor = 1
  /\ kill_random_server 7 9 last_survivor = Ok (None, last_survivor).
Proof.
  split; [reflexivity|].
  exact (proj2 (proj2 (C4_pool_never_empty last_survivor
                         last_survivor_reachable)) eq_refl 7%nat 9).
Defined.

(** C5. With more than one server live, [kill_random_server] returns the
    server [random.choice] selects - a live one, each live server being
    selected by exactly one of the equally likely outcomes of the
    generator -, removes that server and no other from the live list,
    appends it with its timestamp to [server_failures], and keeps the live
    and the killed servers disjoint.  Hence three kills from the initial 5
    servers leave 2 live, and with 1 live any number of further kills
    changes nothing. *)
Theorem C5_kill_moves_one_server (k : nat) (now : Z) (self : ChaosTest) :
  reachable self ->
  1 < live_count self ->
  exists chosen self',
    kill_random_server k now self = Ok (Some chosen, self')
    /\ choice k (active_servers self) = Ok chosen
    /\ chosen ∈ active_servers self
    /\ (forall x, x ∈ active_servers self ->
                  chances x (active_servers self) = 1%nat)
    /\ list_remove chosen (active_servers self) = Ok (active_servers self')
    /\ active_servers self ≡ₚ chosen :: active_servers self'
    /\ (chosen ∉ active_servers self')
    /\ live_count self' = live_count self - 1
    /\ server_failures (results self')
       = server_failures (results self)
         ++ [ {| time := now; server := chosen |} ]
    /\ (forall x, x ∈ active_servers self' -> x ∉ killed self')
    /\ (forall d1 d2 d3,
          exists s, kills [d1; d2; d3] init = Ok s /\ live_count s = 2)
    /\ (forall draws s, live_count s = 1 -> kills draws s = Ok s).
Proof.
  intros Hr Hn. pose proof (reachable_consistent self Hr) as Hc.
  destruct (kill_spec k now self Hn) as (x & rest & Hch & Hin & Hrm & Hk).
  pose proof (kill_consistent _ _ _ _ _ Hc Hk) as Hc'.
  pose proof (list_remove_perm _ _ _ Hrm) as Hp.
  pose proof (cons_nodup _ Hc) as Hnd. apply NoDup_app in Hnd as (Hnd & _ & _).
  eexists x, _. split; [exact Hk|]. simpl.
  repeat match goal with |- _ /\ _ => split end; auto.
  - intros y Hy. apply chances_one; assumption.
  - rewrite Hp in Hnd. apply NoDup_cons in Hnd. tauto.
  - apply Permutation_length in Hp. unfold live_count, len in *. simpl in *.
    lia.
  - pose proof (cons_nodup _ Hc') as Hnd'.
    apply NoDup_app in Hnd' as (_ & Hdisj & _). exact Hdisj.
  - intros [k1 n1] [k2 n2] [k3 n3]. simpl.
    destruct (kill_live_count k1 n1 init) as (c1 & s1 & -> & H1);
      [vm_compute; reflexivity|].
    simpl. destruct (kill_live_count k2 n2 s1) as (c2 & s2 & -> & H2);
      [rewrite H1; vm_compute; reflexivity|].
    simpl. destruct (kill_live_count k3 n3 s2) as (c3 & s3 & -> & H3);
      [rewrite H2, H1; vm_compute; reflexivity|].
    simpl. exists s3. split; [reflexivity|]. rewrite H3, H2, H1. reflexivity.
  - intros draws s H1. apply kills_noop. lia.
Qed.

Lemma C5_kill_moves_one_server_witness :
  exists chosen self',
    kill_random_server 7 9 init = Ok (Some chosen, self')
    /\ (chosen ∉ active_servers self')
    /\ live_count self' = 4.
Proof.
  destruct (C5_kill_moves_one_server 7 9 init reach_init eq_refl)
    as (chosen & self' & Hk & _ & _ & _ & _ & _ & Hout & Hlive & _).
  exists chosen, self'. split; [exact Hk|]. split; [exact Hout | exact Hlive].
Defined.

(** C6. With N >= 1 live servers a health check succeeds exactly when the
    draw from [[0, 1)] is below 0.95 + (N - 1) * 0.01 clamped to [[0, 1]]:
    that clamped value is the probability of success.  Up to N = 6, which
    covers every reachable pool, it is the value the code computes; it is
    non-decreasing in N. *)
Theorem C6_success_probability (jitter u : Q) (self : ChaosTest) :
  1 <= live_count self ->
  (0 <= u)%Q -> (u < 1)%Q ->
  let n := live_count self in
  let p := clamp01 (0.95 + of_int (n - 1) * 0.01) in
  (exists response_time,
     mock_health_check jitter u self = Ok (Qltb u p, response_time))
  /\ (exists self',
        check_system_health jitter u self = Ok (Qltb u p, self'))
  /\ (n <= 6 -> (success_probability n == p)%Q)
  /\ (reachable self -> n <= 5)
  /\ (forall m, n <= m -> (p <= clamp01 (0.95 + of_int (m - 1) * 0.01))%Q).
Proof.
  intros Hn Hu0 Hu1 n p.
  assert (Hb : Qltb u (success_probability n) = Qltb u p).
  { apply eq_true_iff_eq. rewrite !Qltb_lt. apply clamp01_lt; assumption. }
  split; [|split; [|split; [|split]]].
  - eexists. rewrite mock_health_check_ok by exact Hn. fold n.
    rewrite Hb. reflexivity.
  - destruct (check_spec jitter u self Hn) as [t ->]. fold n.
    rewrite Hb. eexists; reflexivity.
  - intros H6. symmetry. apply clamp01_id;
      apply (success_probability_range n); lia.
  - intros Hr. apply (reachable_at_most_configured self Hr).
  - intros m Hm. apply clamp01_mono. apply (success_probability_mono n m Hm).
Qed.

Lemma C6_success_probability_witness :
  (exists self', check_system_health (1 # 3) (1 # 2) init = Ok (true, self'))
  /\ (success_probability 5 == 0.99)%Q.
Proof.
  pose proof (C6_success_probability (1 # 3) (1 # 2) init) as H.
  specialize (H ltac:(vm_compute; discriminate)
                ltac:(vm_compute; discriminate) eq_refl).
  destruct H as (_ & Hc & Hv & _). split.
  - exact Hc.
  - rewrite (Hv ltac:(vm_compute; discriminate)). vm_compute. reflexivity.
Defined.

(** C10. In the attrition demo a latency sample is recorded only when a
    health check succeeds.  After every [check_system_health] on a reachable
    object, [response_times] has as many entries as [successful_requests]
    counts and [total_requests] is [successful_requests] plus
    [failed_requests]: a success appends one sample, the response time the
    mock returned, and a failure appends none.  The average the report
    prints for these samples, and the one [run_test] reports at its end, is
    their sum over the number of successful requests (and 0 when there is
    none). *)
Theorem C10_samples_only_on_success (jitter u : Q) (self : ChaosTest) :
  reachable self ->
  exists b self',
    check_system_health jitter u self = Ok (b, self')
    /\ len (response_times (results self'))
       = successful_requests (results self')
    /\ total_requests (results self')
       = successful_requests (results self') + failed_requests (results self')
    /\ total_requests (results self') = total_requests (results self) + 1
    /\ (b = true ->
        (exists t, response_times (results self')
                   = response_times (results self) ++ [t])
        /\ successful_requests (results self')
           = successful_requests (results self) + 1
        /\ failed_requests (results self') = failed_requests (results self))
    /\ (b = false ->
        response_times (results self') = response_times (results self)
        /\ successful_requests (results self')
           = successful_requests (results self)
        /\ failed_requests (results self')
           = failed_requests (results self) + 1)
    /\ (exists t,
          mock_health_check jitter u self = Ok (b, t)
          /\ (b = true ->
              response_times (results self')
              = response_times (results self) ++ [t]
              /\ sum (response_times (results self'))
                 = (sum (response_times (results self)) + t)%Q))
    /\ (exists rep,
          generate_report
            (tallied (total_requests (results self'))
                     (successful_requests (results self'))
                     (failed_requests (results self'))
                     (response_times (results self'))) = Ok rep
          /\ (response_times (results self') <> [] ->
              avg_response_time rep
              = (sum (response_times (results self'))
                 / of_int (successful_requests (results self')))%Q)
          /\ (response_times (results self') = [] ->
              avg_response_time rep = 0%Q))
    /\ (forall s rep,
          response_times (results s) = response_times (results self') ->
          generate_report s = Ok rep ->
          (response_times (results self') <> [] ->
           avg_response_time rep
           = (sum (response_times (results self'))
              / of_int (successful_requests (results self')))%Q)
          /\ (response_times (results self') = [] ->
              avg_response_time rep = 0%Q))
    /\ (forall t0 t1 jitter0 u0 rounds,
        exists s rep,
          run_test t0 t1 jitter0 u0 rounds init = Ok (s, rep)
          /\ generate_report s = Ok rep
          /\ test_duration (results s) = Some (t1 - t0)%Q
          /\ len (response_times (results s))
             = successful_requests (results s)
          /\ total_requests (results s)
             = successful_requests (results s)
               + failed_requests (results s)
          /\ (response_times (results s) <> [] ->
              avg_response_time rep
              = (sum (response_times (results s))
                 / of_int (successful_requests (results s)))%Q)
          /\ (response_times (results s) = [] ->
              avg_response_time rep = 0%Q
              /\ successful_requests (results s) = 0)).
Proof.
  intros Hr. pose proof (reachable_consistent self Hr) as Hc.
  pose proof (cons_live _ Hc) as Hlive.
  pose proof (check_values jitter u self Hlive) as Hk.
  pose proof (check_consistent _ _ _ _ _ Hc Hk) as Hc'.
  eexists _, _. split; [exact Hk|].
  split; [exact (cons_samples _ Hc')|]. split; [exact (cons_total _ Hc')|].
  split; [reflexivity|]. split; [|split; [|split; [|split; [|split]]]].
  - simpl. intros ->. eauto.
  - simpl. intros ->. auto.
  - eexists. split; [apply mock_health_check_ok; exact Hlive|].
    simpl. intros ->. split; [reflexivity | apply sum_snoc].
  - match goal with
    | |- exists rep, generate_report ?s = _ /\ _ =>
        destruct (chaos_report_total s) as [rep Hrep];
        [eexists; reflexivity|]
    end.
    exists rep. split; [exact Hrep|].
    destruct (report_average_cases _ rep Hrep) as [Hne Hnil].
    cbn [tallied results response_times] in Hne, Hnil.
    rewrite <- (cons_samples _ Hc'). split; assumption.
  - intros s rep Htimes Hrep.
    destruct (report_average_cases s rep Hrep) as [Hne Hnil].
    rewrite Htimes in Hne, Hnil. rewrite <- (cons_samples _ Hc').
    split; assumption.
  - intros t0 t1 jitter0 u0 rounds.
    destruct (run_test_total t0 t1 jitter0 u0 rounds)
      as (s & rep & Hrun & _).
    exists s, rep. split; [exact Hrun|].
    apply run_test_reachable in Hrun
      as (s2 & R2 & _ & Ht & Hs & Hf & Hrt & _ & Hdur & Hrep).
    split; [exact Hrep|]. split; [exact Hdur|].
    destruct (reachable_consistent s2 R2) as [_ _ _ Hsam Htot].
    destruct (report_average_cases s rep Hrep) as [Hne Hnil].
    rewrite Ht, Hs, Hf, Hrt in *. rewrite <- Hsam.
    split; [reflexivity|]. split; [rewrite Hsam; exact Htot|].
    split; [exact Hne|]. intros H0. split; [exact (Hnil H0)|].
    rewrite H0. reflexivity.
Qed.

Lemma C10_samples_only_on_success_witness :
  (exists b self',
     check_system_health (1 # 3) (1 # 2) init = Ok (b, self')
     /\ len (response_times (results self'))
        = successful_requests (results self')
     /\ (sum (response_times (results self')) == 350 # 3)%Q)
  /\ (exists s rep,
        run_test 0 3 (1 # 3) (1 # 4) calm_round init = Ok (s, rep)
        /\ successful_requests (results s) = 11
        /\ (avg_response_time rep == 350 # 3)%Q)
  /\ (exists s rep,
        run_test 0 3 (1 # 3) (1 # 4) rough_round init = Ok (s, rep)
        /\ successful_requests (results s) = 2
        /\ failed_requests (results s) = 9
        /\ len (response_times (results s)) = 2
        /\ (avg_response_time rep == 775 # 6)%Q).
Proof.
  destruct (C10_samples_only_on_success (1 # 3) (1 # 2) init reach_init)
    as (b & self' & Hk & Hs & _ & _ & _ & _ & (t & Hm & Hsum) & _ & _
        & Hrun).
  split; [|split].
  - exists b, self'. split; [exact Hk|]. split; [exact Hs|].
    vm_compute in Hm. injection Hm as <- <-.
    destruct (Hsum eq_refl) as [_ ->]. vm_compute. reflexivity.
  - destruct (Hrun 0%Q 3%Q (1 # 3) (1 # 4) calm_round)
      as (s & rep & Hr & _ & _ & _ & _ & Havg & _).
    exists s, rep. split; [exact Hr|].
    rewrite (Havg ltac:(vm_compute in Hr; injection Hr as <- _;
                        discriminate 1)).
    vm_compute in Hr. injection Hr as <- _.
    split; [reflexivity|]. vm_compute. reflexivity.
  - destruct (Hrun 0%Q 3%Q (1 # 3) (1 # 4) rough_round)
      as (s & rep & Hr & _ & _ & Hlen & _ & Havg & _).
    exists s, rep. split; [exact Hr|].
    rewrite Hlen.
    rewrite (Havg ltac:(vm_compute in Hr; injection Hr as <- _;
                        discriminate 1)).
    vm_compute in Hr. injection Hr as <- _.
    split; [reflexivity|]. split; [reflexivity|]. split; [reflexivity|].
    vm_compute. reflexivity.
Defined.

End AttritionClaims.

Section EvaluatorClaims.

Import PyFacts PyMoreFacts.

(** C7. The overall verdict of each report is the conjunction of its
    criteria, and each criterion is decided by the counters of the run.
    DDoS scenario: the report is resilient exactly when normal user access
    passes (the success rate, successes over normal requests times 100,
    is >= 95) and bot blocking passes (the block rate, blocked over sent
    times 100, is >= 80).  Attrition scenario: exactly when the success
    rate, successes over requests times 100, is not a FAIL (>= 95) and the
    average response time, the sum of the samples over their number,
    passes (< 3000).  A success rate of 96 with a block rate of 82 passes
    overall; with a block rate of 60 the overall verdict fails, bot blocking
    being the criterion that fails and normal user access passing. *)
Theorem C7_overall_is_conjunction
    (d : DDoS.DDoSSimulation) (rd : DDoS.Report)
    (a : Attrition.ChaosTest) (ra : Attrition.Report) :
  DDoS.generate_report d = Ok rd ->
  Attrition.generate_report a = Ok ra ->
  (DDoS.overall rd
   = DDoSSpec.passed (DDoS.normal_user_access rd)
     && DDoSSpec.passed (DDoS.bot_blocking rd)
   /\ (DDoS.normal_user_access rd = DDoS.PASS
       <-> (95 <= DDoS.normal_success_rate rd)%Q)
   /\ (DDoS.bot_blocking rd = DDoS.PASS
       <-> (80 <= DDoS.bot_block_rate rd)%Q))
  /\ (Attrition.overall ra
      = AttritionSpec.passed (Attrition.success_rate_verdict ra)
        && AttritionSpec.passed (Attrition.response_time_verdict ra)
      /\ (AttritionSpec.passed (Attrition.success_rate_verdict ra) = true
          <-> (95 <= Attrition.success_rate ra)%Q)
      /\ (AttritionSpec.passed (Attrition.response_time_verdict ra) = true
          <-> (Attrition.avg_response_time ra < 3000)%Q))
  /\ ((DDoS.normal_success_rate rd == 96)%Q ->
      (DDoS.bot_block_rate rd == 82)%Q ->
      DDoS.overall rd = true)
  /\ ((DDoS.normal_success_rate rd == 96)%Q ->
      (DDoS.bot_block_rate rd == 60)%Q ->
      DDoS.overall rd = false
      /\ DDoS.normal_user_access rd = DDoS.PASS
      /\ DDoS.bot_blocking rd = DDoS.FAIL)
  /\ ((0 < DDoS.normal_user_success (DDoS.results d)
           + DDoS.normal_user_fail (DDoS.results d) ->
       DDoS.normal_success_rate rd
       = (of_int (DDoS.normal_user_success (DDoS.results d))
          / of_int (DDoS.normal_user_success (DDoS.results d)
                    + DDoS.normal_user_fail (DDoS.results d)) * 100)%Q)
      /\ (0 < DDoS.bot_requests_sent (DDoS.results d) ->
          DDoS.bot_block_rate rd
          = (of_int (DDoS.bot_requests_blocked (DDoS.results d))
             / of_int (DDoS.bot_requests_sent (DDoS.results d)) * 100)%Q)
      /\ (DDoS.normal_user_access rd = DDoS.PASS
          <-> 0 < DDoS.normal_user_success (DDoS.results d)
                  + DDoS.normal_user_fail (DDoS.results d)
              /\ 95 * (DDoS.normal_user_success (DDoS.results d)
                       + DDoS.normal_user_fail (DDoS.results d))
                 <= 100 * DDoS.normal_user_success (DDoS.results d))
      /\ (DDoS.bot_blocking rd = DDoS.PASS
          <-> 0 < DDoS.bot_requests_sent (DDoS.results d)
              /\ 80 * DDoS.bot_requests_sent (DDoS.results d)
                 <= 100 * DDoS.bot_requests_blocked (DDoS.results d)))
  /\ ((0 < Attrition.total_requests (Attrition.results a) ->
       Attrition.success_rate ra
       = (of_int (Attrition.successful_requests (Attrition.results a))
          / of_int (Attrition.total_requests (Attrition.results a)) * 100)%Q)
      /\ (Attrition.response_times (Attrition.results a) <> [] ->
          Attrition.avg_response_time ra
          = (sum (Attrition.response_times (Attrition.results a))
             / of_int (len (Attrition.response_times
                              (Attrition.results a))))%Q)
      /\ (Attrition.response_times (Attrition.results a) = [] ->
          Attrition.avg_response_time ra = 0%Q)
      /\ (AttritionSpec.passed (Attrition.success_rate_verdict ra) = true
          <-> 0 < Attrition.total_requests (Attrition.results a)
              /\ 95 * Attrition.total_requests (Attrition.results a)
                 <= 100 * Attrition.successful_requests
                            (Attrition.results a))
      /\ (Attrition.success_rate_verdict ra = Attrition.PASS
          <-> 0 < Attrition.total_requests (Attrition.results a)
              /\ 999 * Attrition.total_requests (Attrition.results a)
                 <= 1000 * Attrition.successful_requests
                             (Attrition.results a)))
  /\ (0 < DDoS.normal_user_success (DDoS.results d)
          + DDoS.normal_user_fail (DDoS.results d) ->
      100 * DDoS.normal_user_success (DDoS.results d)
      = 96 * (DDoS.normal_user_success (DDoS.results d)
              + DDoS.normal_user_fail (DDoS.results d)) ->
      0 < DDoS.bot_requests_sent (DDoS.results d) ->
      (100 * DDoS.bot_requests_blocked (DDoS.results d)
       = 82 * DDoS.bot_requests_sent (DDoS.results d) ->
       DDoS.overall rd = true)
      /\ (100 * DDoS.bot_requests_blocked (DDoS.results d)
          = 60 * DDoS.bot_requests_sent (DDoS.results d) ->
          DDoS.overall rd = false
          /\ DDoS.normal_user_access rd = DDoS.PASS
          /\ DDoS.bot_blocking rd = DDoS.FAIL)).
Proof.
  intros Hd Ha. assert (Hd0 : true = true) by reflexivity.
  apply DDoSFacts.ddos_report_inv in Hd
    as (sr & br & Rs & Rb & Hsr & Hbr & Hacc & Hblk & Hov).
  pose proof (AttritionMoreFacts.report_average_cases a ra Ha) as [Avg Avg0].
  apply AttritionMoreFacts.chaos_report_fields in Ha
    as (rate & avg & dur & Rr & Ra & _ & ->).
  cbn [Attrition.success_rate Attrition.avg_response_time
       Attrition.success_rate_verdict Attrition.response_time_verdict
       Attrition.overall] in *.
  rewrite Hsr, Hbr, Hacc, Hblk, Hov.
  clear Hsr Hbr Hacc Hblk Hov.
  unfold DDoS.rate in Rs, Rb.
  pose proof (percentage_threshold _ _ _ 95 1 Rs ltac:(lia)) as Ts.
  pose proof (percentage_threshold _ _ _ 80 1 Rb ltac:(lia)) as Tb.
  pose proof (percentage_threshold _ _ _ 95 1 Rr ltac:(lia)) as Tr.
  pose proof (percentage_threshold _ _ _ 999 10 Rr ltac:(lia)) as Tr9.
  change (95 # 1) with 95%Q in Ts, Tr. change (80 # 1) with 80%Q in Tb.
  change (999 # 10) with 99.9%Q in Tr9.
  split; [|split; [|split; [|split; [|split; [|split]]]]].
  - split; [|split].
    + destruct (Qgeb sr 95), (Qgeb br 80); reflexivity.
    + rewrite <- Qgeb_le. destruct (Qgeb sr 95); split; congruence.
    + rewrite <- Qgeb_le. destruct (Qgeb br 80); split; congruence.
  - split; [|split].
    + destruct (Qgeb rate 99.9) eqn:H999, (Qgeb rate 95) eqn:H95,
        (Qltb avg 3000); try reflexivity.
      apply Qgeb_le in H999. apply Qgeb_lt in H95. lra.
    + rewrite <- Qgeb_le.
      destruct (Qgeb rate 99.9) eqn:H999, (Qgeb rate 95) eqn:H95; simpl;
        split; try congruence.
      apply Qgeb_le in H999. apply Qgeb_lt in H95. lra.
    + rewrite <- Qltb_lt. destruct (Qltb avg 3000); simpl; split; congruence.
  - intros H96 H82.
    assert (H1 : Qgeb sr 95 = true) by (apply Qgeb_le; lra).
    assert (H2 : Qgeb br 80 = true) by (apply Qgeb_le; lra).
    rewrite H1, H2. reflexivity.
  - intros H96 H60.
    assert (H1 : Qgeb sr 95 = true) by (apply Qgeb_le; lra).
    assert (H2 : Qgeb br 80 = false) by (apply Qgeb_lt; lra).
    rewrite H1, H2. repeat split.
  - split; [|split; [|split]].
    + intros Hpos.
      destruct (percentage_cases
                  (DDoS.normal_user_success (DDoS.results d))
                  (DDoS.normal_user_success (DDoS.results d)
                   + DDoS.normal_user_fail (DDoS.results d)))
        as [[_ E]|[Hle _]]; [|lia].
      rewrite E in Rs. injection Rs as <-. reflexivity.
    + intros Hpos.
      destruct (percentage_cases
                  (DDoS.bot_requests_blocked (DDoS.results d))
                  (DDoS.bot_requests_sent (DDoS.results d)))
        as [[_ E]|[Hle _]]; [|lia].
      rewrite E in Rb. injection Rb as <-. reflexivity.
    + destruct (Qgeb sr 95); split; try congruence.
      * intros _. apply (proj1 Ts) in Hd0. lia.
      * intros H. assert (X : false = true) by (apply (proj2 Ts); lia).
        discriminate X.
    + destruct (Qgeb br 80); split; try congruence.
      * intros _. apply (proj1 Tb) in Hd0. lia.
      * intros H. assert (X : false = true) by (apply (proj2 Tb); lia).
        discriminate X.
  - split; [|split; [|split; [|split]]].
    + intros Hpos.
      destruct (percentage_cases
                  (Attrition.successful_requests (Attrition.results a))
                  (Attrition.total_requests (Attrition.results a)))
        as [[_ E]|[Hle _]]; [|lia].
      rewrite E in Rr. injection Rr as <-. reflexivity.
    + exact Avg.
    + exact Avg0.
    + destruct (Qgeb rate 99.9) eqn:H999, (Qgeb rate 95) eqn:H95; simpl;
        split; try congruence.
      * intros _. apply (proj1 Tr) in Hd0. lia.
      * apply Qgeb_le in H999. apply Qgeb_lt in H95. lra.
      * intros _. apply (proj1 Tr) in Hd0. lia.
      * intros H. assert (X : false = true) by (apply (proj2 Tr); lia).
        discriminate X.
    + destruct (Qgeb rate 99.9), (Qgeb rate 95); split; try congruence.
      * intros _. apply (proj1 Tr9) in Hd0. lia.
      * intros _. apply (proj1 Tr9) in Hd0. lia.
      * intros H. assert (X : false = true) by (apply (proj2 Tr9); lia).
        discriminate X.
      * intros H. assert (X : false = true) by (apply (proj2 Tr9); lia).
        discriminate X.
  - intros Hpos H96 Hsent.
    assert (H1 : Qgeb sr 95 = true) by (apply Ts; lia).
    rewrite H1. split.
    + intros H82.
      assert (H2 : Qgeb br 80 = true) by (apply Tb; lia).
      rewrite H2. reflexivity.
    + intros H60.
      assert (H2 : Qgeb br 80 = false).
      { destruct (Qgeb br 80); [|reflexivity].
        apply (proj1 Tb) in Hd0. lia. }
      rewrite H2. repeat split.
Qed.

Lemma C7_overall_is_conjunction_witness :
  (exists rd ra,
     DDoS.generate_report (DDoSSpec.tallied 24 1 50 41) = Ok rd
     /\ Attrition.generate_report
          (AttritionSpec.tallied 20 19 1 [120; 130]%Q) = Ok ra
     /\ (DDoS.normal_success_rate rd == 96)%Q
     /\ (DDoS.bot_block_rate rd == 82)%Q
     /\ DDoS.overall rd = true
     /\ (Attrition.success_rate ra == 95)%Q
     /\ (Attrition.avg_response_time ra == 125)%Q
     /\ Attrition.overall ra = true)
  /\ (exists rd ra,
        DDoS.generate_report (DDoSSpec.tallied 24 1 50 30) = Ok rd
        /\ Attrition.generate_report
             (AttritionSpec.tallied 20 18 2 [2000; 5000]%Q) = Ok ra
        /\ (DDoS.bot_block_rate rd == 60)%Q
        /\ DDoS.overall rd = false
        /\ DDoS.normal_user_access rd = DDoS.PASS
        /\ DDoS.bot_blocking rd = DDoS.FAIL
        /\ (Attrition.success_rate ra == 90)%Q
        /\ (Attrition.avg_response_time ra == 3500)%Q
        /\ Attrition.success_rate_verdict ra = Attrition.FAIL
        /\ Attrition.response_time_verdict ra = Attrition.FAIL
        /\ Attrition.overall ra = false).
Proof.
  destruct (DDoSFacts.ddos_report_total (DDoSSpec.tallied 24 1 50 41))
    as [r1 H1]; [eexists; reflexivity | eexists; reflexivity |].
  destruct (DDoSFacts.ddos_report_total (DDoSSpec.tallied 24 1 50 30))
    as [r2 H2]; [eexists; reflexivity | eexists; reflexivity |].
  destruct (AttritionFacts.chaos_report_total
              (AttritionSpec.tallied 20 19 1 [120; 130]%Q))
    as [r3 H3]; [eexists; reflexivity |].
  destruct (AttritionFacts.chaos_report_total
              (AttritionSpec.tallied 20 18 2 [2000; 5000]%Q))
    as [r4 H4]; [eexists; reflexivity |].
  split.
  - exists r1, r3. split; [exact H1|]. split; [exact H3|].
    destruct (C7_overall_is_conjunction _ r1 _ r3 H1 H3)
      as (_ & (Hov & _) & _ & _ & (Rs & Rb & _) & (Rr & Ra & _ & Pv & _)
          & Sc).
    rewrite (Rs ltac:(reflexivity)), (Rb ltac:(reflexivity)),
      (Rr ltac:(reflexivity)), (Ra ltac:(discriminate)).
    split; [vm_compute; reflexivity|]. split; [vm_compute; reflexivity|].
    split; [apply (proj1 (Sc ltac:(reflexivity) ltac:(reflexivity)
                            ltac:(reflexivity))); reflexivity|].
    split; [vm_compute; reflexivity|]. split; [vm_compute; reflexivity|].
    vm_compute in H3. injection H3 as <-. reflexivity.
  - exists r2, r4. split; [exact H2|]. split; [exact H4|].
    destruct (C7_overall_is_conjunction _ r2 _ r4 H2 H4)
      as (_ & _ & _ & _ & (_ & Rb & _) & (Rr & Ra & _) & Sc).
    rewrite (Rb ltac:(reflexivity)), (Rr ltac:(reflexivity)),
      (Ra ltac:(discriminate)).
    split; [vm_compute; reflexivity|].
    destruct (proj2 (Sc ltac:(reflexivity) ltac:(reflexivity)
                       ltac:(reflexivity)) ltac:(reflexivity))
      as (O & P & F).
    split; [exact O|]. split; [exact P|]. split; [exact F|].
    split; [vm_compute; reflexivity|]. split; [vm_compute; reflexivity|].
    vm_compute in H4. injection H4 as <-. repeat split.
Defined.

(** C8. A category without requests is reported as 0 and no division by
    zero is raised: with no normal request the success rate is 0, with no
    bot request the block rate is 0, with no health check the success rate
    is 0 and with no latency sample the average response time is 0.
    Neither report ever raises [ZeroDivisionError], and each is produced
    once its run has stored its times. *)
Theorem C8_zero_requests_sentinel
    (d : DDoS.DDoSSimulation) (a : Attrition.ChaosTest) :
  (DDoS.generate_report d <> Err ZeroDivisionError
   /\ Attrition.generate_report a <> Err ZeroDivisionError)
  /\ (forall rd,
        DDoS.generate_report d = Ok rd ->
        (DDoS.normal_user_success (DDoS.results d)
         + DDoS.normal_user_fail (DDoS.results d) = 0 ->
         DDoS.normal_success_rate rd = 0%Q)
        /\ (DDoS.bot_requests_sent (DDoS.results d) = 0 ->
            DDoS.bot_block_rate rd = 0%Q))
  /\ (forall ra,
        Attrition.generate_report a = Ok ra ->
        (Attrition.total_requests (Attrition.results a) = 0 ->
         Attrition.success_rate ra = 0%Q)
        /\ (Attrition.response_times (Attrition.results a) = [] ->
            Attrition.avg_response_time ra = 0%Q))
  /\ (is_Some (DDoS.start_time (DDoS.results d)) ->
      is_Some (DDoS.end_time (DDoS.results d)) ->
      exists rd, DDoS.generate_report d = Ok rd)
  /\ (is_Some (Attrition.test_duration (Attrition.results a)) ->
      exists ra, Attrition.generate_report a = Ok ra).
Proof.
  split; [split|split; [|split; [|split]]].
  - apply DDoSFacts.ddos_report_no_zero_division.
  - apply AttritionFacts.chaos_report_no_zero_division.
  - intros rd Hd.
    apply DDoSFacts.ddos_report_inv in Hd
      as (sr & br & Hs & Hb & <- & <- & _).
    destruct (DDoSFacts.rate_defined
                (DDoS.normal_user_success (DDoS.results d))
                (DDoS.normal_user_success (DDoS.results d)
                 + DDoS.normal_user_fail (DDoS.results d)))
      as (q1 & Hq1 & Hz1).
    destruct (DDoSFacts.rate_defined
                (DDoS.bot_requests_blocked (DDoS.results d))
                (DDoS.bot_requests_sent (DDoS.results d)))
      as (q2 & Hq2 & Hz2).
    rewrite Hq1 in Hs. rewrite Hq2 in Hb.
    injection Hs as <-. injection Hb as <-.
    split; intros H0; [apply Hz1 | apply Hz2]; lia.
  - intros ra Ha.
    apply AttritionFacts.chaos_report_inv in Ha
      as (rate & avg & Havg & Hz & <- & <- & _).
    split.
    + intros H0. apply Hz. lia.
    + intros Hnil. rewrite Hnil in Havg. injection Havg as <-. reflexivity.
  - apply DDoSFacts.ddos_report_total.
  - apply AttritionFacts.chaos_report_total.
Qed.

Lemma C8_zero_requests_sentinel_witness :
  (exists rd,
     DDoS.generate_report (DDoSSpec.tallied 0 0 0 0) = Ok rd
     /\ DDoS.normal_success_rate rd = 0%Q
     /\ DDoS.bot_block_rate rd = 0%Q)
  /\ (exists ra,
        Attrition.generate_report (AttritionSpec.tallied 0 0 0 []) = Ok ra
        /\ Attrition.success_rate ra = 0%Q
        /\ Attrition.avg_response_time ra = 0%Q).
Proof.
  pose proof (C8_zero_requests_sentinel (DDoSSpec.tallied 0 0 0 0)
                (AttritionSpec.tallied 0 0 0 []))
    as (_ & Hd & Ha & Htd & Hta).
  destruct Htd as [rd Hrd]; [eexists; reflexivity | eexists; reflexivity |].
  destruct Hta as [ra Hra]; [eexists; reflexivity |].
  split.
  - exists rd. split; [exact Hrd|].
    destruct (Hd rd Hrd) as [H1 H2]. split; [apply H1 | apply H2]; reflexivity.
  - exists ra. split; [exact Hra|].
    destruct (Ha ra Hra) as [H1 H2]. split; [apply H1 | apply H2]; reflexivity.
Defined.

End EvaluatorClaims.

(** ** Further properties of the DDoS demo *)

Section DDoSExtras.

Import DDoS DDoSSpec DDoSFacts DDoSMore DDoSMoreFacts PyFacts PyMoreFacts.

(** X1. Mutual exclusion: in every world a run passes through, at most one
    thread is inside a [with self.lock:] block, and the lock names it. *)
Theorem X1_mutual_exclusion (cfg : Config) (w : World) (i j : nat)
    (ti tj : Thread) :
  reachable cfg w ->
  threads w !! i = Some ti -> threads w !! j = Some tj ->
  holds_lock (t_pc ti) = true -> holds_lock (t_pc tj) = true ->
  i = j /\ lock (shared w) = Some i.
Proof.
  intros Hr Hi Hj Hhi Hhj. apply reachable_inv in Hr.
  pose proof (inside_is_owner _ _ _ _ Hr Hi Hhi) as Li.
  pose proof (inside_is_owner _ _ _ _ Hr Hj Hhj) as Lj.
  split; [congruence | exact Li].
Qed.

Lemma X1_mutual_exclusion_witness :
  exists t, threads holding !! 0%nat = Some t
            /\ holds_lock (t_pc t) = true
            /\ lock (shared holding) = Some 0%nat.
Proof.
  eexists. split; [vm_compute; reflexivity|]. split; [reflexivity|].
  refine (proj2 (X1_mutual_exclusion demo holding 0 0 _ _ _ _ _ _ _)).
  - exists 0%Q, (replicate 6 (0%nat, 1 # 2)). vm_compute. reflexivity.
  - vm_compute. reflexivity.
  - vm_compute. reflexivity.
  - reflexivity.
  - reflexivity.
Defined.

(** X2. No deadlock: in a world a run passes through, no thread can run
    exactly when every thread has left its loop; otherwise the run can be
    continued until every [join] returns, within the number of program
    points [measure] leaves. *)
Theorem X2_no_deadlock (cfg : Config) (w : World) :
  reachable cfg w ->
  (joined cfg w = true <-> forall tid r, step cfg tid r w = None)
  /\ exists sched w',
       run cfg sched w = Some w' /\ joined cfg w' = true
       /\ (length sched <= measure cfg w)%nat.
Proof.
  intros Hr. apply reachable_inv in Hr. split.
  - split.
    + intros Hj tid r. apply joined_stuck. exact Hj.
    + intros Hstuck. destruct (joined cfg w) eqn:Hj; [reflexivity|].
      destruct (progress cfg 0%Q w Hr Hj) as (tid & _ & [w1 Hs]).
      rewrite Hstuck in Hs. discriminate.
  - destruct (greedy_joins cfg 0%Q (measure cfg w) w Hr (Nat.le_refl _))
      as (w' & Hrun & Hj).
    exists (greedy cfg 0%Q (measure cfg w) w), w'.
    split; [exact Hrun|]. split; [exact Hj|].
    pose proof (run_bounded _ _ _ _ Hr Hrun). lia.
Qed.

Lemma X2_no_deadlock_witness :
  exists sched w',
    run demo sched holding = Some w' /\ joined demo w' = true.
Proof.
  destruct (X2_no_deadlock demo holding) as (_ & sched & w' & Hrun & Hj & _).
  - exists 0%Q, (replicate 6 (0%nat, 1 # 2)). vm_compute. reflexivity.
  - exists sched, w'. split; [exact Hrun | exact Hj].
Defined.

(** X3. At every moment of every run the counters are tallies within
    their budgets: none is negative, no more bot requests are blocked than
    were sent, and no more requests are recorded than the actors of that
    kind issue. *)
Theorem X3_counters_in_range (cfg : Config) (w : World) :
  reachable cfg w ->
  let res := results (shared w) in
  0 <= normal_user_success res
  /\ 0 <= normal_user_fail res
  /\ normal_user_success res + normal_user_fail res
     <= Z.of_nat (NORMAL_USERS cfg) * Z.of_nat (REQUESTS_PER_USER cfg)
  /\ 0 <= bot_requests_blocked res <= bot_requests_sent res
  /\ bot_requests_sent res
     <= Z.of_nat (ATTACK_BOTS cfg) * Z.of_nat (REQUESTS_PER_BOT cfg).
Proof.
  intros Hr. pose proof (reachable_inv _ _ Hr) as Hi.
  destruct (reachable_counted _ _ Hr) as [Hs Hf Hb Hle].
  pose proof (owed_total_nonneg cfg Normal w Hi).
  pose proof (owed_total_nonneg cfg Bot w Hi).
  pose proof (tally_nonneg pending_block (threads w)
                (fun t => proj1 (pending_block_range t))).
  destruct Hi as [Hn Hbot _ _]. simpl. lia.
Qed.

Lemma X3_counters_in_range_witness :
  0 <= bot_requests_blocked (results (shared holding))
  <= bot_requests_sent (results (shared holding)).
Proof.
  refine (proj1 (proj2 (proj2 (proj2
            (X3_counters_in_range demo holding _))))).
  exists 0%Q, (replicate 6 (0%nat, 1 # 2)). vm_compute. reflexivity.
Defined.

(** X4. Protection is never premature: in every world a run passes
    through, the flag is set only if more than five bot requests are
    recorded, and a thread is on the branch taken when the flag is set only
    then. *)
Theorem X4_activation_has_cause (cfg : Config) (w : World) :
  reachable cfg w ->
  (ddos_protection_active (shared w) = true ->
   5 < bot_requests_sent (results (shared w)))
  /\ (bot_requests_sent (results (shared w)) <= 5 ->
      ddos_protection_active (shared w) = false)
  /\ (forall tid t, threads w !! tid = Some t -> t_pc t = Draw true ->
                    5 < bot_requests_sent (results (shared w))).
Proof.
  intros Hr. destruct (reachable_causal _ _ Hr) as [Hflag _ Hseen].
  split; [exact Hflag|]. split; [|exact Hseen].
  intros Hle. destruct (ddos_protection_active (shared w)); [|reflexivity].
  specialize (Hflag eq_refl). lia.
Qed.

Lemma X4_activation_has_cause_witness :
  ddos_protection_active (shared holding) = false.
Proof.
  refine (proj1 (proj2 (X4_activation_has_cause demo holding _)) _).
  - exists 0%Q, (replicate 6 (0%nat, 1 # 2)). vm_compute. reflexivity.
  - vm_compute. discriminate.
Defined.

(** X5. Requests in a row.  A bot making its requests one after the other
    adds one to [bot_requests_sent] per request and at most one to
    [bot_requests_blocked], and leaves the counters of the normal users
    alone; protection is on afterwards exactly if it was on before or the
    counter had passed 5 before the last request.  From a fresh object this
    is: exactly from the seventh request on.  A normal user adds one per
    request to its two counters together and leaves those of the bots
    alone. *)
Theorem X5_requests_in_a_row (draws : list Q) (self : DDoSSimulation) :
  (bot_requests_sent (results (bot_requests draws self))
   = bot_requests_sent (results self) + len draws
   /\ ddos_protection_active (bot_requests draws self)
      = ddos_protection_active self
        || (0 <? len draws)
           && (5 <? bot_requests_sent (results self) + len draws - 1)
   /\ bot_requests_blocked (results self)
      <= bot_requests_blocked (results (bot_requests draws self))
      <= bot_requests_blocked (results self) + len draws
   /\ normal_user_success (results (bot_requests draws self))
      = normal_user_success (results self)
   /\ normal_user_fail (results (bot_requests draws self))
      = normal_user_fail (results self))
  /\ ddos_protection_active (bot_requests draws init) = (6 <? len draws)
  /\ (normal_user_success (results (normal_requests draws self))
      + normal_user_fail (results (normal_requests draws self))
      = normal_user_success (results self) + normal_user_fail (results self)
        + len draws
      /\ bot_requests_sent (results (normal_requests draws self))
         = bot_requests_sent (results self)
      /\ bot_requests_blocked (results (normal_requests draws self))
         = bot_requests_blocked (results self)).
Proof.
  assert (Hbot : forall s,
             bot_requests_sent (results (bot_requests draws s))
             = bot_requests_sent (results s) + len draws
             /\ ddos_protection_active (bot_requests draws s)
                = ddos_protection_active s
                  || (0 <? len draws)
                     && (5 <? bot_requests_sent (results s) + len draws - 1)
             /\ bot_requests_blocked (results s)
                <= bot_requests_blocked (results (bot_requests draws s))
                <= bot_requests_blocked (results s) + len draws
             /\ normal_user_success (results (bot_requests draws s))
                = normal_user_success (results s)
             /\ normal_user_fail (results (bot_requests draws s))
                = normal_user_fail (results s)).
  { unfold bot_requests, len.
    induction draws as [|r draws IH]; intros s.
    - simpl. rewrite orb_false_r. repeat split; lia.
    - cbn [fold_left length].
      destruct (IH (bot_request r s)) as (H1 & H2 & H3 & H4 & H5).
      destruct (bot_request_effect r s) as (E1 & E2 & E3 & E4 & E5).
      rewrite H1, H2, H4, H5, E1, E2, E4, E5.
      split; [lia|]. split; [|split; [lia | split; reflexivity]].
      destruct (ddos_protection_active s); [reflexivity|]. simpl.
      destruct (5 <? bot_requests_sent (results s)) eqn:A,
        (0 <? Z.of_nat (length draws)) eqn:B,
        (5 <? bot_requests_sent (results s) + 1
              + Z.of_nat (length draws) - 1) eqn:C,
        (0 <? Z.of_nat (S (length draws))) eqn:D,
        (5 <? bot_requests_sent (results s)
              + Z.of_nat (S (length draws)) - 1) eqn:F;
        try reflexivity; exfalso;
        rewrite ?Z.ltb_lt, ?Z.ltb_ge in *; lia. }
  split; [apply Hbot|]. split.
  - destruct (Hbot init) as (_ & -> & _). simpl.
    destruct (0 <? len draws) eqn:A, (5 <? 0 + len draws - 1) eqn:B,
      (6 <? len draws) eqn:C; try reflexivity; exfalso;
      rewrite ?Z.ltb_lt, ?Z.ltb_ge in *; lia.
  - clear Hbot. revert self. unfold normal_requests, len.
    induction draws as [|r draws IH]; intros s.
    + simpl. repeat split; lia.
    + cbn [fold_left length].
      destruct (IH (normal_request r s)) as (H1 & H2 & H3).
      destruct (normal_request_effect r s) as (E1 & _ & E3 & E4).
      rewrite H1, H2, H3, E1, E3, E4. repeat split; lia.
Qed.

(** X6. A thread that is never interrupted behaves as the sequential loop:
    running only thread [tid] from the head of its loop, with the lock
    free, through as many requests as there are draws, leaves the shared
    object as [normal_requests] (for a normal user) or [bot_requests] (for
    a bot) computes it, advances that thread's loop variable by the number
    of requests and touches no other thread. *)
Theorem X6_thread_alone (cfg : Config) (tid n : nat) (k : Kind)
    (draws : list Q) (w : World) :
  threads w !! tid = Some {| t_kind := k; t_iter := n; t_pc := LoopHead |} ->
  (n + length draws <= budget cfg k)%nat ->
  lock (shared w) = None ->
  exists sched,
    Forall (fun e : nat * Q => e.1 = tid) sched
    /\ run cfg sched w
       = Some {| shared := match k with
                           | Normal => normal_requests draws (shared w)
                           | Bot => bot_requests draws (shared w)
                           end;
                 threads :=
                   <[tid := {| t_kind := k;
                               t_iter := (n + length draws)%nat;
                               t_pc := LoopHead |}]> (threads w) |}.
Proof.
  intros Hlk Hn Hl. destruct k.
  - exact (alone_normal cfg tid draws n w Hlk Hn Hl).
  - exact (alone_bot cfg tid draws n w Hlk Hn Hl).
Qed.

Lemma X6_thread_alone_witness :
  exists sched,
    run demo sched (launched demo 0)
    = Some {| shared :=
                bot_requests [1 # 2; 1 # 2; 1 # 2]
                             (shared (launched demo 0));
              threads :=
                <[7%nat := {| t_kind := Bot; t_iter := 3;
                              t_pc := LoopHead |}]>
                  (threads (launched demo 0)) |}.
Proof.
  destruct (X6_thread_alone demo 7 0 Bot [1 # 2; 1 # 2; 1 # 2]
              (launched demo 0)) as (sched & _ & Hrun).
  - reflexivity.
  - simpl. lia.
  - reflexivity.
  - exists sched. exact Hrun.
Defined.

(** X7. [run_simulation] never fails to report.  Once every [join] has
    returned the lock is free, both times are stored, and the report is
    produced: its duration is the difference of the two readings of the
    clock, its total of normal requests is (users) x (requests per user),
    both rates lie between 0 and 100, and each criterion passes exactly
    when the share it measures reaches its threshold.  In the demo the
    overall verdict is positive exactly when no normal request failed and
    at least 40 of the 50 bot requests were blocked. *)
Theorem X7_simulation_report (cfg : Config) (t0 t1 : Q)
    (sched : list (nat * Q)) (self' : DDoSSimulation) (rep : result Report) :
  run_simulation cfg t0 t1 sched init = Some (self', rep) ->
  exists r,
    rep = Ok r
    /\ start_time (results self') = Some t0
    /\ end_time (results self') = Some t1
    /\ lock self' = None
    /\ duration r = (t1 - t0)%Q
    /\ total_normal r
       = Z.of_nat (NORMAL_USERS cfg) * Z.of_nat (REQUESTS_PER_USER cfg)
    /\ ((0 <= normal_success_rate r)%Q /\ (normal_success_rate r <= 100)%Q)
    /\ ((0 <= bot_block_rate r)%Q /\ (bot_block_rate r <= 100)%Q)
    /\ (normal_user_access r = PASS
        <-> 0 < normal_user_success (results self')
                + normal_user_fail (results self')
            /\ 95 * (normal_user_success (results self')
                     + normal_user_fail (results self'))
               <= 100 * normal_user_success (results self'))
    /\ (bot_blocking r = PASS
        <-> 0 < bot_requests_sent (results self')
            /\ 80 * bot_requests_sent (results self')
               <= 100 * bot_requests_blocked (results self'))
    /\ overall r = passed (normal_user_access r) && passed (bot_blocking r)
    /\ (cfg = demo ->
        (overall r = true
         <-> normal_user_fail (results self') = 0
             /\ 40 <= bot_requests_blocked (results self'))).
Proof.
  intros H. unfold run_simulation in H.
  destruct (run cfg sched (spawn cfg (with_results (set_start_time t0) init)))
    as [w|] eqn:Hrun; [|discriminate].
  simpl in H. destruct (joined cfg w) eqn:Hj; [|discriminate].
  injection H as <- <-.
  assert (Hr : reachable cfg w) by (exists t0, sched; exact Hrun).
  pose proof (reachable_inv _ _ Hr) as Hi.
  destruct (reachable_counters cfg w Hr) as (Hs & Hf & Hb & Hbs).
  destruct (joined_totals cfg w Hi Hj) as [Hn Hbot].
  destruct (run_times _ _ _ _ Hrun) as [Hst _]. simpl in Hst.
  pose proof (joined_lock_free _ _ Hi Hj) as Hlock.
  set (self' := with_results (set_end_time t1) (shared w)).
  destruct (rate_spec (normal_user_success (results self'))
              (normal_user_success (results self')
               + normal_user_fail (results self')))
    as (sr & Hsr & Hsr0 & Hsr1 & Hsrc); [simpl; lia|].
  destruct (rate_spec (bot_requests_blocked (results self'))
              (bot_requests_sent (results self')))
    as (br & Hbr & Hbr0 & Hbr1 & Hbrc); [simpl; lia|].
  specialize (Hsrc 95 ltac:(lia)). specialize (Hbrc 80 ltac:(lia)).
  change (inject_Z 95) with 95%Q in Hsrc.
  change (inject_Z 80) with 80%Q in Hbrc.
  eexists. split.
  { apply (ddos_report_value self' sr br t0 t1 Hsr Hbr); [|reflexivity].
    simpl. exact Hst. }
  simpl. split; [exact Hst|]. split; [reflexivity|]. split; [exact Hlock|].
  split; [reflexivity|]. split; [exact Hn|].
  split; [split; assumption|]. split; [split; assumption|].
  simpl in Hsrc, Hbrc. split; [|split; [|split]].
  - rewrite <- Hsrc. destruct (Qgeb sr 95); split; congruence.
  - rewrite <- Hbrc. destruct (Qgeb br 80); split; congruence.
  - destruct (Qgeb sr 95), (Qgeb br 80); reflexivity.
  - intros ->. simpl in Hn, Hbot. rewrite andb_true_iff, Hsrc, Hbrc. lia.
Qed.

Lemma X7_simulation_report_witness :
  exists self' r,
    run_simulation demo 0 1 demo_schedule init = Some (self', Ok r)
    /\ duration r = (1 - 0)%Q
    /\ total_normal r = 15.
Proof.
  destruct (run_simulation demo 0 1 demo_schedule init) as [[self' rep]|]
    eqn:Hrun; [|vm_compute in Hrun; discriminate].
  destruct (X7_simulation_report demo 0 1 demo_schedule self' rep Hrun)
    as (r & -> & _ & _ & _ & Hd & Ht & _).
  exists self', r. split; [reflexivity|]. split; [exact Hd | exact Ht].
Defined.

End DDoSExtras.

(** ** Further properties of the server-failure demo *)

Section AttritionExtras.

Import Attrition AttritionSpec AttritionFacts AttritionMore AttritionMoreFacts.
Import PyFacts PyMoreFacts.







(** X12. Over the rounds of [run_test] the pool only shrinks and the logs
    only grow: the live servers after any number of rounds are a
    subsequence, in the same order, of the live servers before; the kill
    records and the latency samples before are initial segments of those
    after; and each round counts one request.  A kill alone leaves the
    request statistics untouched, a health check alone leaves the pool and
    the kill records untouched. *)
Theorem X12_pool_shrinks_logs_grow (rds : list Round)
    (self self' : ChaosTest) :
  chaos_rounds rds self = Ok self' ->
  (active_servers self' `sublist_of` active_servers self
   /\ server_failures (results self)
      `prefix_of` server_failures (results self')
   /\ response_times (results self)
      `prefix_of` response_times (results self')
   /\ total_requests (results self')
      = total_requests (results self) + len rds)
  /\ (forall k now o s,
        kill_random_server k now self = Ok (o, s) ->
        total_requests (results s) = total_requests (results self)
        /\ successful_requests (results s)
           = successful_requests (results self)
        /\ failed_requests (results s) = failed_requests (results self)
        /\ response_times (results s) = response_times (results self))
  /\ (forall jitter u b s,
        check_system_health jitter u self = Ok (b, s) ->
        active_servers s = active_servers self
        /\ server_failures (results s) = server_failures (results self)).
Proof.
  intros H. split; [exact (chaos_rounds_order rds self self' H)|]. split.
  - intros k now o s Hk.
    destruct (kill_frame _ _ _ _ _ Hk) as (H1 & H2 & H3 & H4 & _). auto.
  - intros jitter u b s Hc.
    destruct (check_inv _ _ _ _ _ Hc) as (_ & H1 & H2 & _). auto.
Qed.

Lemma X12_pool_shrinks_logs_grow_witness :
  exists self',
    chaos_rounds (map rough_round (seq 0 3)) init = Ok self'
    /\ active_servers self' `sublist_of` SERVERS
    /\ total_requests (results self') = 3.
Proof.
  destruct (chaos_rounds (map rough_round (seq 0 3)) init) as [self'|e]
    eqn:Hr; [|vm_compute in Hr; discriminate].
  exists self'. split; [reflexivity|].
  destruct (X12_pool_shrinks_logs_grow _ _ _ Hr) as ((Hs & _ & _ & Ht) & _).
  split; [exact Hs | exact Ht].
Defined.

(** X13. Errors at the edges of the pool.  [kill_random_server] raises
    nothing on any object: with at most one entry (none included) it
    returns [None] and changes nothing, otherwise it returns an entry of
    the list and removes exactly one entry, even if names repeat.
    [check_system_health] and [mock_health_check] raise exactly when no
    server is live, and what they raise is [ZeroDivisionError]. *)
Theorem X13_edges_of_the_pool (k : nat) (now : Z) (jitter u : Q)
    (self : ChaosTest) :
  (exists o self',
     kill_random_server k now self = Ok (o, self')
     /\ (live_count self <= 1 -> o = None /\ self' = self)
     /\ (1 < live_count self ->
         live_count self' = live_count self - 1
         /\ exists x, o = Some x /\ x ∈ active_servers self))
  /\ (check_system_health jitter u self = Err ZeroDivisionError
      <-> active_servers self = [])
  /\ (mock_health_check jitter u self = Err ZeroDivisionError
      <-> active_servers self = [])
  /\ (forall e, check_system_health jitter u self = Err e ->
                e = ZeroDivisionError).
Proof.
  assert (Hcases : active_servers self = [] \/ 1 <= live_count self).
  { unfold live_count, len. destruct (active_servers self); simpl;
      [left; reflexivity | right; lia]. }
  split; [|split; [|split]].
  - destruct (Z_lt_le_dec 1 (live_count self)) as [Hgt|Hle].
    + destruct (kill_spec k now self Hgt) as (x & rest & _ & Hin & Hr & Hk).
      eexists _, _. split; [exact Hk|]. split; [lia|]. intros _. split.
      * apply list_remove_perm, Permutation_length in Hr.
        unfold live_count, len in *. simpl in *. lia.
      * exists x. auto.
    + exists None, self. split; [apply kill_noop; exact Hle|].
      split; [auto | lia].
  - split.
    + intros H. destruct Hcases as [Ha|H1]; [exact Ha|].
      rewrite (check_values jitter u self H1) in H. discriminate.
    + intros Ha. apply (check_empty jitter u self Ha).
  - split.
    + intros H. destruct Hcases as [Ha|H1]; [exact Ha|].
      rewrite (mock_health_check_ok jitter u self H1) in H. discriminate.
    + intros Ha. apply (check_empty jitter u self Ha).
  - intros e H. destruct Hcases as [Ha|H1].
    + rewrite (proj1 (check_empty jitter u self Ha)) in H. congruence.
    + rewrite (check_values jitter u self H1) in H. discriminate.
Qed.

(** X14. [run_test] raises nothing, whatever the generator draws.  It
    issues 11 health checks, each counted as a success or a failure, records
    one sample per success, never kills the last server, stores the
    duration as the difference of the two clock readings and produces the
    report, whose two pool figures add up to 5; the servers left are a
    subsequence of the configured ones. *)
Theorem X14_run_test_completes (t0 t1 jitter0 u0 : Q)
    (rounds : nat -> Round) :
  exists self' rep,
    run_test t0 t1 jitter0 u0 rounds init = Ok (self', rep)
    /\ total_requests (results self') = 11
    /\ successful_requests (results self') + failed_requests (results self')
       = 11
    /\ 0 <= failed_requests (results self')
    /\ len (response_times (results self'))
       = successful_requests (results self')
    /\ test_duration (results self') = Some (t1 - t0)%Q
    /\ duration rep = (t1 - t0)%Q
    /\ servers_killed rep + servers_still_active rep = 5
    /\ 1 <= servers_still_active rep
    /\ active_servers self' `sublist_of` SERVERS.
Proof.
  destruct (run_test_total t0 t1 jitter0 u0 rounds)
    as (self' & rep & Hrun & _ & _).
  exists self', rep. split; [exact Hrun|].
  apply run_test_inv in Hrun
    as (b & s1 & s2 & Hc & Hr & Ha & Ht & Hs & Hf & Hrt & Hsf & Hd & Hrep).
  assert (R1 : reachable s1) by (eapply reach_check; [apply reach_init|eauto]).
  assert (R2 : reachable s2).
  { clear -R1 Hr. revert s1 R1 Hr.
    induction (map rounds (seq 0 NUM_HEALTH_CHECKS)) as [|rd rds IH];
      intros s1 R1 Hr; simpl in Hr.
    - injection Hr as <-. exact R1.
    - destruct (chaos_round rd s1) as [s|e] eqn:Hrd; simpl in Hr;
        [|discriminate].
      apply (IH s); [|exact Hr].
      apply chaos_round_inv in Hrd as (sa & bb & Hk & Hcc).
      eapply reach_check; [|exact Hcc].
      destruct Hk as [->|[o Hk]]; [exact R1|]. eapply reach_kill; eauto. }
  destruct (reachable_consistent s2 R2) as [Hlive Hnd Hp Hsam Htot].
  pose proof (reachable_failed_nonneg s2 R2) as Hfail.
  destruct (chaos_rounds_order _ _ _ Hr) as (Hsub & _ & _ & Hn2).
  destruct (check_inv _ _ _ _ _ Hc) as (_ & Ha1 & _ & _ & Hn1).
  destruct (reachable_pool_size s2 R2) as [H5 _].
  apply chaos_report_fields in Hrep as (rate & avg & d & _ & _ & Hd' & ->).
  rewrite Hd in Hd'. injection Hd' as <-.
  unfold len in Hn2. rewrite length_map, length_seq in Hn2.
  change (Z.of_nat NUM_HEALTH_CHECKS) with 10 in Hn2.
  simpl in Hn1. unfold live_count in *. rewrite Ha1 in Hsub.
  rewrite Ht, Hs, Hf, Hrt, Ha, Hsf. simpl.
  repeat split; try lia; auto.
Qed.

(** X15. The verdict of [run_test].  With 11 health checks a single
    failure brings the success rate to at most 90.9, below both
    thresholds: the overall verdict is positive exactly when no health
    check failed, the success-rate criterion then prints PASS and otherwise
    FAIL, never ACCEPTABLE, and the response-time criterion prints PASS. *)
Theorem X15_run_test_verdict (t0 t1 jitter0 u0 : Q) (rounds : nat -> Round)
    (self' : ChaosTest) (rep : Report) :
  unit_draw jitter0 -> unit_draw u0 -> unit_rounds rounds ->
  run_test t0 t1 jitter0 u0 rounds init = Ok (self', rep) ->
  response_time_verdict rep = PASS
  /\ (overall rep = true <-> failed_requests (results self') = 0)
  /\ (success_rate_verdict rep = PASS
      <-> failed_requests (results self') = 0)
  /\ (success_rate_verdict rep = FAIL
      <-> 0 < failed_requests (results self')).
Proof.
  intros Hj0 Hu0 Hrounds Hrun.
  apply run_test_inv in Hrun
    as (b & s1 & s2 & Hc & Hr & Ha & Ht & Hs & Hf & Hrt & Hsf & Hd & Hrep).
  pose proof (obs_check jitter0 u0 init b s1 obs_init Hj0 Hu0 Hc) as O1.
  assert (O2 : observed s2).
  { eapply chaos_rounds_observed; [exact O1| |exact Hr].
    apply Forall_forall. intros rd Hin.
    apply list_elem_of_In, in_map_iff in Hin as (i & <- & _).
    destruct (Hrounds i) as (_ & H1 & H2). split; assumption. }
  pose proof (observed_band s2 O2) as Hband.
  pose proof (observed_reachable s2 O2) as R2.
  destruct (reachable_consistent s2 R2) as [_ _ _ Hsam Htot].
  pose proof (reachable_failed_nonneg s2 R2) as Hfail.
  destruct (chaos_rounds_order _ _ _ Hr) as (_ & _ & _ & Hn2).
  destruct (check_inv _ _ _ _ _ Hc) as (_ & _ & _ & _ & Hn1).
  unfold len in Hn2. rewrite length_map, length_seq in Hn2.
  change (Z.of_nat NUM_HEALTH_CHECKS) with 10 in Hn2. simpl in Hn1.
  assert (Hlen : 0 <= successful_requests (results s2))
    by (rewrite <- Hsam; unfold len; lia).
  apply chaos_report_fields in Hrep
    as (rate & avg & d & Hrate & Havg & _ & ->).
  rewrite Ht, Hs in Hrate. rewrite Hrt in Havg. rewrite Hf. simpl.
  destruct (percentage_spec (successful_requests (results s2))
              (total_requests (results s2)) ltac:(lia))
    as (q & Hq & _ & _ & Hthr).
  rewrite Hq in Hrate. injection Hrate as ->.
  pose proof (Hthr 95 1%positive ltac:(lia)) as H95.
  pose proof (Hthr 999 10%positive ltac:(lia)) as H999.
  change (95 # 1) with 95%Q in H95. change (999 # 10) with 99.9%Q in H999.
  assert (Hlt : Qltb avg 3000 = true).
  { apply Qltb_lt.
    destruct (average_band _ _ Havg Hband) as [[_ ->]|[_ [_ H]]];
      [reflexivity | lra]. }
  rewrite Hlt, andb_true_r. split; [reflexivity|].
  destruct (Z.eq_dec (failed_requests (results s2)) 0) as [HF|HF].
  - assert (E95 : Qgeb rate 95 = true) by (apply H95; lia).
    assert (E999 : Qgeb rate 99.9 = true) by (apply H999; lia).
    rewrite E95, E999. repeat split; intros; try congruence; try lia.
  - assert (E95 : Qgeb rate 95 = false).
    { destruct (Qgeb rate 95); [|reflexivity].
      destruct H95 as [H95 _]. specialize (H95 eq_refl). lia. }
    assert (E999 : Qgeb rate 99.9 = false).
    { destruct (Qgeb rate 99.9); [|reflexivity].
      destruct H999 as [H999 _]. specialize (H999 eq_refl). lia. }
    rewrite E95, E999. repeat split; intros; try congruence; try lia.
Qed.

Lemma X15_run_test_verdict_witness :
  exists self' rep,
    run_test 0 3 (1 # 3) (1 # 4) calm_round init = Ok (self', rep)
    /\ failed_requests (results self') = 0
    /\ success_rate_verdict rep = PASS
    /\ overall rep = true.
Proof.
  assert (U1 : unit_draw (1 # 3)) by (split; vm_compute; congruence).
  assert (U2 : unit_draw (1 # 4)) by (split; vm_compute; congruence).
  assert (U3 : unit_rounds calm_round)
    by (intros i; repeat split; vm_compute; congruence).
  destruct (run_test 0 3 (1 # 3) (1 # 4) calm_round init) as [[self' rep]|e]
    eqn:Hrun; [|vm_compute in Hrun; congruence].
  exists self', rep. split; [reflexivity|].
  assert (HF : failed_requests (results self') = 0).
  { vm_compute in Hrun. injection Hrun as <- _. reflexivity. }
  split; [exact HF|].
  destruct (X15_run_test_verdict 0 3 (1 # 3) (1 # 4) calm_round self' rep
              U1 U2 U3 Hrun) as (_ & Hov & Hpass & _).
  split; [apply Hpass | apply Hov]; exact HF.
Defined.

End AttritionExtras.

(** ** Reports outside a run, and the codes of the mock server *)

Section ReportExtras.

Import PyFacts.

(** X8. [generate_report] needs the times a run stores.  In the DDoS
    scenario it raises exactly when the start or the end time is still
    [None], and what it raises is [TypeError]; in the attrition scenario it
    raises exactly when [test_duration] was not stored, and what it raises
    is [KeyError].  The divisions never raise, whatever the counters.  So
    on a fresh object, and in the attrition scenario after any sequence of
    kills and health checks made outside [run_test], the report fails. *)
Theorem X8_report_needs_times
    (d : DDoS.DDoSSimulation) (a : Attrition.ChaosTest) :
  (DDoS.generate_report d = Err TypeError
   <-> DDoS.start_time (DDoS.results d) = None
       \/ DDoS.end_time (DDoS.results d) = None)
  /\ (forall e, DDoS.generate_report d = Err e -> e = TypeError)
  /\ DDoS.generate_report DDoS.init = Err TypeError
  /\ (Attrition.generate_report a = Err KeyError
      <-> Attrition.test_duration (Attrition.results a) = None)
  /\ (forall e, Attrition.generate_report a = Err e -> e = KeyError)
  /\ (AttritionSpec.reachable a ->
      Attrition.generate_report a = Err KeyError).
Proof.
  assert (HD : DDoS.start_time (DDoS.results d) = None
               \/ DDoS.end_time (DDoS.results d) = None ->
               DDoS.generate_report d = Err TypeError).
  { intros H. unfold DDoS.generate_report.
    destruct (DDoSFacts.rate_defined
                (DDoS.normal_user_success (DDoS.results d))
                (DDoS.normal_user_success (DDoS.results d)
                 + DDoS.normal_user_fail (DDoS.results d)))
      as (sr & -> & _).
    destruct (DDoSFacts.rate_defined
                (DDoS.bot_requests_blocked (DDoS.results d))
                (DDoS.bot_requests_sent (DDoS.results d)))
      as (br & -> & _).
    simpl.
    destruct (DDoS.end_time (DDoS.results d)),
      (DDoS.start_time (DDoS.results d)); try reflexivity.
    destruct H; discriminate. }
  assert (HA : Attrition.test_duration (Attrition.results a) = None ->
               Attrition.generate_report a = Err KeyError).
  { intros H. unfold Attrition.generate_report.
    destruct (AttritionFacts.success_rate_defined
                (Attrition.total_requests (Attrition.results a))
                (Attrition.successful_requests (Attrition.results a)))
      as (rate & -> & _).
    destruct (AttritionFacts.average_defined
                (Attrition.response_times (Attrition.results a)))
      as (avg & -> & _).
    simpl. rewrite H. reflexivity. }
  split; [|split; [|split; [|split; [|split]]]].
  - split; [|exact HD].
    intros H. apply DDoSMoreFacts.ddos_report_error in H. tauto.
  - intros e H. apply DDoSMoreFacts.ddos_report_error in H. tauto.
  - reflexivity.
  - split; [|exact HA].
    intros H. apply AttritionMoreFacts.chaos_report_error in H. tauto.
  - intros e H. apply AttritionMoreFacts.chaos_report_error in H. tauto.
  - intros R. apply HA. clear HD HA.
    induction R as [|k now self o self' R IH Hk|jitter u self b self' R IH Hc].
    + reflexivity.
    + unfold Attrition.kill_random_server in Hk.
      destruct (1 <? len (Attrition.active_servers self)).
      * destruct (choice k (Attrition.active_servers self)) as [c|];
          [|discriminate Hk]. simpl in Hk.
        destruct (list_remove c (Attrition.active_servers self)) as [l|];
          [|discriminate Hk].
        simpl in Hk. injection Hk as _ <-. exact IH.
      * injection Hk as _ <-. exact IH.
    + unfold Attrition.check_system_health in Hc.
      destruct (Attrition.mock_health_check _ _ _) as [[s t]|];
        [|discriminate Hc].
      simpl in Hc. destruct s; injection Hc as _ <-; exact IH.
Qed.


End ReportExtras.
